(** * InsightAgent: column resolution, metric derivation and rule evaluation

    A shallow embedding of the analytical core of the [insight_agent] package
    ([agents/column_identifier.py], [agents/metrics.py],
    [agents/insight_rules.py], [schemas.py], [engine.py], and of [llm.py]
    what does not call the remote service), followed by the properties
    established about it.

    Conventions of the embedding:
    - a Python [float] is a primitive binary64 [float]; the operations are the
      IEEE 754 ones, and [nan] is the not-a-number sentinel of the code;
    - a Python [int] is a [Z];
    - a Python [str] that the code looks into (a header, a hint, a cell, a
      code, a label) is a [string] whose characters are the code points below
      256; the character tables ([str.lower], whitespace) are the ones Python
      uses on that range;
    - a Python [str] that the code only assembles and cuts (an action, a
      rationale, the prompt, the narrative) is a [Text.t], the list of its
      code points, whatever their size: [len] is the length of the list;
    - a Python [dict] read by key is a [gmap]; a [dict] or tuple that the code
      iterates is an association list or a list, in insertion order;
    - a raised exception is the [Raise] case of [result]. *)

From Stdlib Require Import ZArith String Ascii List Bool Floats Lia.
From Stdlib Require DecimalString.
From stdpp Require Import gmap strings list fin_maps.

Set Warnings "-inexact-float,-register-all".

Local Open Scope string_scope.
Local Open Scope list_scope.
Local Open Scope Z_scope.

(** ** Exceptions and results *)

Inductive exn : Type :=
| TypeError
| ValueError
| OverflowError
| IndexError
| KeyError
| ValidationError (msg : string).

Inductive result (A : Type) : Type :=
| Ok (a : A)
| Raise (e : exn).
Arguments Ok {A} a.
Arguments Raise {A} e.

Definition result_bind {A B : Type} (f : A -> result B) (m : result A) : result B :=
  match m with
  | Ok a => f a
  | Raise e => Raise e
  end.

#[global] Instance result_ret : MRet result := fun A a => Ok a.
#[global] Instance result_mbind : MBind result := fun A B f m => result_bind f m.

Definition is_ok {A : Type} (m : result A) : Prop := exists a, m = Ok a.

(** A [for] loop that threads an accumulator and stops at the first exception. *)
Fixpoint foldlM {A B : Type} (f : B -> A -> result B) (l : list A) (b : B) : result B :=
  match l with
  | [] => Ok b
  | a :: l' => b' ← f b a; foldlM f l' b'
  end.

(** A list comprehension whose body may raise. *)
Fixpoint mapM_result {A B : Type} (f : A -> result B) (l : list A) : result (list B) :=
  match l with
  | [] => Ok []
  | a :: l' => b ← f a; bs ← mapM_result f l'; Ok (b :: bs)
  end.

(** ** Characters and strings *)

Module Str.

Definition code (c : ascii) : N := N_of_ascii c.

Definition in_range (lo hi : N) (c : ascii) : bool :=
  ((lo <=? code c) && (code c <=? hi))%N.

Definition is_digit (c : ascii) : bool := in_range 48 57 c.
Definition is_lower_alpha (c : ascii) : bool := in_range 97 122 c.
Definition is_alnum_lower (c : ascii) : bool := is_lower_alpha c || is_digit c.

(** [str.isspace] on the code points below 256; also the class [\s] of [re]. *)
Definition is_space (c : ascii) : bool :=
  in_range 9 13 c || in_range 28 32 c || (code c =? 133)%N || (code c =? 160)%N.

(** [str.lower] on one code point below 256: [A-Z] and the Latin-1 capitals. *)
Definition lower_char (c : ascii) : ascii :=
  if in_range 65 90 c || (in_range 192 222 c && negb (code c =? 215)%N)
  then ascii_of_N (code c + 32)
  else c.

Definition lower_chars (cs : list ascii) : list ascii := map lower_char cs.

Fixpoint drop_while (p : ascii -> bool) (cs : list ascii) : list ascii :=
  match cs with
  | [] => []
  | c :: rest => if p c then drop_while p rest else cs
  end.

Definition lstrip_chars (cs : list ascii) : list ascii := drop_while is_space cs.
Definition rstrip_chars (cs : list ascii) : list ascii :=
  rev (drop_while is_space (rev cs)).
Definition strip_chars (cs : list ascii) : list ascii :=
  rstrip_chars (lstrip_chars cs).

(** [re.sub(p + "+", " ", s)] for a one-character class [p]: every maximal run
    of characters of the class becomes one space.  [in_run] tells that the
    previous character belonged to the run being replaced. *)
Fixpoint sub_runs_from (p : ascii -> bool) (in_run : bool) (cs : list ascii) : list ascii :=
  match cs with
  | [] => []
  | c :: rest =>
      if p c then
        if in_run then sub_runs_from p true rest
        else " "%char :: sub_runs_from p true rest
      else c :: sub_runs_from p false rest
  end.

Definition sub_runs (p : ascii -> bool) (cs : list ascii) : list ascii :=
  sub_runs_from p false cs.

(** [s.split()]: the maximal runs of characters that are not whitespace.
    [tok] is the token being read, last character first. *)
Fixpoint split_from (tok : list ascii) (cs : list ascii) : list (list ascii) :=
  match cs with
  | [] => match tok with [] => [] | _ :: _ => [rev tok] end
  | c :: rest =>
      if is_space c then
        match tok with
        | [] => split_from [] rest
        | _ :: _ => rev tok :: split_from [] rest
        end
      else split_from (c :: tok) rest
  end.

Fixpoint starts_with (cs pre : list ascii) : bool :=
  match pre, cs with
  | [], _ => true
  | _ :: _, [] => false
  | p :: pre', c :: cs' => if Ascii.eqb p c then starts_with cs' pre' else false
  end.

Definition chars (s : string) : list ascii := list_ascii_of_string s.
Definition of_chars (cs : list ascii) : string := string_of_list_ascii cs.

Definition strip (s : string) : string := of_chars (strip_chars (chars s)).
Definition lower (s : string) : string := of_chars (lower_chars (chars s)).
Definition split (s : string) : list string := map of_chars (split_from [] (chars s)).
Definition startswith (s pre : string) : bool := starts_with (chars s) (chars pre).

(** [s.replace(old, "")] for a one-character [old]. *)
Definition remove_char (old : ascii) (s : string) : string :=
  of_chars (List.filter (fun c => negb (Ascii.eqb c old)) (chars s)).

End Str.

(** ** Texts *)

Module Text.

(** The code points of a text, in order. *)
Definition t : Type := list N.

(** A [str] of code points below 256, as a text. *)
Definition of_str (s : string) : t := map Str.code (Str.chars s).

Definition newline : t := [10%N].

(** The en dash, U+2013. *)
Definition en_dash : t := [8211%N].

(** [sep.join(lines)] *)
Fixpoint join (sep : t) (lines : list t) : t :=
  match lines with
  | [] => []
  | line :: rest =>
      match rest with
      | [] => line
      | _ :: _ => line ++ sep ++ join sep rest
      end
  end.

Definition join_lines (lines : list t) : t := join newline lines.

(** [text[:n]] *)
Definition slice_to (n : nat) (text : t) : t := firstn n text.

End Text.

(** ** Floats: conversions that Python performs *)

Module PyFloat.

(** The integer [z] rounded to the nearest binary64 value, ties to even. *)
Definition of_Z (z : Z) : float := SF2Prim (binary_normalize prec emax z 0 false).

(** [float(z)] raises [OverflowError] when [z] rounds to a magnitude of
    [2^1024] or more. *)
Definition int_overflow_bound : Z := 2 ^ 1024 - 2 ^ 970.

Definition float_of_int (z : Z) : result float :=
  if Z.abs z <? int_overflow_bound then Ok (of_Z z) else Raise OverflowError.

(** The quotient [n / d] of two positive integers, correctly rounded: the
    quotient is computed with at least 64 significant bits and a sticky bit. *)
Definition round_ratio (n d : Z) : float :=
  let k := Z.max 0 (64 + Z.log2 d - Z.log2 n) in
  let (q, r) := Z.div_eucl (Z.shiftl n k) d in
  let sticky := if r =? 0 then 0 else 1 in
  SF2Prim (binary_normalize prec emax (2 * q + sticky) (- (k + 1)) false).

(** Whitespace that [float(str)] strips (the ASCII one, and the Latin-1
    separators that are first turned into spaces). *)
Definition float_space (c : ascii) : bool :=
  Str.in_range 9 13 c || (Str.code c =? 32)%N || (Str.code c =? 133)%N
  || (Str.code c =? 160)%N.

(** An underscore is accepted between two digits only, and is then dropped. *)
Fixpoint drop_underscores (prev : option ascii) (cs : list ascii) : option (list ascii) :=
  match cs with
  | [] => Some []
  | c :: rest =>
      if Ascii.eqb c "_" then
        match prev, rest with
        | Some p, n :: _ =>
            if Str.is_digit p && Str.is_digit n then drop_underscores (Some c) rest
            else None
        | _, _ => None
        end
      else option_map (cons c) (drop_underscores (Some c) rest)
  end.

Fixpoint span_digits (cs : list ascii) : list ascii * list ascii :=
  match cs with
  | [] => ([], [])
  | c :: rest =>
      if Str.is_digit c then
        let (ds, tl) := span_digits rest in (c :: ds, tl)
      else ([], cs)
  end.

Definition digits_value (ds : list ascii) : Z :=
  fold_left (fun acc c => 10 * acc + (Z.of_N (Str.code c) - 48)) ds 0.

Definition parse_sign (cs : list ascii) : bool * list ascii :=
  match cs with
  | c :: rest =>
      if Ascii.eqb c "-" then (true, rest)
      else if Ascii.eqb c "+" then (false, rest)
      else (false, cs)
  | [] => (false, [])
  end.

Definition parse_exponent (cs : list ascii) : option Z :=
  match cs with
  | [] => Some 0
  | c :: rest =>
      if Ascii.eqb c "e" || Ascii.eqb c "E" then
        let (neg, rest') := parse_sign rest in
        match span_digits rest' with
        | (d :: ds, []) =>
            let e := digits_value (d :: ds) in Some (if neg then - e else e)
        | _ => None
        end
      else None
  end.

(** A decimal literal as a pair (mantissa, power of ten). *)
Definition parse_decimal (cs : list ascii) : option (Z * Z) :=
  let (ip, r1) := span_digits cs in
  let (fp, r2) :=
    match r1 with
    | c :: r => if Ascii.eqb c "." then span_digits r else ([], r1)
    | [] => ([], [])
    end in
  match ip ++ fp with
  | [] => None
  | d :: ds =>
      match parse_exponent r2 with
      | Some e => Some (digits_value (d :: ds), e - Z.of_nat (length fp))
      | None => None
      end
  end.

(** [float(s)] for a [str]; [None] stands for [ValueError]. *)
Definition float_of_str (s : string) : option float :=
  let cs := rev (Str.drop_while float_space (rev (Str.drop_while float_space (Str.chars s)))) in
  match drop_underscores None cs with
  | None => None
  | Some cs' =>
      let (neg, body) := parse_sign cs' in
      let word := Str.of_chars (Str.lower_chars body) in
      let signed (x : float) := if neg then (- x)%float else x in
      if String.eqb word "inf" || String.eqb word "infinity" then Some (signed infinity)
      else if String.eqb word "nan" then Some nan
      else
        match parse_decimal body with
        | None => None
        | Some (m, e) =>
            let mag :=
              if m =? 0 then zero
              else round_ratio (m * 10 ^ Z.max 0 e) (10 ^ Z.max 0 (- e)) in
            Some (signed mag)
        end
  end.

End PyFloat.

(** ** Python values *)

Inductive value : Type :=
| VNone
| VBool (b : bool)
| VInt (z : Z)
| VFloat (f : float)
| VStr (s : string)
| VList (l : list value)
| VDict (d : list (string * value)).

(** [float(v)] *)
Definition py_float (v : value) : result float :=
  match v with
  | VBool b => Ok (if b then one else zero)
  | VInt z => PyFloat.float_of_int z
  | VFloat f => Ok f
  | VStr s =>
      match PyFloat.float_of_str s with
      | Some f => Ok f
      | None => Raise ValueError
      end
  | VNone | VList _ | VDict _ => Raise TypeError
  end.

(** [bool(v)] *)
Definition truthy (v : value) : bool :=
  match v with
  | VNone => false
  | VBool b => b
  | VInt z => negb (z =? 0)
  | VFloat f => negb (f =? 0)%float
  | VStr s => negb (String.eqb s "")
  | VList l => match l with [] => false | _ :: _ => true end
  | VDict d => match d with [] => false | _ :: _ => true end
  end.

(** [d.get(k)]: [None] when the key is missing. *)
Definition get (d : gmap string value) (k : string) : value :=
  default VNone (d !! k).

(** [d.get(k, dflt)] *)
Definition get_or (d : gmap string value) (k : string) (dflt : value) : value :=
  default dflt (d !! k).

(** Lookup in a dictionary kept in insertion order. *)
Fixpoint assoc {A : Type} (k : string) (d : list (string * A)) : option A :=
  match d with
  | [] => None
  | (k', a) :: d' => if String.eqb k k' then Some a else assoc k d'
  end.

(** ** [str()] of a value *)

Module PyRepr.

Section WithFormats.

(** [repr] of a float (the shortest decimal that reads back as the float) and
    [repr] of a str (quoted, with its escapes): neither raises. *)
Variable repr_float : float -> string.
Variable repr_str : string -> string.

(** The most digits that [str()] of an int writes
    ([sys.int_info.default_max_str_digits]); on a longer int it raises
    [ValueError]. *)
Definition max_str_digits : Z := 4300.

Definition repr_int (z : Z) : result string :=
  if 10 ^ max_str_digits <=? Z.abs z then Raise ValueError
  else Ok (DecimalString.NilZero.string_of_int (Z.to_int z)).

(** The items of a display, separated by a comma and a space. *)
Fixpoint comma_separated (items : list string) : string :=
  match items with
  | [] => ""
  | item :: rest =>
      match rest with
      | [] => item
      | _ :: _ => item +:+ ", " +:+ comma_separated rest
      end
  end.

(** [repr(v)], which is also [str(v)] of a list and of a dict; the items are
    written in order and the first one that raises ends the call. *)
Fixpoint repr (v : value) : result string :=
  match v with
  | VNone => Ok "None"
  | VBool b => Ok (if b then "True" else "False")
  | VInt z => repr_int z
  | VFloat f => Ok (repr_float f)
  | VStr s => Ok (repr_str s)
  | VList l =>
      items ← mapM_result repr l;
      Ok ("[" +:+ comma_separated items +:+ "]")
  | VDict d =>
      items ← mapM_result
                (fun '(k, x) => s ← repr x; Ok (repr_str k +:+ ": " +:+ s)) d;
      Ok ("{" +:+ comma_separated items +:+ "}")
  end.

End WithFormats.

End PyRepr.

(** ** schemas.py *)

Definition CANONICAL_COLUMNS : list (string * list string) :=
  [ ("campaign_name", ["campaign name"; "campaign"]);
    ("ad_set_name", ["ad set name"; "adset"; "ad set"]);
    ("ad_name", ["ad name"; "ad"]);
    ("ad_id", ["ad id"; "creative id"; "asset id"]);
    ("spend", ["spend"; "cost"]);
    ("impressions", ["impressions"; "impr"]);
    ("clicks", ["clicks"; "link clicks"]);
    ("ctr", ["ctr"; "click through rate"; "ctr %"]);
    ("frequency", ["frequency"]);
    ("roas", ["roas"; "return on ad spend"]);
    ("purchases", ["purchases"; "purchase"]);
    ("purchase_value", ["purchase value"; "purchase revenue"; "revenue"]);
    ("adds_to_cart", ["adds to cart"; "atc"]);
    ("ctr_7d", ["ctr 7d"; "ctr last 7"]);
    ("ctr_prev7", ["ctr prev7"; "ctr previous 7"]);
    ("status", ["status"]) ].

Module ColumnMapping.

Record t : Type := Build {
  campaign_name : option string;
  ad_set_name : option string;
  ad_name : option string;
  ad_id : option string;
  spend : option string;
  impressions : option string;
  clicks : option string;
  ctr : option string;
  frequency : option string;
  roas : option string;
  purchases : option string;
  purchase_value : option string;
  adds_to_cart : option string;
  ctr_7d : option string;
  ctr_prev7 : option string;
  status : option string
}.

(** [self.model_dump().items()]: the fields in declaration order. *)
Definition model_dump (self : t) : list (string * option string) :=
  [ ("campaign_name", campaign_name self);
    ("ad_set_name", ad_set_name self);
    ("ad_name", ad_name self);
    ("ad_id", ad_id self);
    ("spend", spend self);
    ("impressions", impressions self);
    ("clicks", clicks self);
    ("ctr", ctr self);
    ("frequency", frequency self);
    ("roas", roas self);
    ("purchases", purchases self);
    ("purchase_value", purchase_value self);
    ("adds_to_cart", adds_to_cart self);
    ("ctr_7d", ctr_7d self);
    ("ctr_prev7", ctr_prev7 self);
    ("status", status self) ].

(** [getattr(self, canonical, None)], called with field names only. *)
Definition resolve (self : t) (canonical : string) : option string :=
  match assoc canonical (model_dump self) with
  | Some v => v
  | None => None
  end.

(** Truth value of an [Optional[str]]: neither [None] nor the empty string. *)
Definition is_set (v : option string) : bool :=
  match v with
  | Some s => negb (String.eqb s "")
  | None => false
  end.

Definition available_metrics (self : t) : list string :=
  map fst (List.filter (fun kv => is_set (snd kv)) (model_dump self)).

(** The constructor called with the entries of the dictionary [d] as keyword
    arguments: a field missing from [d] keeps its default [None]. *)
Definition of_dict (d : gmap string (option string)) : t :=
  let field k := default None (d !! k) in
  {| campaign_name := field "campaign_name";
     ad_set_name := field "ad_set_name";
     ad_name := field "ad_name";
     ad_id := field "ad_id";
     spend := field "spend";
     impressions := field "impressions";
     clicks := field "clicks";
     ctr := field "ctr";
     frequency := field "frequency";
     roas := field "roas";
     purchases := field "purchases";
     purchase_value := field "purchase_value";
     adds_to_cart := field "adds_to_cart";
     ctr_7d := field "ctr_7d";
     ctr_prev7 := field "ctr_prev7";
     status := field "status" |}.

Definition empty : t := of_dict ∅.

End ColumnMapping.

(** A raw record: the row of the dataset, keyed by header, in the order of
    the input. *)
Definition record : Type := list (string * value).

(** [record.get(column)] *)
Definition record_get (r : record) (column : string) : value :=
  default VNone (assoc column r).

Inductive severity_level : Type := info | warning | critical | opportunity.

Module Insight.

Record t : Type := Build {
  code : string;
  label : string;
  severity : severity_level;
  action : Text.t;
  rationale : Text.t;
  metrics : list (string * value)
}.

End Insight.

Module InsightRequest.

Record t : Type := Build {
  data : list record;
  column_hints : option (list (string * string));
  metadata : option (list (string * value))
}.

(** The validator run after the fields are set, at construction and in
    [model_validate]. *)
Definition _ensure_data (self : t) : result t :=
  match data self with
  | [] => Raise (ValidationError "At least one row of data is required")
  | _ :: _ => Ok self
  end.

Definition model_validate (payload : t) : result t := _ensure_data payload.

End InsightRequest.

(** ** agents/metrics.py *)

Module Metrics.

Record MetricSummary : Type := {
  column_mapping : ColumnMapping.t;
  per_row : list (gmap string value);
  aggregates : gmap string float
}.

(** The set literal of [_numeric_fields]; only membership is asked of it. *)
Definition _numeric_fields : list string :=
  [ "spend"; "impressions"; "clicks"; "ctr"; "frequency"; "roas"; "purchases";
    "purchase_value"; "adds_to_cart"; "ctr_7d"; "ctr_prev7" ].

Definition is_numeric_field (canonical : string) : bool :=
  bool_decide (canonical ∈ _numeric_fields).

Definition _to_float (v : value) : result float :=
  match v with
  | VBool _ | VInt _ | VFloat _ => py_float v
  | VStr s =>
      match PyFloat.float_of_str (Str.remove_char "%" s) with
      | Some f => Ok f
      | None => Ok nan
      end
  | VNone | VList _ | VDict _ => Ok nan
  end.

(** [TypeError] and [ValueError] are caught; any other exception of the
    conversion propagates. *)
Definition _is_valid_number (v : value) : result bool :=
  match v with
  | VNone => Ok false
  | _ =>
      match py_float v with
      | Ok numeric => Ok (is_finite numeric)
      | Raise TypeError | Raise ValueError => Ok false
      | Raise e => Raise e
      end
  end.

Definition _compute_ctr (metrics : gmap string value) : result float :=
  let v := get metrics "ctr" in
  valid ← _is_valid_number v;
  if valid : bool then py_float v
  else
    let clicks := get metrics "clicks" in
    let impressions := get metrics "impressions" in
    valid_clicks ← _is_valid_number clicks;
    if negb valid_clicks then Ok nan
    else
      valid_impressions ← _is_valid_number impressions;
      if negb valid_impressions then Ok nan
      else
        i ← py_float impressions;
        if (i =? 0)%float then Ok nan
        else
          c ← py_float clicks;
          i' ← py_float impressions;
          Ok (c / i')%float.

Definition _compute_ratio (numerator denominator : value) : result float :=
  valid_numerator ← _is_valid_number numerator;
  if negb valid_numerator then Ok nan
  else
    valid_denominator ← _is_valid_number denominator;
    if negb valid_denominator then Ok nan
    else
      d ← py_float denominator;
      if (d =? 0)%float then Ok nan
      else
        n ← py_float numerator;
        d' ← py_float denominator;
        Ok (n / d')%float.

Definition _compute_ctr_delta (metrics : gmap string value) : result float :=
  let current := get metrics "ctr_7d" in
  valid_7d ← _is_valid_number current;
  let current := if valid_7d : bool then current else get metrics "ctr" in
  let previous := get metrics "ctr_prev7" in
  valid_current ← _is_valid_number current;
  if negb valid_current then Ok nan
  else
    valid_previous ← _is_valid_number previous;
    if negb valid_previous then Ok nan
    else
      prev_value ← py_float previous;
      if (prev_value =? 0)%float then Ok nan
      else
        c ← py_float current;
        Ok ((c - prev_value) / prev_value)%float.

(** The body of the loop over [mapping.available_metrics()]. *)
Definition store_metric (mapping : ColumnMapping.t) (rec : record)
    (metrics : gmap string value) (canonical : string) : result (gmap string value) :=
  match ColumnMapping.resolve mapping canonical with
  | None => Ok metrics
  | Some column =>
      let v := record_get rec column in
      if is_numeric_field canonical then
        f ← _to_float v; Ok (<[canonical := VFloat f]> metrics)
      else Ok (<[canonical := v]> metrics)
  end.

(** The body of the loop over [records]: one derived row. *)
Definition derive_row (mapping : ColumnMapping.t) (rec : record) : result (gmap string value) :=
  metrics ← foldlM (store_metric mapping rec) (ColumnMapping.available_metrics mapping) ∅;
  ctr ← _compute_ctr metrics;
  let metrics := <["ctr" := VFloat ctr]> metrics in
  ratio ← _compute_ratio (get metrics "purchases") (get metrics "adds_to_cart");
  let metrics := <["atc_to_purchase" := VFloat ratio]> metrics in
  delta ← _compute_ctr_delta metrics;
  Ok (<["ctr_delta" := VFloat delta]> metrics).

Definition _derive_row_metrics (records : list record) (mapping : ColumnMapping.t)
    : result (list (gmap string value)) :=
  mapM_result (derive_row mapping) records.

Definition total_fields : list string :=
  [ "spend"; "impressions"; "clicks"; "purchases"; "purchase_value"; "adds_to_cart" ].

Definition average_fields : list string :=
  [ "ctr"; "frequency"; "roas"; "atc_to_purchase"; "ctr_7d"; "ctr_prev7"; "ctr_delta" ].

(** The two dictionaries [sums] and [counts] of [_aggregate]. *)
Definition acc : Type := gmap string float * gmap string Z.

Definition add_total (row : gmap string value) (a : acc) (metric : string) : result acc :=
  let v := get row metric in
  valid ← _is_valid_number v;
  if valid : bool then
    f ← py_float v;
    let key := "total_" +:+ metric in
    Ok (<[key := (default 0%float (a.1 !! key) + f)%float]> a.1, a.2)
  else Ok a.

Definition add_average (row : gmap string value) (a : acc) (metric : string) : result acc :=
  let v := get row metric in
  valid ← _is_valid_number v;
  if valid : bool then
    let key := "avg_" +:+ metric in
    f ← py_float v;
    Ok (<[key := (default 0%float (a.1 !! key) + f)%float]> a.1,
        <[key := default 0 (a.2 !! key) + 1]> a.2)
  else Ok a.

Definition aggregate_row (a : acc) (row : gmap string value) : result acc :=
  a' ← foldlM (add_total row) total_fields a;
  foldlM (add_average row) average_fields a'.

(** The body of the loop over [counts.items()]: [sums[key] / count], the
    count being converted to a float by the division. *)
Definition divide_by_count (key : string) (count : Z)
    (sums : result (gmap string float)) : result (gmap string float) :=
  s ← sums;
  if negb (count =? 0) then
    match s !! key with
    | Some total =>
        c ← PyFloat.float_of_int count;
        Ok (<[key := (total / c)%float]> s)
    | None => Raise KeyError
    end
  else Ok s.

(** The keys of [counts] are distinct and each entry of [sums] is written from
    its own count, so the order in which [counts] is visited does not show in
    the result. *)
Definition _aggregate (rows : list (gmap string value)) : result (gmap string float) :=
  a ← foldlM aggregate_row rows (∅, ∅);
  map_fold divide_by_count (Ok a.1) a.2.

(** [MetricCalculator.__call__] *)
Definition MetricCalculator (records : list record) (mapping : ColumnMapping.t)
    : result MetricSummary :=
  per_row_metrics ← _derive_row_metrics records mapping;
  aggregate_metrics ← _aggregate per_row_metrics;
  Ok {| column_mapping := mapping;
        per_row := per_row_metrics;
        aggregates := aggregate_metrics |}.

End Metrics.

(** ** agents/insight_rules.py *)

Module InsightRules.

Import Metrics.

Record RuleContext : Type := { summary : MetricSummary }.

Module Rule.

(** A rule: its two dataclass fields and its two methods. *)
Record t : Type := Build {
  code : string;
  label : string;
  applies : RuleContext -> result bool;
  build_insight : RuleContext -> result Insight.t
}.

End Rule.

(** [aggregates.get(key, 0.0)] as the evidence of a finding. *)
Definition evidence (ctx : RuleContext) (key : string) : value :=
  VFloat (default 0%float (aggregates (summary ctx) !! key)).

Definition _RoasOneToTwoRule : Rule.t :=
  let code := "roas_1_2" in
  let label := "ROAS between 1 and 2" in
  {| Rule.code := code;
     Rule.label := label;
     Rule.applies ctx :=
       Ok match aggregates (summary ctx) !! "avg_roas" with
          | Some roas => (1 <=? roas)%float && (roas <=? 2)%float
          | None => false
          end;
     Rule.build_insight ctx :=
       Ok {| Insight.code := code;
             Insight.label := label;
             Insight.severity := opportunity;
             Insight.action :=
               Text.of_str "Test 2" ++ Text.en_dash
               ++ Text.of_str "3 new hooks/thumbnails; rotate in new ad creative; cap frequency if over-performing";
             Insight.rationale :=
               Text.of_str "ROAS is in the modest 1" ++ Text.en_dash
               ++ Text.of_str "2 band, signalling room for incremental lift from creative testing and fatigue mitigation";
             Insight.metrics := [("avg_roas", evidence ctx "avg_roas")] |} |}.

Definition _HealthyCtrWeakConversionRule : Rule.t :=
  let code := "ctr_healthy_low_conversion" in
  let label := "CTR healthy, conversion weak" in
  {| Rule.code := code;
     Rule.label := label;
     Rule.applies ctx :=
       Ok match aggregates (summary ctx) !! "avg_ctr" with
          | Some ctr =>
              negb (ctr =? 0)%float && (0.015 <=? ctr)%float
              && match aggregates (summary ctx) !! "avg_atc_to_purchase" with
                 | None => true
                 | Some atc_purchase => (atc_purchase <? 0.2)%float
                 end
          | None => false
          end;
     Rule.build_insight ctx :=
       Ok {| Insight.code := code;
             Insight.label := label;
             Insight.severity := warning;
             Insight.action := Text.of_str "Audit landing and checkout flows; ensure offer-message match and remove friction";
             Insight.rationale := Text.of_str "Traffic is engaged (strong CTR) but shoppers are not completing purchases after adding to cart";
             Insight.metrics :=
               [("avg_ctr", evidence ctx "avg_ctr");
                ("avg_atc_to_purchase", evidence ctx "avg_atc_to_purchase")] |} |}.

Definition _HighFrequencyFatigueRule : Rule.t :=
  let code := "frequency_fatigue" in
  let label := "High frequency risk" in
  {| Rule.code := code;
     Rule.label := label;
     Rule.applies ctx :=
       Ok match aggregates (summary ctx) !! "avg_frequency" with
          | Some frequency => negb (frequency =? 0)%float && (3.5 <=? frequency)%float
          | None => false
          end;
     Rule.build_insight ctx :=
       Ok {| Insight.code := code;
             Insight.label := label;
             Insight.severity := warning;
             Insight.action := Text.of_str "Rotate fresh creative or expand audiences to lower frequency";
             Insight.rationale := Text.of_str "Average frequency is high, indicating audience saturation and performance decay risk";
             Insight.metrics := [("avg_frequency", evidence ctx "avg_frequency")] |} |}.

Definition _CtrDropRule : Rule.t :=
  let code := "ctr_drop_vs_prev7" in
  let label := "CTR dropped vs previous 7 days" in
  {| Rule.code := code;
     Rule.label := label;
     Rule.applies ctx :=
       Ok match aggregates (summary ctx) !! "avg_ctr_delta" with
          | Some delta => (delta <? -0.1)%float
          | None => false
          end;
     Rule.build_insight ctx :=
       Ok {| Insight.code := code;
             Insight.label := label;
             Insight.severity := critical;
             Insight.action := Text.of_str "Investigate creative fatigue and audience overlap; run rapid creative refresh";
             Insight.rationale := Text.of_str "CTR declined more than 10% week-over-week, signalling creative engagement issues";
             Insight.metrics := [("avg_ctr_delta", evidence ctx "avg_ctr_delta")] |} |}.

(** [v > 50] *)
Definition gt_50 (v : value) : result bool :=
  match v with
  | VBool _ => Ok false
  | VInt z => Ok (50 <? z)
  | VFloat f => Ok (50 <? f)%float
  | VNone | VStr _ | VList _ | VDict _ => Raise TypeError
  end.

(** [v == 0] *)
Definition eq_0 (v : value) : bool :=
  match v with
  | VBool b => negb b
  | VInt z => z =? 0
  | VFloat f => (f =? 0)%float
  | VNone | VStr _ | VList _ | VDict _ => false
  end.

(** [spend and spend > 50 and (not purchases or purchases == 0)], as a
    condition. *)
Definition offending (row : gmap string value) : result bool :=
  let spend := get row "spend" in
  let purchases := get row "purchases" in
  if truthy spend then
    above ← gt_50 spend;
    if above : bool then Ok (negb (truthy purchases) || eq_0 purchases)
    else Ok false
  else Ok false.

(** The loop of [applies]: it returns at the first offending row. *)
Fixpoint any_offending (rows : list (gmap string value)) : result bool :=
  match rows with
  | [] => Ok false
  | row :: rest =>
      b ← offending row;
      if b : bool then Ok true else any_offending rest
  end.

Definition offender (row : gmap string value) : value :=
  VDict [ ("spend", get_or row "spend" (VFloat 0));
          ("purchases", get_or row "purchases" (VFloat 0));
          ("campaign_name", get row "campaign_name");
          ("ad_name", get row "ad_name") ].

(** The list comprehension of [build_insight]. *)
Fixpoint offenders (rows : list (gmap string value)) : result (list value) :=
  match rows with
  | [] => Ok []
  | row :: rest =>
      b ← offending row;
      tl ← offenders rest;
      Ok (if b : bool then offender row :: tl else tl)
  end.

Definition _SpendZeroPurchasesRule : Rule.t :=
  let code := "spend_no_purchases" in
  let label := "Spend with no purchases" in
  {| Rule.code := code;
     Rule.label := label;
     Rule.applies ctx := any_offending (per_row (summary ctx));
     Rule.build_insight ctx :=
       l ← offenders (per_row (summary ctx));
       Ok {| Insight.code := code;
             Insight.label := label;
             Insight.severity := critical;
             Insight.action := Text.of_str "Pause or fix underperforming ads with spend but zero purchases; audit funnel quickly";
             Insight.rationale := Text.of_str "Detected ads spending meaningful budget without returning purchases";
             Insight.metrics := [("offenders", VList l)] |} |}.

Definition builtin_rules : list Rule.t :=
  [ _RoasOneToTwoRule;
    _HealthyCtrWeakConversionRule;
    _HighFrequencyFatigueRule;
    _CtrDropRule;
    _SpendZeroPurchasesRule ].

Module RuleBasedInsightAgent.

Record t : Type := Build { rules : list Rule.t }.

(** [__init__]: the extra rules, if any, come before the built-in ones. *)
Definition init (extra_rules : option (list Rule.t)) : t :=
  {| rules := default [] extra_rules ++ builtin_rules |}.

(** The body of the loop of [__call__]. *)
Definition step (ctx : RuleContext) (insights : list Insight.t) (rule : Rule.t)
    : result (list Insight.t) :=
  a ← Rule.applies rule ctx;
  if a : bool then
    i ← Rule.build_insight rule ctx;
    Ok (insights ++ [i])
  else Ok insights.

(** [__call__] *)
Definition call (self : t) (s : MetricSummary) : result (list Insight.t) :=
  let ctx := {| summary := s |} in
  foldlM (step ctx) (rules self) [].

End RuleBasedInsightAgent.

End InsightRules.

(** ** agents/column_identifier.py *)

Module ColumnIdentifier.

Definition not_alnum (c : ascii) : bool := negb (Str.is_alnum_lower c).

(** [re.sub(r"[^a-z0-9]+", " ", s)] *)
Definition sub_non_alnum (s : string) : string :=
  Str.of_chars (Str.sub_runs not_alnum (Str.chars s)).

(** [re.sub(r"\s+", " ", s)] *)
Definition sub_spaces (s : string) : string :=
  Str.of_chars (Str.sub_runs Str.is_space (Str.chars s)).

Definition _normalize (label : string) : string :=
  let cleaned := sub_non_alnum (Str.lower (Str.strip label)) in
  Str.strip (sub_spaces cleaned).

(** [s.replace(" ", "")] *)
Definition no_spaces (s : string) : string := Str.remove_char " " s.

Definition mem (s : string) (l : list string) : bool := existsb (String.eqb s) l.

(** The test of the first loop of [_find_best_match], also the one of the
    loop over the headers in [__call__]. *)
Definition matches (targets : list string) (normalized : string) : bool :=
  mem normalized targets || mem (no_spaces normalized) (map no_spaces targets).

(** The first loop of [_find_best_match]. *)
Fixpoint first_match (targets : list string) (normalized_columns : list (string * string))
    : option string :=
  match normalized_columns with
  | [] => None
  | (column_name, normalized) :: rest =>
      if matches targets normalized then Some column_name
      else first_match targets rest
  end.

(** The second loop of [_find_best_match]; [key.split()[0]] is evaluated at
    each turn and raises [IndexError] when [key] has no token. *)
Fixpoint first_prefixed (key : string) (normalized_columns : list (string * string))
    : result (option string) :=
  match normalized_columns with
  | [] => Ok None
  | (column_name, normalized) :: rest =>
      match Str.split key with
      | [] => Raise IndexError
      | token :: _ =>
          if Str.startswith normalized (_normalize token) then Ok (Some column_name)
          else first_prefixed key rest
      end
  end.

Definition _find_best_match (key : string) (normalized_columns : list (string * string))
    (fallback_candidates : option (list string)) : result (option string) :=
  let normalized_targets :=
    match fallback_candidates with
    | Some (c :: cs) => map _normalize (c :: cs)
    | Some [] | None => [_normalize key]
    end in
  match first_match normalized_targets normalized_columns with
  | Some column_name => Ok (Some column_name)
  | None => first_prefixed key normalized_columns
  end.

(** [d[k] = v] on a dictionary kept in insertion order. *)
Fixpoint dict_set {A : Type} (k : string) (v : A) (d : list (string * A)) : list (string * A) :=
  match d with
  | [] => [(k, v)]
  | (k', v') :: d' => if String.eqb k k' then (k, v) :: d' else (k', v') :: dict_set k v d'
  end.

(** A dictionary comprehension over [keys]. *)
Definition dict_of {A : Type} (f : string -> A) (keys : list string) : list (string * A) :=
  fold_left (fun d k => dict_set k (f k) d) keys [].

Definition truthy_target (target : option string) : bool :=
  ColumnMapping.is_set target.

(** The body of the loop over the hints. *)
Definition apply_hint (normalized_columns : list (string * string))
    (canonical_to_source : gmap string (option string)) (hint : string * string)
    : result (gmap string (option string)) :=
  let (canonical, hinted_column) := hint in
  match assoc hinted_column normalized_columns with
  | Some _ => Ok (<[canonical := Some hinted_column]> canonical_to_source)
  | None =>
      let normalized_hint := _normalize hinted_column in
      target ← _find_best_match normalized_hint normalized_columns None;
      if truthy_target target then Ok (<[canonical := target]> canonical_to_source)
      else Ok canonical_to_source
  end.

(** The loop over the headers in the automatic matching: the first header
    that matches is stored, whatever it is. *)
Definition synonym_match (candidates : list string)
    (normalized_columns : list (string * string)) : option string :=
  first_match candidates normalized_columns.

(** The body of the loop over [CANONICAL_COLUMNS]. *)
Definition auto_match (normalized_columns : list (string * string))
    (canonical_to_source : gmap string (option string)) (entry : string * list string)
    : result (gmap string (option string)) :=
  let (canonical, synonyms) := entry in
  if truthy_target (default None (canonical_to_source !! canonical)) then Ok canonical_to_source
  else
    let candidates := synonyms ++ [canonical] in
    let canonical_to_source :=
      match synonym_match candidates normalized_columns with
      | Some column_name => <[canonical := Some column_name]> canonical_to_source
      | None => canonical_to_source
      end in
    match canonical_to_source !! canonical with
    | None => Raise KeyError
    | Some current =>
        if truthy_target current then Ok canonical_to_source
        else
          target ← _find_best_match canonical normalized_columns (Some candidates);
          if truthy_target target then Ok (<[canonical := target]> canonical_to_source)
          else Ok canonical_to_source
    end.

(** [SemanticColumnIdentifier.__call__] *)
Definition SemanticColumnIdentifier (columns : list string) (hints : option (list (string * string)))
    : result ColumnMapping.t :=
  let hint_mapping :=
    List.filter (fun kv => bool_decide (is_Some (assoc (fst kv) CANONICAL_COLUMNS)))
      (default [] hints) in
  let normalized_columns := dict_of _normalize columns in
  let canonical_to_source : gmap string (option string) :=
    list_to_map (map (fun kv => (fst kv, None)) CANONICAL_COLUMNS) in
  canonical_to_source ← foldlM (apply_hint normalized_columns) hint_mapping canonical_to_source;
  canonical_to_source ← foldlM (auto_match normalized_columns) CANONICAL_COLUMNS canonical_to_source;
  Ok (ColumnMapping.of_dict canonical_to_source).

End ColumnIdentifier.

(** ** engine.py *)

Module Engine.

Import Metrics.

(** The [diagnostics] dictionary, one field per key that the engine writes. *)
Record Diagnostics : Type := {
  column_hints : option (list (string * string));
  column_mapping_confidence : option (list string);
  aggregate_metrics : option (gmap string float);
  insight_count : option Z;
  narrative : option Text.t
}.

Definition no_diagnostics : Diagnostics :=
  {| column_hints := None; column_mapping_confidence := None;
     aggregate_metrics := None; insight_count := None; narrative := None |}.

(** [EngineState]: every key is optional. *)
Record EngineState : Type := {
  st_records : option (list record);
  st_column_mapping : option ColumnMapping.t;
  st_summary : option MetricSummary;
  st_insights : option (list Insight.t);
  st_diagnostics : option Diagnostics
}.

(** [state[key]] *)
Definition item {A : Type} (field : option A) : result A :=
  match field with
  | Some a => Ok a
  | None => Raise KeyError
  end.

(** The graph writes the keys that a node returns over the state. *)
Definition update (state upd : EngineState) : EngineState :=
  let over {A : Type} (new old : option A) : option A :=
    match new with Some _ => new | None => old end in
  {| st_records := over (st_records upd) (st_records state);
     st_column_mapping := over (st_column_mapping upd) (st_column_mapping state);
     st_summary := over (st_summary upd) (st_summary state);
     st_insights := over (st_insights upd) (st_insights state);
     st_diagnostics := over (st_diagnostics upd) (st_diagnostics state) |}.

Record InsightResponse : Type := {
  column_mapping : ColumnMapping.t;
  insights : list Insight.t;
  diagnostics : Diagnostics
}.

(** What [run] is called with: an [InsightRequest], which [run] takes as it
    is, or a dictionary of the fields, which [run] validates.  The constructor
    of [InsightRequest] validates too, but [model_construct] and an assignment
    to a field do not: an instance may hold any fields. *)
Inductive payload : Type :=
| Instance (request : InsightRequest.t)
| Mapping (fields : InsightRequest.t).

Section WithCollaborators.

(** Python's [repr] of a float and of a str, for the evidence that the prompt
    quotes, and [str()] of the aggregates, a dictionary of floats: none of
    them raises. *)
Variable repr_float : float -> string.
Variable repr_str : string -> string.
Variable str_of_aggregates : gmap string float -> string.

(** The collaborators of [InsightEngine.__init__]. *)
Record InsightEngine : Type := {
  column_identifier : list string -> option (list (string * string)) -> result ColumnMapping.t;
  metric_calculator : list record -> ColumnMapping.t -> result MetricSummary;
  insight_agent : MetricSummary -> result (list Insight.t);
  llm_generate : Text.t -> result Text.t
}.

Variable self : InsightEngine.

(** The line of one finding; the f-string calls [str()] on the evidence. *)
Definition insight_line (insight : Insight.t) : result Text.t :=
  metrics ← PyRepr.repr repr_float repr_str (VDict (Insight.metrics insight));
  Ok (Text.of_str "- " ++ Text.of_str (Insight.label insight) ++ Text.of_str ": "
      ++ Insight.action insight
      ++ Text.of_str " (metrics: " ++ Text.of_str metrics ++ Text.of_str ")").

Definition _build_prompt (insights : list Insight.t) (diagnostics : Diagnostics)
    : result Text.t :=
  insight_lines ← mapM_result insight_line insights;
  let metric_summary := default ∅ (aggregate_metrics diagnostics) in
  Ok (Text.join_lines
        ([ Text.of_str "You are the InsightAgent marketing strategist. Summarize insights for the growth team.";
           Text.of_str "Focus on actionable next steps and highlight crucial metrics.";
           Text.of_str "Key metrics:";
           Text.of_str (str_of_aggregates metric_summary);
           Text.of_str "Insights:" ] ++ insight_lines)).

Definition _identify_columns (state : EngineState) : result EngineState :=
  records ← item (st_records state);
  match records with
  | [] => Raise IndexError
  | first :: _ =>
      let columns := map fst first in
      let hints := column_hints (default no_diagnostics (st_diagnostics state)) in
      mapping ← column_identifier self columns hints;
      let d := default no_diagnostics (st_diagnostics state) in
      let d := {| column_hints := column_hints d;
                  column_mapping_confidence := Some (ColumnMapping.available_metrics mapping);
                  aggregate_metrics := aggregate_metrics d;
                  insight_count := insight_count d;
                  narrative := narrative d |} in
      Ok {| st_records := Some records; st_column_mapping := Some mapping;
            st_summary := None; st_insights := None; st_diagnostics := Some d |}
  end.

Definition _calculate_metrics (state : EngineState) : result EngineState :=
  records ← item (st_records state);
  mapping ← item (st_column_mapping state);
  summary ← metric_calculator self records mapping;
  let d := default no_diagnostics (st_diagnostics state) in
  let d := {| column_hints := column_hints d;
              column_mapping_confidence := column_mapping_confidence d;
              aggregate_metrics := Some (aggregates summary);
              insight_count := insight_count d;
              narrative := narrative d |} in
  Ok {| st_records := Some records; st_column_mapping := Some mapping;
        st_summary := Some summary; st_insights := None; st_diagnostics := Some d |}.

Definition _generate_insights (state : EngineState) : result EngineState :=
  summary ← item (st_summary state);
  insights ← insight_agent self summary;
  let d := default no_diagnostics (st_diagnostics state) in
  let d := {| column_hints := column_hints d;
              column_mapping_confidence := column_mapping_confidence d;
              aggregate_metrics := aggregate_metrics d;
              insight_count := Some (Z.of_nat (length insights));
              narrative := narrative d |} in
  mapping ← item (st_column_mapping state);
  Ok {| st_records := None; st_column_mapping := Some mapping;
        st_summary := Some summary; st_insights := Some insights;
        st_diagnostics := Some d |}.

Definition _compose_narrative (state : EngineState) : result EngineState :=
  let d := default no_diagnostics (st_diagnostics state) in
  insights ← item (st_insights state);
  prompt ← _build_prompt insights d;
  text ← llm_generate self prompt;
  let d := {| column_hints := column_hints d;
              column_mapping_confidence := column_mapping_confidence d;
              aggregate_metrics := aggregate_metrics d;
              insight_count := insight_count d;
              narrative := Some text |} in
  mapping ← item (st_column_mapping state);
  Ok {| st_records := None; st_column_mapping := Some mapping;
        st_summary := st_summary state; st_insights := Some insights;
        st_diagnostics := Some d |}.

(** The pipeline stages in the order of the edges of the graph. *)
Definition stages : list (EngineState -> result EngineState) :=
  [ _identify_columns; _calculate_metrics; _generate_insights; _compose_narrative ].

(** [self._app.invoke(state)]: each node reads the state and its result is
    written over it. *)
Definition invoke (state : EngineState) : result EngineState :=
  foldlM (fun st node => upd ← node st; Ok (update st upd)) stages state.

Definition run (payload : payload) : result InsightResponse :=
  request ← match payload with
            | Instance request => Ok request
            | Mapping fields => InsightRequest.model_validate fields
            end;
  let state :=
    {| st_records := Some (InsightRequest.data request);
       st_column_mapping := None; st_summary := None; st_insights := None;
       st_diagnostics :=
         Some {| column_hints := Some (default [] (InsightRequest.column_hints request));
                 column_mapping_confidence := None; aggregate_metrics := None;
                 insight_count := None; narrative := None |} |} in
  final_state ← invoke state;
  mapping ← item (st_column_mapping final_state);
  Ok {| column_mapping := mapping;
        insights := default [] (st_insights final_state);
        diagnostics := default no_diagnostics (st_diagnostics final_state) |}.

End WithCollaborators.

(** The engine built with the agents of this package and the text generator
    [generate]. *)
Definition default_engine (generate : Text.t -> result Text.t) : InsightEngine :=
  {| column_identifier := ColumnIdentifier.SemanticColumnIdentifier;
     metric_calculator := MetricCalculator;
     insight_agent := InsightRules.RuleBasedInsightAgent.call
                        (InsightRules.RuleBasedInsightAgent.init None);
     llm_generate := generate |}.

End Engine.

(** ** config.py and llm.py *)

Module LLM.

Record InsightAgentSettings : Type := {
  openai_api_key : option string;
  model : string;
  temperature : float;
  max_tokens : Z
}.

(** The clients that [build_llm_client] returns.  The client of the remote
    service keeps its settings; its [generate] calls the service and is not
    part of this development. *)
Inductive client : Type :=
| DummyLLM
| OpenAIClient (settings : InsightAgentSettings).

(** An exception of a library that the module calls, by its name. *)
Inductive library_error : Type :=
| LibraryError (name : string).

Inductive error : Type :=
| RuntimeError (msg : string)
| Library (e : library_error).

(** Truth value of the key, an [Optional[str]]. *)
Definition key_given (settings : InsightAgentSettings) : bool :=
  match openai_api_key settings with
  | Some key => negb (String.eqb key "")
  | None => false
  end.

Section WithEnvironment.

(** [get_settings()]: the settings that pydantic builds from the environment,
    or the exception that it raises on an environment it cannot read. *)
Variable get_settings : library_error + InsightAgentSettings.

(** [OpenAI(api_key=key)], the constructor of the library's client: the
    exception that it raises, if any. *)
Variable OpenAI : string -> option library_error.

(** [settings or get_settings()]: the environment is read only when no
    settings are given. *)
Definition settings_or_environment (settings : option InsightAgentSettings)
    : error + InsightAgentSettings :=
  match settings with
  | Some given => inr given
  | None =>
      match get_settings with
      | inl e => inl (Library e)
      | inr read => inr read
      end
  end.

(** [OpenAIClient.__init__] *)
Definition OpenAIClient_init (settings : option InsightAgentSettings) : error + client :=
  match settings_or_environment settings with
  | inl e => inl e
  | inr settings =>
      if negb (key_given settings)
      then inl (RuntimeError "OPENAI_API_KEY is required for OpenAIClient")
      else
        match OpenAI (default "" (openai_api_key settings)) with
        | Some e => inl (Library e)
        | None => inr (OpenAIClient settings)
        end
  end.

Definition build_llm_client (settings : option InsightAgentSettings) : error + client :=
  match settings_or_environment settings with
  | inl e => inl e
  | inr settings =>
      if key_given settings then OpenAIClient_init (Some settings)
      else inr DummyLLM
  end.

End WithEnvironment.

(** [DummyLLM.generate] *)
Definition DummyLLM_generate (prompt : Text.t) : Text.t :=
  Text.join_lines [Text.of_str "Automated insight summary:"; Text.slice_to 256 prompt].

End LLM.

(** The engine of the offline runs: the agents of the package and the
    deterministic client. *)
Definition offline_engine : Engine.InsightEngine :=
  Engine.default_engine (fun prompt => Ok (LLM.DummyLLM_generate prompt)).

(** * Vocabulary of the properties *)

(** ** Ratios *)

(** A ratio computation answers the sentinel: it returns, the result is
    not-a-number, and so it is not an infinity. *)
Definition is_nan_result (r : result float) : Prop :=
  exists f, r = Ok f /\ is_nan f = true /\ is_infinity f = false.

(** The operands do not form a quotient: the denominator is a zero, or one of
    the two is the sentinel. *)
Definition degenerate (n d : float) : Prop :=
  (d =? 0)%float = true \/ is_nan n = true \/ is_nan d = true.

(** The numerator of [ctr_delta] is [n]: [ctr_7d] when it is valid, else
    [ctr]. *)
Definition current_ctr (metrics : gmap string value) (n : float) : Prop :=
  (metrics !! "ctr_7d" = Some (VFloat n) /\ is_finite n = true)
  \/ (Metrics._is_valid_number (get metrics "ctr_7d") = Ok false
      /\ metrics !! "ctr" = Some (VFloat n)).

(** ** Coercion and derived rows *)

(** The integers of a raw value or record are within the range of the floats,
    so that their conversion does not raise [OverflowError]. *)
Definition float_range (v : value) : Prop :=
  forall z, v = VInt z -> Z.abs z < PyFloat.int_overflow_bound.

Definition record_in_float_range (rec : record) : Prop :=
  forall column, float_range (record_get rec column).

(** The same of the integers that the derivation converts: the raw values of
    the mapped numeric fields. *)
Definition convertible (mapping : ColumnMapping.t) (rec : record) (canonical : string)
    : Prop :=
  forall column,
    ColumnMapping.resolve mapping canonical = Some column ->
    Metrics.is_numeric_field canonical = true ->
    float_range (record_get rec column).

Definition mapped_in_float_range (mapping : ColumnMapping.t) (rec : record) : Prop :=
  forall canonical,
    canonical ∈ ColumnMapping.available_metrics mapping ->
    convertible mapping rec canonical.

(** The coercion of a numeric field the way the specification words it: a
    number passes through as a float, a string is parsed after a trailing
    percent sign is stripped (not-a-number when it does not parse), anything
    else is not-a-number. *)
Definition strip_trailing_percent (s : string) : string :=
  match rev (Str.chars s) with
  | c :: rest => if Ascii.eqb c "%" then Str.of_chars (rev rest) else s
  | [] => s
  end.

Definition coerce_as_specified (v : value) : result float :=
  match v with
  | VBool _ | VInt _ | VFloat _ => py_float v
  | VStr s => Ok (default nan (PyFloat.float_of_str (strip_trailing_percent s)))
  | VNone | VList _ | VDict _ => Ok nan
  end.

(** The coercion that the code performs, on a value in the float range. *)
Definition coerced (v : value) : float :=
  match v with
  | VBool b => if b then one else zero
  | VInt z => PyFloat.of_Z z
  | VFloat f => f
  | VStr s => default nan (PyFloat.float_of_str (Str.remove_char "%" s))
  | VNone | VList _ | VDict _ => nan
  end.

(** What the derivation stores for a mapped canonical metric. *)
Definition stored (rec : record) (canonical column : string) : value :=
  if Metrics.is_numeric_field canonical then VFloat (coerced (record_get rec column))
  else record_get rec column.

(** The entry of [canonical] once the loop over the mapped metrics has
    visited it. *)
Definition entry (mapping : ColumnMapping.t) (rec : record) (canonical : string)
    (old : option value) : option value :=
  match ColumnMapping.resolve mapping canonical with
  | Some column => Some (stored rec canonical column)
  | None => old
  end.

(** The entry at [k] is a float, or there is none. *)
Definition float_entry (m : gmap string value) (k : string) : Prop :=
  m !! k = None \/ exists f, m !! k = Some (VFloat f).

(** The numerically valid value at [k]: a finite float. *)
Definition number (m : gmap string value) (k : string) : option float :=
  match m !! k with
  | Some (VFloat f) => if is_finite f then Some f else None
  | _ => None
  end.

(** The three synthetic metrics the way the specification words them, from
    the numerically valid operands. *)
Definition ctr_as_specified (ctr clicks impressions : option float) : float :=
  match ctr with
  | Some c => c
  | None =>
      match clicks, impressions with
      | Some k, Some i => if (i =? 0)%float then nan else (k / i)%float
      | _, _ => nan
      end
  end.

Definition ratio_as_specified (numerator denominator : option float) : float :=
  match numerator, denominator with
  | Some n, Some d => if (d =? 0)%float then nan else (n / d)%float
  | _, _ => nan
  end.

Definition ctr_delta_as_specified (ctr_7d ctr ctr_prev7 : option float) : float :=
  let current := match ctr_7d with Some c => Some c | None => ctr end in
  match current, ctr_prev7 with
  | Some c, Some p => if (p =? 0)%float then nan else ((c - p) / p)%float
  | _, _ => nan
  end.

(** The entry of [canonical] in the dictionary that the loop over the mapped
    metrics builds from the empty one. *)
Definition coerced_entry (mapping : ColumnMapping.t) (rec : record)
    (canonical : string) : option value :=
  if bool_decide (canonical ∈ ColumnMapping.available_metrics mapping)
  then entry mapping rec canonical None
  else None.

(** The derived row: the coerced metrics and, written over them, the three
    synthetic metrics. *)
Definition with_synthetic (metrics : gmap string value) : gmap string value :=
  let ctr :=
    ctr_as_specified (number metrics "ctr") (number metrics "clicks")
      (number metrics "impressions") in
  let ratio :=
    ratio_as_specified (number metrics "purchases") (number metrics "adds_to_cart") in
  let delta :=
    ctr_delta_as_specified (number metrics "ctr_7d")
      (if is_finite ctr then Some ctr else None) (number metrics "ctr_prev7") in
  <["ctr_delta" := VFloat delta]>
    (<["atc_to_purchase" := VFloat ratio]> (<["ctr" := VFloat ctr]> metrics)).

(** The coercion claim with the wording of the specification: every mapped
    numeric field of a derived row holds the value of [coerce_as_specified]. *)
Definition coercion_as_specified : Prop :=
  forall (mapping : ColumnMapping.t) (rec : record) (canonical column : string)
         (row : gmap string value),
    Metrics.derive_row mapping rec = Ok row ->
    canonical ∈ ColumnMapping.available_metrics mapping ->
    ColumnMapping.resolve mapping canonical = Some column ->
    Metrics.is_numeric_field canonical = true ->
    canonical <> "ctr" ->
    exists f, coerce_as_specified (record_get rec column) = Ok f
              /\ row !! canonical = Some (VFloat f).

(** A mapping and a record to run the derivation on. *)
Definition sample_mapping : ColumnMapping.t :=
  ColumnMapping.of_dict (<["spend" := Some "Spend"]> (<["status" := Some "Status"]> ∅)).

Definition sample_record : record := [("Spend", VStr "5%0"); ("Status", VStr "keep")].

(** The claim that the synthetic [ctr] is finite, with the wording of the
    specification: a derived row with a valid [clicks] and [impressions]
    above zero has a finite [ctr]. *)
Definition ctr_finite_as_specified : Prop :=
  forall (mapping : ColumnMapping.t) (rec : record) (row : gmap string value)
         (k i : float),
    Metrics.derive_row mapping rec = Ok row ->
    row !! "clicks" = Some (VFloat k) -> is_finite k = true ->
    row !! "impressions" = Some (VFloat i) -> (0 <? i)%float = true ->
    exists c, row !! "ctr" = Some (VFloat c) /\ is_finite c = true.

(** A row whose quotient of clicks by impressions is beyond the floats. *)
Definition overflow_mapping : ColumnMapping.t :=
  ColumnMapping.of_dict
    (<["clicks" := Some "Clicks"]> (<["impressions" := Some "Impressions"]> ∅)).

Definition overflow_record : record :=
  [("Clicks", VFloat 1e308); ("Impressions", VFloat 0.5)].

Definition clicks_record : record :=
  [("Clicks", VInt 250); ("Impressions", VInt 10000)].

(** ** Aggregation *)

(** The numerically valid values of [field] across the rows, in row order. *)
Definition valid_values (field : string) (rows : list (gmap string value)) : list float :=
  omap (fun row => number row field) rows.

(** The sum of floats, accumulated from [0.0] in the order of the list. *)
Definition float_sum (vs : list float) : float :=
  fold_left (fun s v => (s + v)%float) vs 0%float.

(** The arithmetic mean: the sum divided by the count. *)
Definition float_mean (vs : list float) : float :=
  (float_sum vs / PyFloat.of_Z (Z.of_nat (length vs)))%float.

(** One valid value [v] added to the entry [key] of the sums, and counted
    when [counting]. *)
Definition bump_at (key : string) (v : option float) (counting : bool)
    (a : Metrics.acc) : Metrics.acc :=
  match v with
  | Some x =>
      (<[key := (default 0%float (a.1 !! key) + x)%float]> a.1,
       if counting then <[key := default 0 (a.2 !! key) + 1]> a.2 else a.2)
  | None => a
  end.

Definition total_key (field : string) : string := "total_" +:+ field.
Definition avg_key (field : string) : string := "avg_" +:+ field.

(** The fields that are totalled and the fields that are averaged, as the
    specification lists them: six and seven. *)
Definition total_fields_as_specified : list string :=
  [ "spend"; "impressions"; "clicks"; "purchases"; "purchase_value"; "adds_to_cart" ].

Definition average_fields_as_specified : list string :=
  [ "ctr"; "frequency"; "roas"; "atc_to_purchase"; "ctr_7d"; "ctr_prev7"; "ctr_delta" ].

(** What a row adds to the two dictionaries. *)
Definition bump_row (a : Metrics.acc) (row : gmap string value) : Metrics.acc :=
  fold_left (fun a f => bump_at (avg_key f) (number row f) true a) Metrics.average_fields
    (fold_left (fun a f => bump_at (total_key f) (number row f) false a)
       Metrics.total_fields a).

(** The field whose total, or whose average, is kept under [key]. *)
Definition totalled (key : string) : option string :=
  List.find (fun f => String.eqb key (total_key f)) Metrics.total_fields.

Definition averaged (key : string) : option string :=
  List.find (fun f => String.eqb key (avg_key f)) Metrics.average_fields.

(** The valid value that a row contributes to [key], if any. *)
Definition contribution (key : string) (row : gmap string value) : option float :=
  match totalled key with
  | Some f => number row f
  | None => match averaged key with Some f => number row f | None => None end
  end.

Definition add_opt (old : option float) (v : option float) : option float :=
  match v with
  | Some x => Some (default 0%float old + x)%float
  | None => old
  end.

Definition count_opt (old : option Z) (v : option float) : option Z :=
  match v with
  | Some _ => Some (default 0 old + 1)
  | None => old
  end.

(** The fields that [_aggregate] reads hold floats, when present. *)
Definition aggregable (row : gmap string value) : Prop :=
  forall f, f ∈ Metrics.total_fields ++ Metrics.average_fields -> float_entry row f.

(** The running sum and the running count of the valid values: nothing
    before the first one. *)
Definition sum_opt (vs : list float) : option float :=
  match vs with [] => None | _ :: _ => Some (float_sum vs) end.

Definition length_opt (vs : list float) : option Z :=
  match vs with [] => None | _ :: _ => Some (Z.of_nat (length vs)) end.

(** Three derived rows to aggregate and to evaluate the rules on. *)
Definition sample_rows : list (gmap string value) :=
  [ <["spend" := VFloat 150]> (<["purchases" := VFloat 3]> (<["roas" := VFloat 1.5]>
      (<["ad_name" := VStr "Creative A"]> ∅)));
    <["spend" := VFloat 80]> (<["purchases" := VFloat 0]> (<["roas" := VFloat 0.9]>
      (<["ad_name" := VStr "Creative B"]> ∅)));
    <["spend" := VFloat 60]> (<["roas" := VFloat nan]> ∅) ].

(** ** Rules and findings *)

(** The rows that the spend rule can compare: [spend] and [purchases] hold
    floats, when present. *)
Definition rule_safe (row : gmap string value) : Prop :=
  float_entry row "spend" /\ float_entry row "purchases".

(** A row has a spend above 50 together with purchases absent or equal to 0. *)
Definition offends (row : gmap string value) : bool :=
  match row !! "spend" with
  | Some (VFloat spend) =>
      (50 <? spend)%float
      && match row !! "purchases" with
         | None => true
         | Some (VFloat purchases) => (purchases =? 0)%float
         | Some _ => false
         end
  | _ => false
  end.

(** What a finding carries for an offending row: its spend, its purchases
    ([0.0] when the row has none), its campaign name and its ad name ([None]
    when the row has none). *)
Definition offender_evidence (row : gmap string value) : value :=
  VDict [ ("spend", default (VFloat 0) (row !! "spend"));
          ("purchases", default (VFloat 0) (row !! "purchases"));
          ("campaign_name", default VNone (row !! "campaign_name"));
          ("ad_name", default VNone (row !! "ad_name")) ].

(** The codes of the built-in rules, in registration order. *)
Definition rule_codes : list string :=
  [ "roas_1_2"; "ctr_healthy_low_conversion"; "frequency_fatigue";
    "ctr_drop_vs_prev7"; "spend_no_purchases" ].

(** The predicate of each rule, as the table of the specification gives it;
    a missing aggregate makes it false. *)
Definition roas_in_band (s : Metrics.MetricSummary) : bool :=
  match Metrics.aggregates s !! "avg_roas" with
  | Some roas => (1 <=? roas)%float && (roas <=? 2)%float
  | None => false
  end.

Definition predicate_as_specified (code : string) (s : Metrics.MetricSummary) : bool :=
  let agg := Metrics.aggregates s in
  if String.eqb code "roas_1_2" then roas_in_band s
  else if String.eqb code "ctr_healthy_low_conversion" then
    match agg !! "avg_ctr" with
    | Some ctr =>
        (0.015 <=? ctr)%float
        && match agg !! "avg_atc_to_purchase" with
           | None => true
           | Some atc => (atc <? 0.2)%float
           end
    | None => false
    end
  else if String.eqb code "frequency_fatigue" then
    match agg !! "avg_frequency" with
    | Some frequency => (3.5 <=? frequency)%float
    | None => false
    end
  else if String.eqb code "ctr_drop_vs_prev7" then
    match agg !! "avg_ctr_delta" with
    | Some delta => (delta <? -0.1)%float
    | None => false
    end
  else if String.eqb code "spend_no_purchases" then
    existsb offends (Metrics.per_row s)
  else false.

(** Whether a rule applies, and the finding it builds, when neither raises. *)
Definition fires (rule : InsightRules.Rule.t) (ctx : InsightRules.RuleContext) : bool :=
  match InsightRules.Rule.applies rule ctx with
  | Ok b => b
  | Raise _ => false
  end.

Definition finding (rule : InsightRules.Rule.t) (ctx : InsightRules.RuleContext)
    : option Insight.t :=
  match InsightRules.Rule.build_insight rule ctx with
  | Ok i => Some i
  | Raise _ => None
  end.

(** The findings of the rules that fire, in the order of the rules. *)
Definition findings (rules : list InsightRules.Rule.t) (ctx : InsightRules.RuleContext)
    : list Insight.t :=
  omap (fun rule => if fires rule ctx then finding rule ctx else None) rules.

(** A summary to evaluate the rules on. *)
Definition sample_summary : Metrics.MetricSummary :=
  {| Metrics.column_mapping := ColumnMapping.empty;
     Metrics.per_row := sample_rows;
     Metrics.aggregates := <["avg_roas" := 1.2%float]> (<["avg_frequency" := 3.4%float]> ∅) |}.

(** The evidence of the spend rule: one entry per offending row, in row
    order. *)
Definition offenders_evidence (s : Metrics.MetricSummary) : list (string * value) :=
  [("offenders",
    VList (map offender_evidence (List.filter offends (Metrics.per_row s))))].

(** ** Normalized headers *)

(** The shape of a normalized header: every character is a lowercase letter
    or a digit, or a space that such a character follows at once (so that no
    two spaces are adjacent); no whitespace at either end. *)
Fixpoint single_spaced (cs : list ascii) : bool :=
  match cs with
  | [] => true
  | c :: rest =>
      (if Ascii.eqb c " " then
         match rest with [] => true | d :: _ => Str.is_alnum_lower d end
       else Str.is_alnum_lower c)
      && single_spaced rest
  end.

Definition starts_clean (cs : list ascii) : bool :=
  match cs with [] => true | c :: _ => negb (Str.is_space c) end.

Definition ends_clean (cs : list ascii) : bool := starts_clean (rev cs).

Definition normal_form (cs : list ascii) : Prop :=
  single_spaced cs = true /\ starts_clean cs = true /\ ends_clean cs = true.

(** [_normalize] on the characters of the label. *)
Definition normalize_chars (cs : list ascii) : list ascii :=
  Str.strip_chars
    (Str.sub_runs Str.is_space
       (Str.sub_runs ColumnIdentifier.not_alnum (Str.lower_chars (Str.strip_chars cs)))).

(** The text is empty or begins with a lowercase letter or a digit. *)
Definition head_alnum (cs : list ascii) : bool :=
  match cs with [] => true | d :: _ => Str.is_alnum_lower d end.

(** ** Hints *)

(** The relaxed match of a hint, on its normalized form [normalized_hint]:
    a header matches when its normalized form is the normalized hint, or is
    the same once the spaces are removed from both; failing that, when its
    normalized form starts with the first word of the normalized hint.  The
    first header that matches, in the order of the caller, is the one taken. *)
Definition hint_equal (normalized_hint header : string) : bool :=
  ColumnIdentifier.matches [normalized_hint] (ColumnIdentifier._normalize header).

Definition first_word (s : string) : string := hd "" (Str.split s).

Definition hint_prefix (normalized_hint header : string) : bool :=
  Str.startswith (ColumnIdentifier._normalize header) (first_word normalized_hint).

Definition relaxed_hint_match (normalized_hint : string) (columns : list string)
    : option string :=
  match List.find (hint_equal normalized_hint) columns with
  | Some header => Some header
  | None => List.find (hint_prefix normalized_hint) columns
  end.

(** The resolution of a hinted metric with the wording of the specification:
    the hint, when it names no header verbatim, maps the metric to the first
    header whose normalized form equals the normalized hint, and otherwise
    the metric is resolved as it is without the hint. *)
Definition hint_resolution_as_specified : Prop :=
  forall (columns : list string) (canonical hinted : string)
         (with_hint without_hint : ColumnMapping.t),
    canonical ∈ map fst CANONICAL_COLUMNS ->
    hinted ∉ columns ->
    ColumnIdentifier.SemanticColumnIdentifier columns (Some [(canonical, hinted)]) = Ok with_hint ->
    ColumnIdentifier.SemanticColumnIdentifier columns None = Ok without_hint ->
    ColumnMapping.resolve with_hint canonical =
    match List.find (fun header =>
            String.eqb (ColumnIdentifier._normalize header)
              (ColumnIdentifier._normalize hinted)) columns with
    | Some header => Some header
    | None => ColumnMapping.resolve without_hint canonical
    end.

(** Every canonical metric has an entry in the dictionary of the resolver. *)
Definition complete (canonical_to_source : gmap string (option string)) : Prop :=
  forall k, k ∈ map fst CANONICAL_COLUMNS -> is_Some (canonical_to_source !! k).

(** The entries of a dictionary comprehension: each key with its image. *)
Definition graph_of {A : Type} (f : string -> A) (d : list (string * A)) : Prop :=
  Forall (fun kv => snd kv = f (fst kv)) d.

(** ** Requests *)

(** The message of the validation failure on an empty dataset. *)
Definition empty_dataset_error : exn :=
  ValidationError "At least one row of data is required".

(** Two requests: one without rows, one with a single row. *)
Definition empty_request : InsightRequest.t :=
  {| InsightRequest.data := [];
     InsightRequest.column_hints := None;
     InsightRequest.metadata := None |}.

Definition one_row_request : InsightRequest.t :=
  {| InsightRequest.data := [ [("Spend", VInt 80); ("Purchases", VInt 0)] ];
     InsightRequest.column_hints := None;
     InsightRequest.metadata := None |}.

(** An engine whose stages all raise. *)
Definition failing_engine : Engine.InsightEngine :=
  {| Engine.column_identifier := fun _ _ => Raise TypeError;
     Engine.metric_calculator := fun _ _ => Raise TypeError;
     Engine.insight_agent := fun _ => Raise TypeError;
     Engine.llm_generate := fun _ => Raise TypeError |}.

(** The request that a payload stands for. *)
Definition fields_of (payload : Engine.payload) : InsightRequest.t :=
  match payload with
  | Engine.Instance request => request
  | Engine.Mapping fields => fields
  end.

(** The rejection of an empty dataset the way the specification words it:
    whatever the request and the engine, a run on no rows answers the
    validation failure. *)
Definition empty_dataset_as_specified : Prop :=
  forall (repr_float : float -> string) (repr_str : string -> string)
         (str_of_aggregates : gmap string float -> string)
         (engine : Engine.InsightEngine) (payload : Engine.payload),
    InsightRequest.data (fields_of payload) = [] ->
    Engine.run repr_float repr_str str_of_aggregates engine payload
    = Raise empty_dataset_error.

(** The two rows of the scenario of [tests/test_engine.py]. *)
Definition test_rows : list record :=
  [ [ ("Campaign name", VStr "Spring Drops"); ("Ad set name", VStr "Women");
      ("Ad name", VStr "Creative A"); ("Ad ID", VStr "123");
      ("Spend", VInt 150); ("Impressions", VInt 10000); ("Clicks", VInt 250);
      ("CTR %", VFloat 2.5); ("Frequency", VFloat 4.0); ("ROAS", VFloat 1.5);
      ("Purchases", VInt 3); ("Purchase value", VInt 450); ("Adds to cart", VInt 20);
      ("CTR 7d %", VFloat 2.6); ("CTR prev7 %", VFloat 3.0);
      ("Status (pause/fix/test/keep)", VStr "keep") ];
    [ ("Campaign name", VStr "Spring Drops"); ("Ad set name", VStr "Men");
      ("Ad name", VStr "Creative B"); ("Ad ID", VStr "456");
      ("Spend", VInt 80); ("Impressions", VInt 4000); ("Clicks", VInt 80);
      ("CTR %", VFloat 2.0); ("Frequency", VFloat 3.2); ("ROAS", VFloat 0.9);
      ("Purchases", VInt 0); ("Purchase value", VInt 0); ("Adds to cart", VInt 5);
      ("CTR 7d %", VFloat 1.9); ("CTR prev7 %", VFloat 2.5);
      ("Status (pause/fix/test/keep)", VStr "fix") ] ].

Definition test_request : InsightRequest.t :=
  {| InsightRequest.data := test_rows;
     InsightRequest.column_hints := None;
     InsightRequest.metadata := None |}.

(** * Vocabulary of the further properties *)

(** ** Failures and keys of the Metric Deriver *)

(** A mapped numeric field of the record holds an integer beyond the floats. *)
Definition overflowing (mapping : ColumnMapping.t) (rec : record) (canonical : string) : Prop :=
  exists column z,
    ColumnMapping.resolve mapping canonical = Some column
    /\ Metrics.is_numeric_field canonical = true
    /\ record_get rec column = VInt z
    /\ (PyFloat.int_overflow_bound <= Z.abs z)%Z.

(** The entry that the aggregation keeps under [key]: a total, an average,
    or nothing. *)
Definition aggregate_entry (key : string) (rows : list (gmap string value)) : option float :=
  match totalled key with
  | Some f => sum_opt (valid_values f rows)
  | None =>
      match averaged key with
      | Some f =>
          match valid_values f rows with
          | [] => None
          | _ :: _ => Some (float_mean (valid_values f rows))
          end
      | None => None
      end
  end.


(** A summary on which the three rules on averages fire. *)
Definition fatigued_summary : Metrics.MetricSummary :=
  {| Metrics.column_mapping := ColumnMapping.empty;
     Metrics.per_row := [];
     Metrics.aggregates :=
       <["avg_ctr" := 0.02%float]> (<["avg_atc_to_purchase" := 0.1%float]>
         (<["avg_frequency" := 4%float]> (<["avg_ctr_delta" := (-0.2)%float]> ∅))) |}.

(** A rule of the caller that always fires. *)
Definition always_rule : InsightRules.Rule.t :=
  {| InsightRules.Rule.code := "custom";
     InsightRules.Rule.label := "Custom";
     InsightRules.Rule.applies := fun _ => Ok true;
     InsightRules.Rule.build_insight := fun _ =>
       Ok {| Insight.code := "custom"; Insight.label := "Custom";
             Insight.severity := info; Insight.action := Text.of_str "none";
             Insight.rationale := Text.of_str "none"; Insight.metrics := [] |} |}.

(** ** Automatic resolution *)

(** The header that the automatic matching takes for a canonical metric: the
    first header whose normalized form is one of the synonyms or the canonical
    name, as it is or once the spaces are removed from both; failing that, the
    first header whose normalized form starts with the normalized canonical
    name. *)
Definition synonym_header (canonical : string) (synonyms columns : list string)
    : option string :=
  List.find
    (fun header =>
       ColumnIdentifier.matches (synonyms ++ [canonical]) (ColumnIdentifier._normalize header))
    columns.

Definition prefix_header (canonical : string) (columns : list string) : option string :=
  List.find
    (fun header =>
       Str.startswith (ColumnIdentifier._normalize header)
         (ColumnIdentifier._normalize canonical))
    columns.

Definition auto_resolution (canonical : string) (synonyms columns : list string)
    : option string :=
  match synonym_header canonical synonyms columns with
  | Some header => Some header
  | None => prefix_header canonical columns
  end.

(** Every header that the dictionary of the resolver maps a metric to is one
    of [columns]. *)
Definition sources_among (columns : list string)
    (canonical_to_source : gmap string (option string)) : Prop :=
  forall k header, canonical_to_source !! k = Some (Some header) -> header ∈ columns.

(** ** Runs of the engine *)

(** A request whose first row has the headers of [one_row_request], followed
    by a row with other headers. *)
Definition two_row_request : InsightRequest.t :=
  {| InsightRequest.data :=
       [ [("Spend", VStr "n/a"); ("Purchases", VNone)]; [("Clicks", VInt 3)] ];
     InsightRequest.column_hints := None;
     InsightRequest.metadata := None |}.




Definition roas_request : InsightRequest.t :=
  {| InsightRequest.data := [ [("ROAS", VFloat 1.5)] ];
     InsightRequest.column_hints := None;
     InsightRequest.metadata := None |}.

(** The lines that open every prompt, and what the deterministic client
    writes before the prompt. *)
Definition prompt_opening : Text.t :=
  Text.of_str "You are the InsightAgent marketing strategist. Summarize insights for the growth team."
  ++ Text.newline
  ++ Text.of_str "Focus on actionable next steps and highlight crucial metrics."
  ++ Text.newline ++ Text.of_str "Key metrics:" ++ Text.newline.

Definition narrative_opening : Text.t :=
  Text.of_str "Automated insight summary:" ++ Text.newline.

(** * Properties *)

(** ** The result monad *)

Lemma bind_Ok {A B : Type} (a : A) (f : A -> result B) : (Ok a ≫= f) = f a.
Proof. reflexivity. Qed.

Lemma bind_Raise {A B : Type} (e : exn) (f : A -> result B) : (Raise e ≫= f) = Raise e.
Proof. reflexivity. Qed.

Lemma bind_Ok_inv {A B : Type} (m : result A) (f : A -> result B) (b : B) :
  (m ≫= f) = Ok b -> exists a, m = Ok a /\ f a = Ok b.
Proof. destruct m as [a|e]; [eauto | discriminate]. Qed.

Ltac unbind := unfold mbind, result_mbind, result_bind.

(** ** Binary64 facts *)

Section FloatFacts.

Local Open Scope float_scope.

Lemma is_finite_inv (x : float) :
  is_finite x = true -> is_nan x = false /\ is_infinity x = false.
Proof.
  unfold is_finite. intros H. apply negb_true_iff, orb_false_iff in H. exact H.
Qed.

Lemma is_nan_not_finite (x : float) : is_nan x = true -> is_finite x = false.
Proof. unfold is_finite. intros ->. reflexivity. Qed.

Lemma SFeqb_refl_not_nan (s : spec_float) : s <> S754_nan -> SFeqb s s = true.
Proof.
  unfold SFeqb. destruct s as [sg|sg| |sg m e]; simpl; try (destruct sg; reflexivity).
  - congruence.
  - intros _. rewrite Z.compare_refl.
    change (PosDef.Pos.compare_cont Eq m m) with (Pos.compare_cont Eq m m).
    rewrite Pos.compare_cont_refl. destruct sg; reflexivity.
Qed.

Lemma is_nan_spec (x : float) : is_nan x = true <-> Prim2SF x = S754_nan.
Proof.
  split.
  - intros H. unfold Prim2SF. rewrite H. reflexivity.
  - intros H. unfold is_nan. rewrite FloatAxioms.eqb_spec, H. reflexivity.
Qed.

Lemma not_nan_spec (x : float) : Prim2SF x <> S754_nan -> is_nan x = false.
Proof.
  intros H. unfold is_nan. rewrite FloatAxioms.eqb_spec, SFeqb_refl_not_nan by exact H. reflexivity.
Qed.

(** A finite float is a zero or has a mantissa and an exponent. *)
Lemma is_finite_spec (x : float) :
  is_finite x = true ->
  (exists s, Prim2SF x = S754_zero s) \/ (exists s m e, Prim2SF x = S754_finite s m e).
Proof.
  intros H. apply is_finite_inv in H as [Hn Hi].
  unfold Prim2SF. rewrite Hn, Hi.
  destruct (is_zero x); [left; eauto |].
  destruct (Z.frexp x) as [r ex].
  destruct (shr_fexp _ _ _ _ _) as [sh e'].
  destruct (shr_m sh); eauto.
Qed.

Lemma nonzero_finite_spec (x : float) :
  is_finite x = true -> (x =? 0) = false ->
  exists s m e, Prim2SF x = S754_finite s m e.
Proof.
  intros Hf Hz. destruct (is_finite_spec x Hf) as [[s Hs]|H]; [|exact H].
  rewrite FloatAxioms.eqb_spec, Hs in Hz. destruct s; discriminate Hz.
Qed.

Lemma shr_1_nonneg (mrs : shr_record) : (0 <= shr_m mrs)%Z -> (0 <= shr_m (shr_1 mrs))%Z.
Proof.
  destruct mrs as [m r s]. simpl.
  destruct m as [|p|p]; simpl; try lia; destruct p; simpl; lia.
Qed.

Lemma iter_shr_1_nonneg (p : positive) (mrs : shr_record) :
  (0 <= shr_m mrs)%Z -> (0 <= shr_m (SpecFloat.iter_pos shr_1 p mrs))%Z.
Proof.
  revert mrs. induction p as [p IH|p IH|]; intros mrs H; simpl.
  - apply IH, IH, shr_1_nonneg, H.
  - apply IH, IH, H.
  - apply shr_1_nonneg, H.
Qed.

Lemma shr_fexp_nonneg (m e : Z) (l : location) :
  (0 <= m)%Z -> (0 <= shr_m (fst (shr_fexp prec emax m e l)))%Z.
Proof.
  intros H. unfold shr_fexp, shr.
  assert (H0 : (0 <= shr_m (shr_record_of_loc m l))%Z).
  { destruct l as [|[]]; simpl; exact H. }
  destruct (_ - e)%Z; simpl; try exact H0.
  apply iter_shr_1_nonneg, H0.
Qed.

Lemma round_nearest_even_nonneg (m : Z) (l : location) :
  (0 <= m)%Z -> (0 <= round_nearest_even m l)%Z.
Proof.
  intros H. destruct l as [|[]]; simpl; try lia. destruct (Z.even m); lia.
Qed.

(** Rounding a non-negative mantissa never yields the not-a-number value. *)
Lemma binary_round_aux_not_nan (sx : bool) (mx ex : Z) (lx : location) :
  (0 <= mx)%Z -> binary_round_aux prec emax sx mx ex lx <> S754_nan.
Proof.
  intros H. unfold binary_round_aux.
  pose proof (shr_fexp_nonneg mx ex lx H) as H1.
  destruct (shr_fexp prec emax mx ex lx) as [mrs' e']. simpl in H1.
  pose proof (shr_fexp_nonneg _ e' loc_Exact
                (round_nearest_even_nonneg _ (loc_of_shr_record mrs') H1)) as H2.
  destruct (shr_fexp prec emax _ e' loc_Exact) as [mrs'' e'']. simpl in H2.
  destruct (shr_m mrs''); try lia; try discriminate.
  destruct (_ <=? _)%Z; discriminate.
Qed.

Lemma SFdiv_core_nonneg (m1 m2 : positive) (e1 e2 : Z) :
  (0 <= fst (fst (SFdiv_core_binary prec emax (Zpos m1) e1 (Zpos m2) e2)))%Z.
Proof.
  unfold SFdiv_core_binary.
  set (s := (_ - _ - _)%Z).
  set (m' := match s with Zpos _ => _ | Z0 => _ | Zneg _ => _ end).
  assert (Hm : (0 <= m')%Z).
  { subst m'. destruct s; try lia. apply Z.shiftl_nonneg. lia. }
  pose proof (Z.div_pos m' (Zpos m2) Hm ltac:(lia)) as Hq.
  unfold Z.div in Hq. destruct (Z.div_eucl m' (Zpos m2)) as [q r]. exact Hq.
Qed.

(** The quotient of a finite float by a finite float other than zero is a
    number: a zero, a finite value, or an infinity by overflow. *)
Lemma div_finite_not_nan (x y : float) :
  is_finite x = true -> is_finite y = true -> (y =? 0) = false ->
  is_nan (x / y) = false.
Proof.
  intros Hx Hy Hz. apply not_nan_spec. rewrite FloatAxioms.div_spec.
  destruct (nonzero_finite_spec y Hy Hz) as (sy & my & ey & ->).
  destruct (is_finite_spec x Hx) as [[sx ->]|(sx & mx & ex & ->)].
  - discriminate.
  - unfold SF64div, SFdiv.
    pose proof (SFdiv_core_nonneg mx my ex ey) as Hq.
    destruct (SFdiv_core_binary prec emax (Zpos mx) ex (Zpos my) ey) as [[mz ez] lz].
    apply binary_round_aux_not_nan. exact Hq.
Qed.

(** A float above 50 is not a zero, so it is true as a condition. *)
Lemma above_50_nonzero (x : float) : (50 <? x) = true -> (x =? 0) = false.
Proof.
  rewrite FloatAxioms.ltb_spec, FloatAxioms.eqb_spec.
  change (Prim2SF 0) with (S754_zero false).
  replace (Prim2SF 50) with (S754_finite false 7036874417766400 (-47)) by (vm_compute; reflexivity).
  destruct (Prim2SF x) as [s|s| |s m e]; try (destruct s; reflexivity || discriminate).
  discriminate.
Qed.

End FloatFacts.

(** ** The Metric Deriver *)

Section Ratios.

Import Metrics.
Local Open Scope float_scope.

Lemma is_valid_number_float (f : float) : _is_valid_number (VFloat f) = Ok (is_finite f).
Proof. reflexivity. Qed.

Lemma nan_is_nan_result : is_nan_result (Ok nan).
Proof. exists nan. repeat split. Qed.

Lemma get_Some (m : gmap string value) (k : string) (v : value) :
  m !! k = Some v -> get m k = v.
Proof. unfold get. intros ->. reflexivity. Qed.

Lemma get_None (m : gmap string value) (k : string) :
  m !! k = None -> get m k = VNone.
Proof. unfold get. intros ->. reflexivity. Qed.

Lemma compute_ratio_float (n d : float) :
  _compute_ratio (VFloat n) (VFloat d) =
  Ok (if is_finite n && is_finite d && negb (d =? 0) then n / d else nan).
Proof.
  unfold _compute_ratio. rewrite !is_valid_number_float. unbind. simpl.
  destruct (is_finite n); simpl; [|reflexivity].
  destruct (is_finite d); simpl; [|reflexivity].
  destruct (d =? 0); reflexivity.
Qed.

Lemma degenerate_test (n d : float) :
  degenerate n d -> is_finite n && is_finite d && negb (d =? 0) = false.
Proof.
  intros [H|[H|H]].
  - rewrite H. simpl. apply andb_false_r.
  - rewrite (is_nan_not_finite _ H). reflexivity.
  - rewrite (is_nan_not_finite _ H). apply andb_false_iff. left. apply andb_false_r.
Qed.

(** The fallback of [_compute_ctr], taken when the [ctr] entry is not valid. *)
Lemma compute_ctr_fallback (metrics : gmap string value) (n d : float) :
  _is_valid_number (get metrics "ctr") = Ok false ->
  metrics !! "clicks" = Some (VFloat n) ->
  metrics !! "impressions" = Some (VFloat d) ->
  _compute_ctr metrics =
  Ok (if is_finite n && is_finite d && negb (d =? 0) then n / d else nan).
Proof.
  intros Hc Hn Hd. unfold _compute_ctr.
  rewrite Hc, (get_Some _ _ _ Hn), (get_Some _ _ _ Hd), !is_valid_number_float.
  unbind. simpl.
  destruct (is_finite n); simpl; [|reflexivity].
  destruct (is_finite d); simpl; [|reflexivity].
  destruct (d =? 0); reflexivity.
Qed.

Lemma compute_ctr_delta_float (metrics : gmap string value) (n d : float) :
  current_ctr metrics n ->
  metrics !! "ctr_prev7" = Some (VFloat d) ->
  _compute_ctr_delta metrics =
  Ok (if is_finite n && is_finite d && negb (d =? 0) then (n - d) / d else nan).
Proof.
  intros Hcur Hd. unfold _compute_ctr_delta.
  rewrite (get_Some _ _ _ Hd).
  destruct Hcur as [[H7 Hf]|[H7 Hc]].
  - rewrite (get_Some _ _ _ H7), !is_valid_number_float, Hf. unbind. simpl.
    rewrite Hf. simpl.
    destruct (is_finite d); simpl; [|reflexivity].
    destruct (d =? 0); reflexivity.
  - rewrite H7, (get_Some _ _ _ Hc). unbind. simpl.
    destruct (is_finite n); simpl; [|reflexivity].
    destruct (is_finite d); simpl; [|reflexivity].
    destruct (d =? 0); reflexivity.
Qed.

(** C2: for every pair of floats given as numerator and denominator to a
    ratio computation of the Metric Deriver ([atc_to_purchase], the
    clicks/impressions fallback of [ctr], and [ctr_delta]), if the denominator
    is a zero or either operand is the not-a-number sentinel, the computation
    returns (it raises nothing) and its result is the sentinel, which is not
    an infinity. *)
Theorem ratio_of_degenerate_operands_is_nan (n d : float) :
  degenerate n d ->
  is_nan_result (_compute_ratio (VFloat n) (VFloat d))
  /\ (forall metrics : gmap string value,
        _is_valid_number (get metrics "ctr") = Ok false ->
        metrics !! "clicks" = Some (VFloat n) ->
        metrics !! "impressions" = Some (VFloat d) ->
        is_nan_result (_compute_ctr metrics))
  /\ (forall metrics : gmap string value,
        current_ctr metrics n ->
        metrics !! "ctr_prev7" = Some (VFloat d) ->
        is_nan_result (_compute_ctr_delta metrics)).
Proof.
  intros H. pose proof (degenerate_test n d H) as Ht. repeat split.
  - rewrite compute_ratio_float, Ht. apply nan_is_nan_result.
  - intros metrics Hc Hn Hd.
    rewrite (compute_ctr_fallback metrics n d Hc Hn Hd), Ht. apply nan_is_nan_result.
  - intros metrics Hcur Hd.
    rewrite (compute_ctr_delta_float metrics n d Hcur Hd), Ht. apply nan_is_nan_result.
Qed.

Lemma ratio_of_degenerate_operands_is_nan_witness :
  degenerate 3 0
  /\ is_nan_result (_compute_ratio (VFloat 3) (VFloat 0))
  /\ is_nan_result (_compute_ctr (<["clicks" := VFloat 3]> (<["impressions" := VFloat 0]> ∅)))
  /\ is_nan_result
       (_compute_ctr_delta (<["ctr_7d" := VFloat 3]> (<["ctr_prev7" := VFloat 0]> ∅))).
Proof.
  assert (H : degenerate 3 0) by (left; reflexivity).
  destruct (ratio_of_degenerate_operands_is_nan 3 0 H) as (H1 & H2 & H3).
  split; [exact H|]. split; [exact H1|]. split.
  - apply H2; reflexivity.
  - apply H3; [left; split; reflexivity | reflexivity].
Defined.

End Ratios.

Section Coercion.

Import Metrics.
Local Open Scope float_scope.

Lemma to_float_coerced (v : value) : float_range v -> _to_float v = Ok (coerced v).
Proof.
  intros H. destruct v as [|b|z|f|s|l|d]; simpl; try reflexivity.
  - unfold PyFloat.float_of_int.
    destruct (Z.ltb_spec (Z.abs z) PyFloat.int_overflow_bound) as [_|Hge]; [reflexivity|].
    specialize (H z eq_refl). lia.
  - destruct (PyFloat.float_of_str _); reflexivity.
Qed.

Lemma store_metric_in_range (mapping : ColumnMapping.t) (rec : record)
    (metrics : gmap string value) (canonical : string) :
  convertible mapping rec canonical ->
  store_metric mapping rec metrics canonical =
  Ok match ColumnMapping.resolve mapping canonical with
     | Some column => <[canonical := stored rec canonical column]> metrics
     | None => metrics
     end.
Proof.
  intros Hr. unfold store_metric, stored. unfold convertible in Hr.
  destruct (ColumnMapping.resolve mapping canonical) as [column|]; [|reflexivity].
  destruct (is_numeric_field canonical); [|reflexivity].
  rewrite (to_float_coerced _ (Hr column eq_refl eq_refl)). reflexivity.
Qed.

Lemma store_loop (mapping : ColumnMapping.t) (rec : record) (l : list string) :
  (forall c, c ∈ l -> convertible mapping rec c) ->
  forall m0 : gmap string value,
  exists m, foldlM (store_metric mapping rec) l m0 = Ok m
    /\ forall c, m !! c = if bool_decide (c ∈ l) then entry mapping rec c (m0 !! c)
                          else m0 !! c.
Proof.
  induction l as [|a l IH]; intros Hr m0.
  - exists m0. split; [reflexivity|]. intros c. reflexivity.
  - simpl. rewrite (store_metric_in_range _ _ _ _ (Hr a (list_elem_of_here _ _))).
    rewrite bind_Ok.
    destruct (IH (fun c Hc => Hr c (list_elem_of_further _ _ _ Hc))
                 (match ColumnMapping.resolve mapping a with
                  | Some column => <[a := stored rec a column]> m0
                  | None => m0 end)) as (m & Hm & Hl).
    exists m. split; [exact Hm|]. intros c. rewrite Hl. clear Hl Hm IH.
    unfold entry.
    destruct (decide (c = a)) as [->|Hne].
    + rewrite (bool_decide_eq_true_2 (a ∈ a :: l)) by (left).
      destruct (ColumnMapping.resolve mapping a) as [column|] eqn:Ha.
      * rewrite lookup_insert_eq. destruct (bool_decide (a ∈ l)); reflexivity.
      * destruct (bool_decide (a ∈ l)); reflexivity.
    + assert (Hio : bool_decide (c ∈ a :: l) = bool_decide (c ∈ l)).
      { apply bool_decide_ext. rewrite elem_of_cons. tauto. }
      rewrite Hio.
      assert (Hlk : (match ColumnMapping.resolve mapping a with
                     | Some column => <[a := stored rec a column]> m0
                     | None => m0 end) !! c = m0 !! c).
      { destruct (ColumnMapping.resolve mapping a); [|reflexivity].
        apply lookup_insert_ne. congruence. }
      rewrite Hlk. reflexivity.
Qed.

Lemma assoc_filter_keys {A : Type} (P : string * A -> bool) (l : list (string * A))
    (k : string) :
  NoDup (map fst l) ->
  k ∈ map fst (List.filter P l) <-> exists v, assoc k l = Some v /\ P (k, v) = true.
Proof.
  induction l as [|[k0 v0] l IH]; intros Hnd; simpl.
  - split; [intros H; inversion H | intros (v & H & _); discriminate].
  - apply NoDup_cons in Hnd as [Hk0 Hnd].
    destruct (String.eqb_spec k k0) as [->|Hne].
    + split.
      * intros H. exists v0. split; [reflexivity|].
        destruct (P (k0, v0)) eqn:HP; [reflexivity|].
        exfalso. apply Hk0. apply list_elem_of_fmap in H as ([k1 v1] & -> & H1).
        apply list_elem_of_In, filter_In in H1 as [H1 _].
        apply list_elem_of_fmap. exists (k1, v1). split; [reflexivity|].
        apply list_elem_of_In, H1.
      * intros (v & [= <-] & HP). rewrite HP. left.
    + rewrite <- (IH Hnd). destruct (P (k0, v0)); simpl; [|reflexivity].
      rewrite elem_of_cons. simpl. tauto.
Qed.

Lemma available_metrics_resolve (mapping : ColumnMapping.t) (canonical : string) :
  canonical ∈ ColumnMapping.available_metrics mapping <->
  exists column, ColumnMapping.resolve mapping canonical = Some column /\ column <> "".
Proof.
  unfold ColumnMapping.available_metrics, ColumnMapping.resolve.
  rewrite assoc_filter_keys.
  - split.
    + intros (v & -> & Hv). destruct v as [column|]; [|discriminate]. simpl in Hv.
      exists column. split; [reflexivity|]. intros ->. discriminate.
    + intros (column & H & Hne).
      destruct (assoc canonical (ColumnMapping.model_dump mapping)) as [v|]; [|discriminate].
      subst v. exists (Some column). split; [reflexivity|]. simpl.
      destruct (String.eqb_spec column ""); [contradiction | reflexivity].
  - simpl. refine (bool_decide_unpack _ _). vm_compute. exact I.
Qed.

End Coercion.
Section Synthetic.

Import Metrics.
Local Open Scope float_scope.

Lemma valid_entry (m : gmap string value) (k : string) :
  float_entry m k ->
  _is_valid_number (get m k) = Ok (match number m k with Some _ => true | None => false end).
Proof.
  unfold float_entry, number, get. intros [->|[f ->]]; simpl; [reflexivity|].
  destruct (is_finite f); reflexivity.
Qed.

Lemma number_float (m : gmap string value) (k : string) (f : float) :
  number m k = Some f -> py_float (get m k) = Ok f.
Proof.
  unfold number, get. destruct (m !! k) as [[]|]; try discriminate. simpl.
  destruct (is_finite _); [|discriminate]. intros [= ->]. reflexivity.
Qed.

Ltac next := rewrite ?bind_Ok; cbv beta iota.

Lemma compute_ctr_spec (m : gmap string value) :
  float_entry m "ctr" -> float_entry m "clicks" -> float_entry m "impressions" ->
  _compute_ctr m =
  Ok (ctr_as_specified (number m "ctr") (number m "clicks") (number m "impressions")).
Proof.
  intros Hc Hk Hi. unfold _compute_ctr, ctr_as_specified.
  rewrite (valid_entry _ _ Hc), (valid_entry _ _ Hk), (valid_entry _ _ Hi).
  destruct (number m "ctr") as [c|] eqn:Ec; next.
  { apply number_float, Ec. }
  destruct (number m "clicks") as [k|] eqn:Ek; next; simpl negb; next; [|reflexivity].
  destruct (number m "impressions") as [i|] eqn:Ei; next; simpl negb; next; [|reflexivity].
  rewrite (number_float _ _ _ Ei), (number_float _ _ _ Ek). next.
  destruct (i =? 0); reflexivity.
Qed.

Lemma compute_ratio_spec (m : gmap string value) (a b : string) :
  float_entry m a -> float_entry m b ->
  _compute_ratio (get m a) (get m b) =
  Ok (ratio_as_specified (number m a) (number m b)).
Proof.
  intros Ha Hb. unfold _compute_ratio, ratio_as_specified.
  rewrite (valid_entry _ _ Ha), (valid_entry _ _ Hb).
  destruct (number m a) as [n|] eqn:En; next; simpl negb; next; [|reflexivity].
  destruct (number m b) as [d|] eqn:Ed; next; simpl negb; next; [|reflexivity].
  rewrite (number_float _ _ _ Ed), (number_float _ _ _ En). next.
  destruct (d =? 0); reflexivity.
Qed.

Lemma compute_ctr_delta_spec (m : gmap string value) :
  float_entry m "ctr_7d" -> float_entry m "ctr" -> float_entry m "ctr_prev7" ->
  _compute_ctr_delta m =
  Ok (ctr_delta_as_specified (number m "ctr_7d") (number m "ctr") (number m "ctr_prev7")).
Proof.
  intros H7 Hc Hp. unfold _compute_ctr_delta, ctr_delta_as_specified.
  rewrite (valid_entry _ _ H7). next.
  destruct (number m "ctr_7d") as [c7|] eqn:E7; next.
  - rewrite (valid_entry _ _ H7), E7. next. simpl negb. next.
    rewrite (valid_entry _ _ Hp).
    destruct (number m "ctr_prev7") as [p|] eqn:Ep; next; simpl negb; next; [|reflexivity].
    rewrite (number_float _ _ _ Ep), (number_float _ _ _ E7). next.
    destruct (p =? 0); reflexivity.
  - rewrite (valid_entry _ _ Hc).
    destruct (number m "ctr") as [c|] eqn:Ec; next; simpl negb; next; [|reflexivity].
    rewrite (valid_entry _ _ Hp).
    destruct (number m "ctr_prev7") as [p|] eqn:Ep; next; simpl negb; next; [|reflexivity].
    rewrite (number_float _ _ _ Ep), (number_float _ _ _ Ec). next.
    destruct (p =? 0); reflexivity.
Qed.

Lemma float_entry_insert_ne (m : gmap string value) (k k' : string) (v : value) :
  k <> k' -> float_entry m k' -> float_entry (<[k := v]> m) k'.
Proof. unfold float_entry. intros Hne. rewrite lookup_insert_ne by exact Hne. tauto. Qed.

Lemma float_entry_insert_eq (m : gmap string value) (k : string) (f : float) :
  float_entry (<[k := VFloat f]> m) k.
Proof. right. exists f. apply lookup_insert_eq. Qed.

Lemma number_insert_ne (m : gmap string value) (k k' : string) (v : value) :
  k <> k' -> number (<[k := v]> m) k' = number m k'.
Proof. unfold number. intros Hne. rewrite lookup_insert_ne by exact Hne. reflexivity. Qed.

End Synthetic.
Section DerivedRow.

Import Metrics.
Local Open Scope float_scope.

Lemma coerced_entry_float (mapping : ColumnMapping.t) (rec : record)
    (metrics : gmap string value) (k : string) :
  (forall c, metrics !! c = coerced_entry mapping rec c) ->
  is_numeric_field k = true -> float_entry metrics k.
Proof.
  intros H Hk. unfold float_entry. rewrite H. unfold coerced_entry, entry, stored.
  destruct (bool_decide _); [|left; reflexivity].
  destruct (ColumnMapping.resolve mapping k); [|left; reflexivity].
  rewrite Hk. right. eauto.
Qed.

Lemma number_insert_eq (m : gmap string value) (k : string) (f : float) :
  number (<[k := VFloat f]> m) k = if is_finite f then Some f else None.
Proof. unfold number. rewrite lookup_insert_eq. reflexivity. Qed.

Lemma in_range_mapped (mapping : ColumnMapping.t) (rec : record) :
  record_in_float_range rec -> mapped_in_float_range mapping rec.
Proof. intros H canonical _ column _ _. apply H. Qed.

(** The derivation of a row whose mapped integers are in the float range
    returns, and the row is the one described by [coerced_entry] and
    [with_synthetic]. *)
Lemma derive_row_spec (mapping : ColumnMapping.t) (rec : record) :
  mapped_in_float_range mapping rec ->
  exists metrics,
    foldlM (store_metric mapping rec) (ColumnMapping.available_metrics mapping) ∅ = Ok metrics
    /\ (forall c, metrics !! c = coerced_entry mapping rec c)
    /\ derive_row mapping rec = Ok (with_synthetic metrics).
Proof.
  intros Hr.
  destruct (store_loop mapping rec (ColumnMapping.available_metrics mapping) Hr ∅)
    as (metrics & Hloop & Hlk).
  assert (Hce : forall c, metrics !! c = coerced_entry mapping rec c).
  { intros c. rewrite Hlk. unfold coerced_entry. rewrite lookup_empty. reflexivity. }
  exists metrics. split; [exact Hloop|]. split; [exact Hce|].
  assert (Hf : forall k, is_numeric_field k = true -> float_entry metrics k).
  { intros k. apply coerced_entry_float with (rec := rec) (mapping := mapping), Hce. }
  unfold derive_row, with_synthetic. rewrite Hloop, bind_Ok.
  rewrite compute_ctr_spec by (apply Hf; reflexivity). rewrite bind_Ok.
  cbv zeta.
  set (ctr := ctr_as_specified _ _ _).
  rewrite compute_ratio_spec
    by (apply float_entry_insert_ne; [discriminate | apply Hf; reflexivity]).
  rewrite bind_Ok, !(number_insert_ne _ "ctr") by discriminate.
  set (ratio := ratio_as_specified _ _).
  rewrite compute_ctr_delta_spec.
  - rewrite bind_Ok.
    rewrite !(number_insert_ne _ "atc_to_purchase") by discriminate.
    rewrite number_insert_eq, !(number_insert_ne _ "ctr") by discriminate.
    reflexivity.
  - do 2 (apply float_entry_insert_ne; [discriminate|]). apply Hf. reflexivity.
  - apply float_entry_insert_ne; [discriminate|]. apply float_entry_insert_eq.
  - do 2 (apply float_entry_insert_ne; [discriminate|]). apply Hf. reflexivity.
Qed.

Lemma to_float_returns (v : value) (f : float) : _to_float v = Ok f -> float_range v.
Proof.
  intros H z ->. simpl in H. unfold PyFloat.float_of_int in H.
  destruct (Z.ltb_spec (Z.abs z) PyFloat.int_overflow_bound) as [Hlt|_]; [exact Hlt|].
  discriminate.
Qed.

Lemma store_metric_returns (mapping : ColumnMapping.t) (rec : record)
    (metrics m : gmap string value) (canonical : string) :
  store_metric mapping rec metrics canonical = Ok m -> convertible mapping rec canonical.
Proof.
  unfold store_metric. intros H column Hres Hnum. rewrite Hres, Hnum in H.
  destruct (_to_float (record_get rec column)) as [f|e] eqn:E; [|discriminate].
  apply (to_float_returns _ f E).
Qed.

Lemma store_loop_returns (mapping : ColumnMapping.t) (rec : record) (l : list string) :
  forall m0 m : gmap string value,
    foldlM (store_metric mapping rec) l m0 = Ok m ->
    forall c, c ∈ l -> convertible mapping rec c.
Proof.
  induction l as [|a l IH]; intros m0 m H c Hc.
  - inversion Hc.
  - simpl in H.
    destruct (store_metric mapping rec m0 a) as [m1|e] eqn:E; [|discriminate].
    rewrite bind_Ok in H.
    apply elem_of_cons in Hc as [-> | Hc].
    + apply (store_metric_returns _ _ _ _ _ E).
    + apply (IH _ _ H _ Hc).
Qed.

(** Conversely, the derivation returns on no other record. *)
Lemma derive_row_returns (mapping : ColumnMapping.t) (rec : record) (row : gmap string value) :
  derive_row mapping rec = Ok row -> mapped_in_float_range mapping rec.
Proof.
  unfold derive_row. intros H.
  destruct (foldlM (store_metric mapping rec) (ColumnMapping.available_metrics mapping) ∅)
    as [m|e] eqn:E; [|discriminate].
  intros c Hc. apply (store_loop_returns _ _ _ _ _ E c Hc).
Qed.

Lemma with_synthetic_other (metrics : gmap string value) (k : string) :
  k <> "ctr" -> k <> "atc_to_purchase" -> k <> "ctr_delta" ->
  with_synthetic metrics !! k = metrics !! k.
Proof.
  intros H1 H2 H3. unfold with_synthetic.
  rewrite !lookup_insert_ne by congruence. reflexivity.
Qed.

(** The names of the canonical metrics are the keys of the mapping. *)
Lemma resolve_canonical (mapping : ColumnMapping.t) (canonical column : string) :
  ColumnMapping.resolve mapping canonical = Some column ->
  canonical ∈ map fst CANONICAL_COLUMNS.
Proof.
  unfold ColumnMapping.resolve. intros H.
  destruct (assoc canonical (ColumnMapping.model_dump mapping)) as [v|] eqn:E; [|discriminate].
  clear H. simpl in E.
  repeat (match type of E with
          | (if String.eqb ?a ?b then _ else _) = _ =>
              destruct (String.eqb_spec a b) as [->|_]; [set_solver|]
          end).
  discriminate.
Qed.

End DerivedRow.
Section CoercionClaim.

Import Metrics.
Local Open Scope float_scope.

(** C3, as amended: for every record whose mapped numeric fields hold no
    integer outside the float range (the records on which the loop returns),
    the per-row derivation returns, and for every mapped canonical metric the
    loop stores, when the metric is one of the eleven numeric fields, the
    float [coerced] of the raw value (a bool, an int or a float converted to a
    float; a string parsed after every percent sign is removed, not-a-number
    when it does not parse; anything else, [None] included, not-a-number) and
    otherwise the raw value unmodified; the derived row keeps these entries,
    except [ctr], over which the synthetic [ctr] is written. *)
Theorem derivation_coerces_mapped_metrics (mapping : ColumnMapping.t) (rec : record) :
  mapped_in_float_range mapping rec ->
  exists metrics,
    foldlM (store_metric mapping rec) (ColumnMapping.available_metrics mapping) ∅ = Ok metrics
    /\ derive_row mapping rec = Ok (with_synthetic metrics)
    /\ forall canonical column,
         canonical ∈ ColumnMapping.available_metrics mapping ->
         ColumnMapping.resolve mapping canonical = Some column ->
         (if is_numeric_field canonical
          then _to_float (record_get rec column) = Ok (coerced (record_get rec column))
               /\ metrics !! canonical = Some (VFloat (coerced (record_get rec column)))
          else metrics !! canonical = Some (record_get rec column))
         /\ (canonical <> "ctr" ->
             with_synthetic metrics !! canonical = metrics !! canonical).
Proof.
  intros Hr. destruct (derive_row_spec mapping rec Hr) as (metrics & Hloop & Hce & Hrow).
  exists metrics. split; [exact Hloop|]. split; [exact Hrow|].
  intros canonical column Hav Hres. split.
  - rewrite Hce. unfold coerced_entry, entry, stored.
    rewrite (bool_decide_eq_true_2 _ Hav), Hres.
    destruct (is_numeric_field canonical) eqn:Hnum; [|reflexivity].
    split; [|reflexivity]. apply to_float_coerced.
    exact (Hr canonical Hav column Hres Hnum).
  - intros Hne. apply with_synthetic_other; [exact Hne| |].
    + intros ->. apply resolve_canonical in Hres. revert Hres.
      refine (bool_decide_eq_false_1 _ _). vm_compute. reflexivity.
    + intros ->. apply resolve_canonical in Hres. revert Hres.
      refine (bool_decide_eq_false_1 _ _). vm_compute. reflexivity.
Qed.

Lemma sample_record_in_float_range : record_in_float_range sample_record.
Proof.
  intros column z. unfold record_get, sample_record. simpl.
  repeat (destruct (String.eqb column _); [discriminate|]). discriminate.
Qed.

Lemma derivation_coerces_mapped_metrics_witness :
  mapped_in_float_range sample_mapping sample_record
  /\ exists metrics,
       derive_row sample_mapping sample_record = Ok (with_synthetic metrics)
       /\ metrics !! "spend" = Some (VFloat 50)
       /\ metrics !! "status" = Some (VStr "keep").
Proof.
  split; [exact (in_range_mapped _ _ sample_record_in_float_range)|].
  destruct (derivation_coerces_mapped_metrics sample_mapping sample_record
              (in_range_mapped _ _ sample_record_in_float_range)) as (metrics & _ & Hrow & H).
  exists metrics. split; [exact Hrow|]. split.
  - destruct (H "spend" "Spend") as [[_ Hs] _].
    + apply available_metrics_resolve. exists "Spend". split; [reflexivity | discriminate].
    + reflexivity.
    + rewrite Hs. vm_compute. reflexivity.
  - destruct (H "status" "Status") as [Hs _].
    + apply available_metrics_resolve. exists "Status". split; [reflexivity | discriminate].
    + reflexivity.
    + exact Hs.
Defined.

(** C3, as the specification words it, fails on a percent sign that is not
    the last character: the code removes it and parses [50], where the
    specification keeps it and answers not-a-number. *)
Lemma coercion_as_specified_counterexample : ~ coercion_as_specified.
Proof.
  intros Hclaim.
  destruct (derive_row_spec sample_mapping sample_record
              (in_range_mapped _ _ sample_record_in_float_range))
    as (metrics & _ & Hce & Hrow).
  destruct (Hclaim sample_mapping sample_record "spend" "Spend" _ Hrow) as (f & Hf & Hlk).
  - apply available_metrics_resolve. exists "Spend". split; [reflexivity | discriminate].
  - reflexivity.
  - reflexivity.
  - discriminate.
  - rewrite with_synthetic_other, Hce in Hlk by discriminate.
    vm_compute in Hf. vm_compute in Hlk.
    assert (E : is_nan 50 = is_nan f) by congruence.
    assert (E' : is_nan f = true) by (injection Hf as <-; reflexivity).
    rewrite E' in E. vm_compute in E. discriminate E.
Qed.

End CoercionClaim.
Section SyntheticCtr.

Import Metrics.
Local Open Scope float_scope.

Lemma number_finite (m : gmap string value) (k : string) (f : float) :
  number m k = Some f -> is_finite f = true.
Proof.
  unfold number. destruct (m !! k) as [[]|]; try discriminate.
  destruct (is_finite _) eqn:E; [|discriminate]. intros [= <-]. exact E.
Qed.

Lemma positive_nonzero (x : float) : (0 <? x) = true -> (x =? 0) = false.
Proof.
  rewrite FloatAxioms.ltb_spec, FloatAxioms.eqb_spec.
  change (Prim2SF 0) with (S754_zero false).
  destruct (Prim2SF x) as [s|s| |s m e]; try (destruct s; reflexivity || discriminate).
  discriminate.
Qed.

Lemma number_unmapped (mapping : ColumnMapping.t) (rec : record)
    (metrics : gmap string value) (k : string) :
  (forall c, metrics !! c = coerced_entry mapping rec c) ->
  k ∉ ColumnMapping.available_metrics mapping -> number metrics k = None.
Proof.
  intros Hce Hk. unfold number. rewrite Hce. unfold coerced_entry.
  rewrite (bool_decide_eq_false_2 _ Hk). reflexivity.
Qed.

(** C4, as amended: for every record whose mapped numeric fields hold no
    integer outside the float range the derivation
    returns a row whose [ctr] is the coerced [ctr] value when that value is
    numerically valid, otherwise clicks/impressions when both are valid and
    impressions is not zero, otherwise the sentinel.  In particular, when
    clicks is valid and impressions is valid and above zero, [ctr] is present
    and is a number (not the sentinel); it is finite whenever the quotient
    clicks/impressions is, and it equals that quotient when the [ctr] value is
    not valid, which is the case when no column resolved for [ctr]. *)
Theorem synthetic_ctr_of_derived_row (mapping : ColumnMapping.t) (rec : record) :
  mapped_in_float_range mapping rec ->
  exists metrics,
    (forall c, metrics !! c = coerced_entry mapping rec c)
    /\ derive_row mapping rec = Ok (with_synthetic metrics)
    /\ with_synthetic metrics !! "ctr" =
         Some (VFloat (ctr_as_specified (number metrics "ctr") (number metrics "clicks")
                         (number metrics "impressions")))
    /\ ("ctr" ∉ ColumnMapping.available_metrics mapping -> number metrics "ctr" = None)
    /\ forall k i,
         number metrics "clicks" = Some k ->
         number metrics "impressions" = Some i -> (0 <? i) = true ->
         exists c, with_synthetic metrics !! "ctr" = Some (VFloat c)
                   /\ is_nan c = false
                   /\ (is_finite (k / i) = true -> is_finite c = true)
                   /\ (number metrics "ctr" = None -> c = k / i).
Proof.
  intros Hr. destruct (derive_row_spec mapping rec Hr) as (metrics & _ & Hce & Hrow).
  exists metrics. split; [exact Hce|]. split; [exact Hrow|].
  assert (Hctr : with_synthetic metrics !! "ctr" =
            Some (VFloat (ctr_as_specified (number metrics "ctr") (number metrics "clicks")
                            (number metrics "impressions")))).
  { unfold with_synthetic. rewrite !lookup_insert_ne by discriminate.
    apply lookup_insert_eq. }
  split; [exact Hctr|]. split.
  { apply number_unmapped with (rec := rec), Hce. }
  intros k i Hk Hi Hpos. rewrite Hctr, Hk, Hi.
  pose proof (positive_nonzero i Hpos) as Hnz.
  unfold ctr_as_specified. rewrite Hnz.
  destruct (number metrics "ctr") as [c0|] eqn:Ec.
  - exists c0. pose proof (number_finite _ _ _ Ec) as Hf.
    split; [reflexivity|]. split; [apply (is_finite_inv c0 Hf)|].
    split; [intros _; exact Hf | discriminate].
  - exists (k / i). split; [reflexivity|]. split.
    + apply div_finite_not_nan;
        [apply (number_finite _ _ _ Hk) | apply (number_finite _ _ _ Hi) | exact Hnz].
    + split; [tauto | reflexivity].
Qed.

Lemma clicks_record_in_float_range : record_in_float_range clicks_record.
Proof.
  intros column z. unfold record_get, clicks_record. simpl.
  repeat (destruct (String.eqb column _); [intros [= <-]; reflexivity|]). discriminate.
Qed.

Lemma synthetic_ctr_of_derived_row_witness :
  mapped_in_float_range overflow_mapping clicks_record
  /\ exists metrics,
       derive_row overflow_mapping clicks_record = Ok (with_synthetic metrics)
       /\ with_synthetic metrics !! "ctr" = Some (VFloat 0.025).
Proof.
  split; [exact (in_range_mapped _ _ clicks_record_in_float_range)|].
  destruct (synthetic_ctr_of_derived_row overflow_mapping clicks_record
              (in_range_mapped _ _ clicks_record_in_float_range)) as (metrics & Hce & Hrow & Hctr & _).
  exists metrics. split; [exact Hrow|]. rewrite Hctr.
  unfold number. rewrite !Hce. vm_compute. reflexivity.
Defined.

Lemma overflow_record_in_float_range : record_in_float_range overflow_record.
Proof.
  intros column z. unfold record_get, overflow_record. simpl.
  repeat (destruct (String.eqb column _); [discriminate|]). discriminate.
Qed.

(** C4, as the specification words it, fails when the quotient overflows:
    clicks [1e308] over impressions [0.5] is an infinity. *)
Lemma ctr_finite_as_specified_counterexample : ~ ctr_finite_as_specified.
Proof.
  intros Hclaim.
  destruct (derive_row_spec overflow_mapping overflow_record
              (in_range_mapped _ _ overflow_record_in_float_range))
    as (metrics & _ & Hce & Hrow).
  destruct (Hclaim overflow_mapping overflow_record _ 1e308 0.5 Hrow) as (c & Hc & Hfin).
  - rewrite with_synthetic_other, Hce by discriminate. vm_compute. reflexivity.
  - reflexivity.
  - rewrite with_synthetic_other, Hce by discriminate. vm_compute. reflexivity.
  - reflexivity.
  - unfold with_synthetic in Hc. rewrite !lookup_insert_ne in Hc by discriminate.
    rewrite lookup_insert_eq in Hc. unfold number in Hc. rewrite !Hce in Hc.
    vm_compute in Hc.
    assert (E : is_finite c = false) by (injection Hc as <-; reflexivity).
    rewrite E in Hfin. discriminate Hfin.
Qed.

End SyntheticCtr.

Section Aggregation.

Import Metrics.
Local Open Scope float_scope.

Lemma add_total_spec (row : gmap string value) (a : acc) (f : string) :
  float_entry row f ->
  add_total row a f = Ok (bump_at (total_key f) (number row f) false a).
Proof.
  intros Hf. unfold add_total, bump_at. rewrite (valid_entry _ _ Hf).
  destruct (number row f) as [x|] eqn:E; rewrite bind_Ok; cbv beta iota.
  - rewrite (number_float _ _ _ E), bind_Ok. reflexivity.
  - reflexivity.
Qed.

Lemma add_average_spec (row : gmap string value) (a : acc) (f : string) :
  float_entry row f ->
  add_average row a f = Ok (bump_at (avg_key f) (number row f) true a).
Proof.
  intros Hf. unfold add_average, bump_at. rewrite (valid_entry _ _ Hf).
  destruct (number row f) as [x|] eqn:E; rewrite bind_Ok; cbv beta iota.
  - rewrite (number_float _ _ _ E), bind_Ok. reflexivity.
  - reflexivity.
Qed.

(** A loop whose body never raises is a fold. *)
Lemma foldlM_pure {A B : Type} (f : B -> A -> result B) (g : B -> A -> B) (l : list A) :
  (forall b a, a ∈ l -> f b a = Ok (g b a)) ->
  forall b, foldlM f l b = Ok (fold_left g l b).
Proof.
  induction l as [|a l IH]; intros H b; [reflexivity|].
  simpl. rewrite H by left. rewrite bind_Ok. apply IH.
  intros b' a' Ha'. apply H. right. exact Ha'.
Qed.

Lemma aggregate_row_spec (a : acc) (row : gmap string value) :
  aggregable row -> aggregate_row a row = Ok (bump_row a row).
Proof.
  intros Hrow. unfold aggregate_row, bump_row.
  rewrite (foldlM_pure (add_total row)
             (fun a f => bump_at (total_key f) (number row f) false a)).
  - rewrite bind_Ok. apply foldlM_pure.
    intros b f Hf. apply add_average_spec, Hrow, elem_of_app. right. exact Hf.
  - intros b f Hf. apply add_total_spec, Hrow, elem_of_app. left. exact Hf.
Qed.

Lemma rows_loop_spec (rows : list (gmap string value)) (a : acc) :
  (forall row, row ∈ rows -> aggregable row) ->
  foldlM aggregate_row rows a = Ok (fold_left bump_row rows a).
Proof.
  intros H. apply foldlM_pure. intros b row Hrow. apply aggregate_row_spec, H, Hrow.
Qed.

Lemma bump_at_sums (key : string) (v : option float) (c : bool) (a : acc) (k : string) :
  (bump_at key v c a).1 !! k =
  if String.eqb k key then add_opt (a.1 !! k) v else a.1 !! k.
Proof.
  unfold bump_at, add_opt. destruct v as [x|]; simpl.
  - destruct (String.eqb_spec k key) as [->|Hne].
    + apply lookup_insert_eq.
    + apply lookup_insert_ne. congruence.
  - destruct (String.eqb k key); reflexivity.
Qed.

Lemma bump_at_counts (key : string) (v : option float) (c : bool) (a : acc) (k : string) :
  (bump_at key v c a).2 !! k =
  if c && String.eqb k key then count_opt (a.2 !! k) v else a.2 !! k.
Proof.
  unfold bump_at, count_opt. destruct v as [x|]; simpl.
  - destruct c; simpl; [|reflexivity].
    destruct (String.eqb_spec k key) as [->|Hne].
    + apply lookup_insert_eq.
    + apply lookup_insert_ne. congruence.
  - destruct (c && String.eqb k key); reflexivity.
Qed.

Lemma find_key_fresh (kf : string -> string) (fields : list string) (g : string) :
  kf g ∉ map kf fields ->
  List.find (fun f => String.eqb (kf g) (kf f)) fields = None.
Proof.
  induction fields as [|f fs IH]; intros H; [reflexivity|]. simpl.
  destruct (String.eqb_spec (kf g) (kf f)) as [E|_].
  - exfalso. apply H. rewrite E. left.
  - apply IH. intros Hin. apply H. right. exact Hin.
Qed.

Section FieldLoop.

Variable kf : string -> string.
Variable nums : string -> option float.
Variable counting : bool.

Let loop (fields : list string) (a : acc) : acc :=
  fold_left (fun a f => bump_at (kf f) (nums f) counting a) fields a.

Lemma field_loop_sums (fields : list string) (a : acc) (k : string) :
  NoDup (map kf fields) ->
  (loop fields a).1 !! k =
  match List.find (fun f => String.eqb k (kf f)) fields with
  | Some f => add_opt (a.1 !! k) (nums f)
  | None => a.1 !! k
  end.
Proof.
  revert a. induction fields as [|g fs IH]; intros a Hnd; [reflexivity|].
  simpl in Hnd. apply NoDup_cons in Hnd as [Hg Hnd].
  unfold loop in *. simpl. rewrite (IH _ Hnd), bump_at_sums.
  destruct (String.eqb_spec k (kf g)) as [->|Hne]; [|reflexivity].
  rewrite (find_key_fresh kf fs g Hg). reflexivity.
Qed.

Lemma field_loop_counts (fields : list string) (a : acc) (k : string) :
  NoDup (map kf fields) ->
  (loop fields a).2 !! k =
  match List.find (fun f => String.eqb k (kf f)) fields with
  | Some f => if counting then count_opt (a.2 !! k) (nums f) else a.2 !! k
  | None => a.2 !! k
  end.
Proof.
  revert a. induction fields as [|g fs IH]; intros a Hnd; [reflexivity|].
  simpl in Hnd. apply NoDup_cons in Hnd as [Hg Hnd].
  unfold loop in *. simpl. rewrite (IH _ Hnd), bump_at_counts.
  destruct (String.eqb_spec k (kf g)) as [->|Hne].
  - rewrite (find_key_fresh kf fs g Hg), andb_true_r. reflexivity.
  - rewrite andb_false_r. reflexivity.
Qed.

End FieldLoop.

Lemma total_keys_distinct : NoDup (map total_key total_fields).
Proof. refine (bool_decide_unpack _ _). vm_compute. exact I. Qed.

Lemma avg_keys_distinct : NoDup (map avg_key average_fields).
Proof. refine (bool_decide_unpack _ _). vm_compute. exact I. Qed.

Lemma totalled_not_averaged (k f : string) : totalled k = Some f -> averaged k = None.
Proof.
  unfold totalled, averaged. intros H. apply find_some in H as [_ H].
  apply String.eqb_eq in H. subst k.
  destruct (List.find _ average_fields) as [g|] eqn:E; [|reflexivity].
  apply find_some in E as [_ E]. apply String.eqb_eq in E. discriminate E.
Qed.

Lemma bump_row_sums (a : acc) (row : gmap string value) (k : string) :
  (bump_row a row).1 !! k = add_opt (a.1 !! k) (contribution k row).
Proof.
  unfold bump_row.
  rewrite (field_loop_sums avg_key (number row) true) by exact avg_keys_distinct.
  rewrite (field_loop_sums total_key (number row) false) by exact total_keys_distinct.
  unfold contribution. fold (totalled k). fold (averaged k).
  destruct (totalled k) as [f|] eqn:Et.
  - rewrite (totalled_not_averaged _ _ Et). reflexivity.
  - destruct (averaged k); reflexivity.
Qed.

Lemma bump_row_counts (a : acc) (row : gmap string value) (k : string) :
  (bump_row a row).2 !! k =
  match averaged k with
  | Some f => count_opt (a.2 !! k) (number row f)
  | None => a.2 !! k
  end.
Proof.
  unfold bump_row.
  rewrite (field_loop_counts avg_key (number row) true) by exact avg_keys_distinct.
  rewrite (field_loop_counts total_key (number row) false) by exact total_keys_distinct.
  fold (totalled k). fold (averaged k).
  destruct (totalled k); destruct (averaged k); reflexivity.
Qed.

Lemma rows_sums (rows : list (gmap string value)) (a : acc) (k : string) :
  (fold_left bump_row rows a).1 !! k =
  fold_left (fun o row => add_opt o (contribution k row)) rows (a.1 !! k).
Proof.
  revert a. induction rows as [|row rows IH]; intros a; [reflexivity|].
  simpl. rewrite IH, bump_row_sums. reflexivity.
Qed.

Lemma rows_counts (rows : list (gmap string value)) (a : acc) (k : string) :
  (fold_left bump_row rows a).2 !! k =
  match averaged k with
  | Some f => fold_left (fun o row => count_opt o (number row f)) rows (a.2 !! k)
  | None => a.2 !! k
  end.
Proof.
  revert a. induction rows as [|row rows IH]; intros a.
  - simpl. destruct (averaged k); reflexivity.
  - simpl. rewrite IH, bump_row_counts. destruct (averaged k); reflexivity.
Qed.

Lemma fold_add_opt_some (vs : list float) (s : float) :
  fold_left add_opt (map Some vs) (Some s) = Some (fold_left (fun s v => s + v) vs s).
Proof. revert s. induction vs as [|v vs IH]; intros s; [reflexivity|]. simpl. apply IH. Qed.

Lemma fold_add_opt (c : gmap string value -> option float) (rows : list (gmap string value)) :
  fold_left (fun o row => add_opt o (c row)) rows None = sum_opt (omap c rows).
Proof.
  assert (G : forall o, fold_left (fun o row => add_opt o (c row)) rows o =
                        fold_left add_opt (map Some (omap c rows)) o).
  { induction rows as [|row rows IH]; intros o; [reflexivity|]. simpl.
    destruct (c row) as [x|]; simpl; apply IH. }
  rewrite G. destruct (omap c rows) as [|v vs]; [reflexivity|].
  simpl. apply fold_add_opt_some.
Qed.

Lemma fold_count_opt_some (vs : list float) (n : Z) :
  fold_left count_opt (map Some vs) (Some n) = Some (n + Z.of_nat (length vs))%Z.
Proof.
  revert n. induction vs as [|v vs IH]; intros n.
  - simpl. f_equal. lia.
  - cbn [map fold_left length]. simpl count_opt. rewrite IH. f_equal. lia.
Qed.

Lemma fold_count_opt (c : gmap string value -> option float) (rows : list (gmap string value)) :
  fold_left (fun o row => count_opt o (c row)) rows None = length_opt (omap c rows).
Proof.
  assert (G : forall o, fold_left (fun o row => count_opt o (c row)) rows o =
                        fold_left count_opt (map Some (omap c rows)) o).
  { induction rows as [|row rows IH]; intros o; [reflexivity|]. simpl.
    destruct (c row) as [x|]; simpl; apply IH. }
  rewrite G. destruct (omap c rows) as [|v vs]; [reflexivity|].
  cbn [map fold_left]. simpl count_opt. rewrite fold_count_opt_some.
  unfold length_opt. f_equal. cbn [length]. lia.
Qed.

Lemma divide_loop (sums : gmap string float) (counts : gmap string Z) :
  (forall k c, counts !! k = Some c ->
     (0 < c < PyFloat.int_overflow_bound)%Z /\ is_Some (sums !! k)) ->
  exists agg,
    map_fold divide_by_count (Ok sums) counts = Ok agg
    /\ forall k, agg !! k =
         match counts !! k with
         | Some c => (fun t => t / PyFloat.of_Z c) <$> sums !! k
         | None => sums !! k
         end.
Proof.
  apply (map_fold_weak_ind
    (fun r (m : gmap string Z) =>
       (forall k c, m !! k = Some c ->
          (0 < c < PyFloat.int_overflow_bound)%Z /\ is_Some (sums !! k)) ->
       exists agg, r = Ok agg
         /\ forall k, agg !! k =
              match m !! k with
              | Some c => (fun t => t / PyFloat.of_Z c) <$> sums !! k
              | None => sums !! k
              end)).
  - intros _. exists sums. split; [reflexivity|]. intros k. rewrite lookup_empty. reflexivity.
  - intros i x m r Hi IH H.
    destruct IH as (agg & -> & Hagg).
    { intros k c Hk. apply H. rewrite lookup_insert_ne; [exact Hk|]. congruence. }
    destruct (H i x (lookup_insert_eq _ _ _)) as [[Hpos Hlt] [t Ht]].
    unfold divide_by_count. rewrite bind_Ok.
    replace (x =? 0)%Z with false by (symmetry; apply Z.eqb_neq; lia).
    cbv beta iota. simpl negb. cbv iota.
    rewrite Hagg, Hi, Ht.
    unfold PyFloat.float_of_int.
    replace (Z.abs x <? PyFloat.int_overflow_bound)%Z with true
      by (symmetry; apply Z.ltb_lt; lia).
    rewrite bind_Ok. eexists. split; [reflexivity|].
    intros k. destruct (decide (k = i)) as [->|Hne].
    + rewrite !lookup_insert_eq, Ht. reflexivity.
    + rewrite !lookup_insert_ne by congruence. apply Hagg.
Qed.

Lemma totalled_total_key (f : string) :
  f ∈ total_fields -> totalled (total_key f) = Some f /\ averaged (total_key f) = None.
Proof.
  intros H. unfold total_fields in H.
  repeat (apply elem_of_cons in H as [->|H]; [split; reflexivity|]).
  inversion H.
Qed.

Lemma averaged_avg_key (f : string) :
  f ∈ average_fields -> totalled (avg_key f) = None /\ averaged (avg_key f) = Some f.
Proof.
  intros H. unfold average_fields in H.
  repeat (apply elem_of_cons in H as [->|H]; [split; reflexivity|]).
  inversion H.
Qed.

Lemma omap_length_le {A B : Type} (c : A -> option B) (l : list A) :
  (length (omap c l) <= length l)%nat.
Proof.
  induction l as [|a l IH]; [reflexivity|].
  change (omap c (a :: l)) with (match c a with Some y => y :: omap c l | None => omap c l end).
  destruct (c a); cbn [length]; lia.
Qed.

Lemma sum_opt_contribution (k f : string) (rows : list (gmap string value)) :
  contribution k = (fun row => number row f) ->
  fold_left (fun o row => add_opt o (contribution k row)) rows None =
  sum_opt (valid_values f rows).
Proof. intros E. rewrite fold_add_opt, E. reflexivity. Qed.

(** The aggregation totals the six fields and averages the seven fields that
    the specification lists, and no other. *)
Lemma total_fields_listed (f : string) :
  f ∈ total_fields <-> f ∈ total_fields_as_specified.
Proof.
  unfold total_fields, total_fields_as_specified.
  split; intros H;
    repeat (apply elem_of_cons in H as [->|H]; [apply list_elem_of_In; simpl; tauto|]);
    inversion H.
Qed.

Lemma average_fields_listed (f : string) :
  f ∈ average_fields <-> f ∈ average_fields_as_specified.
Proof.
  unfold average_fields, average_fields_as_specified.
  split; intros H;
    repeat (apply elem_of_cons in H as [->|H]; [apply list_elem_of_In; simpl; tauto|]);
    inversion H.
Qed.

(** C5: for every sequence of rows whose aggregated fields hold floats, the
    aggregation returns a summary in which [total_<field>], for each of the
    six total fields, is the sum of the numerically valid values of the field
    across the rows and [avg_<field>], for each of the seven average fields,
    is their arithmetic mean; the key is absent when no row contributes a
    valid value, so that no mean divides by a zero count. *)
Theorem aggregate_totals_and_averages (rows : list (gmap string value)) :
  (forall row, row ∈ rows -> aggregable row) ->
  (Z.of_nat (length rows) < PyFloat.int_overflow_bound)%Z ->
  exists agg,
    _aggregate rows = Ok agg
    /\ (forall f, f ∈ total_fields_as_specified ->
          agg !! total_key f =
          match valid_values f rows with
          | [] => None
          | _ :: _ => Some (float_sum (valid_values f rows))
          end)
    /\ (forall f, f ∈ average_fields_as_specified ->
          agg !! avg_key f =
          match valid_values f rows with
          | [] => None
          | _ :: _ => Some (float_mean (valid_values f rows))
          end).
Proof.
  intros Hrows Hlen. unfold _aggregate.
  rewrite (rows_loop_spec rows _ Hrows), bind_Ok.
  set (a := fold_left bump_row rows (∅, ∅)).
  assert (Hsums : forall k, a.1 !! k =
            fold_left (fun o row => add_opt o (contribution k row)) rows None).
  { intros k. unfold a. rewrite rows_sums. reflexivity. }
  assert (Hcounts : forall k, a.2 !! k =
            match averaged k with
            | Some f => length_opt (valid_values f rows)
            | None => None
            end).
  { intros k. unfold a. rewrite rows_counts.
    destruct (averaged k); [apply fold_count_opt | reflexivity]. }
  assert (Havg : forall k f, averaged k = Some f ->
            a.1 !! k = sum_opt (valid_values f rows)).
  { intros k f Hk. rewrite Hsums. apply sum_opt_contribution.
    unfold contribution.
    destruct (totalled k) as [g|] eqn:Et.
    - rewrite (totalled_not_averaged _ _ Et) in Hk. discriminate Hk.
    - rewrite Hk. reflexivity. }
  destruct (divide_loop a.1 a.2) as (agg & Hagg & Hlk).
  { intros k c Hk. rewrite Hcounts in Hk.
    destruct (averaged k) as [f|] eqn:Ea; [|discriminate Hk].
    rewrite (Havg k f Ea). unfold valid_values in *.
    pose proof (omap_length_le (fun row => number row f) rows) as Hle.
    destruct (omap _ rows) as [|v vs]; [discriminate Hk|].
    injection Hk as <-. split; [|eexists; reflexivity].
    cbn [length] in *. lia. }
  exists agg. split; [exact Hagg|]. split.
  - intros f Hf. destruct (totalled_total_key f (proj2 (total_fields_listed f) Hf)) as [Ht Ha].
    rewrite Hlk, Hcounts, Ha, Hsums.
    rewrite (sum_opt_contribution _ f).
    + reflexivity.
    + unfold contribution. rewrite Ht. reflexivity.
  - intros f Hf. destruct (averaged_avg_key f (proj2 (average_fields_listed f) Hf)) as [Ht Ha].
    rewrite Hlk, Hcounts, Ha, (Havg _ f Ha).
    unfold length_opt, sum_opt, float_mean.
    destruct (valid_values f rows); reflexivity.
Qed.

Lemma sample_rows_aggregable : forall row, row ∈ sample_rows -> aggregable row.
Proof.
  intros row Hrow f Hf. unfold sample_rows in Hrow.
  unfold total_fields, average_fields in Hf. simpl in Hf.
  repeat (apply elem_of_cons in Hrow as [->|Hrow]);
    [| | | inversion Hrow];
    repeat (apply elem_of_cons in Hf as [->|Hf]);
    try (inversion Hf; fail);
    unfold float_entry;
    first [ left; vm_compute; reflexivity | right; eexists; vm_compute; reflexivity ].
Qed.

Ltac pick_elem := apply list_elem_of_In; simpl; tauto.

Lemma aggregate_totals_and_averages_witness :
  (forall row, row ∈ sample_rows -> aggregable row)
  /\ (Z.of_nat (length sample_rows) < PyFloat.int_overflow_bound)%Z
  /\ exists agg,
       _aggregate sample_rows = Ok agg
       /\ map (fun f => agg !! total_key f) total_fields_as_specified
          = [Some 290; None; None; Some 3; None; None]
       /\ map (fun f => agg !! avg_key f) average_fields_as_specified
          = [None; None; Some 1.2; None; None; None; None].
Proof.
  assert (Hlen : (Z.of_nat (length sample_rows) < PyFloat.int_overflow_bound)%Z)
    by reflexivity.
  split; [exact sample_rows_aggregable|]. split; [exact Hlen|].
  destruct (aggregate_totals_and_averages sample_rows sample_rows_aggregable Hlen)
    as (agg & Hagg & Htot & Havg).
  exists agg. split; [exact Hagg|]. split.
  - unfold total_fields_as_specified. cbn [map].
    rewrite !Htot by (unfold total_fields_as_specified; pick_elem).
    vm_compute. reflexivity.
  - unfold average_fields_as_specified. cbn [map].
    rewrite !Havg by (unfold average_fields_as_specified; pick_elem).
    vm_compute. reflexivity.
Defined.

End Aggregation.

(** ** The summaries of the Metric Deriver *)

Section DerivedSummaries.

Import Metrics.

Lemma store_metric_float_entries (mapping : ColumnMapping.t) (rec : record)
    (m m' : gmap string value) (canonical : string) :
  store_metric mapping rec m canonical = Ok m' ->
  (forall k, is_numeric_field k = true -> float_entry m k) ->
  forall k, is_numeric_field k = true -> float_entry m' k.
Proof.
  unfold store_metric. intros H Hm k Hk.
  destruct (ColumnMapping.resolve mapping canonical) as [column|].
  - destruct (is_numeric_field canonical) eqn:Hc.
    + apply bind_Ok_inv in H as (f & _ & [= <-]).
      destruct (decide (canonical = k)) as [->|Hne].
      * apply float_entry_insert_eq.
      * apply float_entry_insert_ne; [exact Hne | apply Hm, Hk].
    + injection H as <-. apply float_entry_insert_ne; [|apply Hm, Hk].
      intros ->. congruence.
  - injection H as <-. apply Hm, Hk.
Qed.

Lemma store_loop_float_entries (mapping : ColumnMapping.t) (rec : record)
    (l : list string) (m m' : gmap string value) :
  foldlM (store_metric mapping rec) l m = Ok m' ->
  (forall k, is_numeric_field k = true -> float_entry m k) ->
  forall k, is_numeric_field k = true -> float_entry m' k.
Proof.
  revert m. induction l as [|c l IH]; intros m H Hm.
  - injection H as <-. exact Hm.
  - cbn [foldlM] in H. apply bind_Ok_inv in H as (m1 & H1 & H2).
    apply (IH m1 H2). apply (store_metric_float_entries _ _ _ _ _ H1 Hm).
Qed.

(** Every row that the derivation returns holds floats at the fields that
    the aggregation and the spend rule read. *)
Lemma derived_row_entries (mapping : ColumnMapping.t) (rec : record)
    (row : gmap string value) :
  derive_row mapping rec = Ok row -> aggregable row /\ rule_safe row.
Proof.
  unfold derive_row. intros H.
  apply bind_Ok_inv in H as (metrics & Hloop & H).
  apply bind_Ok_inv in H as (ctr & _ & H).
  apply bind_Ok_inv in H as (ratio & _ & H).
  apply bind_Ok_inv in H as (delta & _ & [= <-]).
  assert (Hm : forall k, is_numeric_field k = true -> float_entry metrics k).
  { apply (store_loop_float_entries _ _ _ _ _ Hloop). intros k _. left. apply lookup_empty. }
  assert (Hrow : forall k, is_numeric_field k = true \/ k = "ctr"
                           \/ k = "atc_to_purchase" \/ k = "ctr_delta" ->
            float_entry (<["ctr_delta" := VFloat delta]>
                           (<["atc_to_purchase" := VFloat ratio]>
                              (<["ctr" := VFloat ctr]> metrics))) k).
  { intros k Hk. unfold float_entry.
    destruct (decide ("ctr_delta" = k)) as [<- | N1]; [rewrite lookup_insert_eq; eauto|].
    rewrite lookup_insert_ne by exact N1.
    destruct (decide ("atc_to_purchase" = k)) as [<- | N2]; [rewrite lookup_insert_eq; eauto|].
    rewrite lookup_insert_ne by exact N2.
    destruct (decide ("ctr" = k)) as [<- | N3]; [rewrite lookup_insert_eq; eauto|].
    rewrite lookup_insert_ne by exact N3.
    destruct Hk as [Hk | [-> | [-> | ->]]]; try congruence. apply Hm, Hk. }
  split.
  - intros f Hf. apply Hrow. unfold total_fields, average_fields in Hf. cbn [app] in Hf.
    repeat (apply elem_of_cons in Hf as [-> | Hf]);
      [.. | inversion Hf]; first [ left; reflexivity | tauto ].
  - split; apply Hrow; left; reflexivity.
Qed.

Lemma mapM_result_elem {A B : Type} (f : A -> result B) (l : list A) (bs : list B) (b : B) :
  mapM_result f l = Ok bs -> b ∈ bs -> exists a, a ∈ l /\ f a = Ok b.
Proof.
  revert bs. induction l as [|a l IH]; intros bs H Hb.
  - injection H as <-. inversion Hb.
  - cbn [mapM_result] in H. apply bind_Ok_inv in H as (b0 & Hb0 & H).
    apply bind_Ok_inv in H as (bs0 & Hbs0 & [= <-]).
    apply elem_of_cons in Hb as [->|Hb].
    + exists a. split; [left | exact Hb0].
    + destruct (IH bs0 Hbs0 Hb) as (a' & Ha' & Hf). exists a'. split; [right|]; assumption.
Qed.

(** The rows of a summary of the Metric Deriver satisfy what the theorems on
    the aggregation and on the rules ask of rows. *)
Lemma calculator_rows (records : list record) (mapping : ColumnMapping.t)
    (s : MetricSummary) :
  MetricCalculator records mapping = Ok s ->
  forall row, row ∈ per_row s -> aggregable row /\ rule_safe row.
Proof.
  unfold MetricCalculator, _derive_row_metrics. intros H row Hrow.
  apply bind_Ok_inv in H as (rows & Hrows & H).
  apply bind_Ok_inv in H as (agg & _ & [= <-]). cbn [per_row] in Hrow.
  destruct (mapM_result_elem _ _ _ _ Hrows Hrow) as (rec & _ & Hrec).
  apply (derived_row_entries mapping rec row Hrec).
Qed.

End DerivedSummaries.

(** ** The Rule Engine *)

Section Rules.

Import Metrics InsightRules.
Local Open Scope float_scope.

(** A float at or above a positive constant is not a zero. *)
Lemma above_positive_nonzero (t x : float) (m : positive) (e : Z) :
  Prim2SF t = S754_finite false m e ->
  (t <=? x) = true -> (x =? 0) = false.
Proof.
  intros Ht. rewrite FloatAxioms.leb_spec, FloatAxioms.eqb_spec, Ht.
  change (Prim2SF 0) with (S754_zero false).
  destruct (Prim2SF x) as [s|s| |s m' e']; try (destruct s; reflexivity || discriminate).
  discriminate.
Qed.

Lemma offending_spec (row : gmap string value) :
  rule_safe row -> offending row = Ok (offends row).
Proof.
  intros [Hs Hp]. unfold offending, offends, get.
  destruct Hs as [->|[spend ->]]; [reflexivity|]. simpl.
  destruct (50 <? spend) eqn:E.
  - rewrite (above_50_nonzero _ E). simpl.
    destruct Hp as [->|[purchases ->]]; [reflexivity|]. simpl.
    destruct (purchases =? 0); reflexivity.
  - destruct (negb (spend =? 0)); reflexivity.
Qed.

Lemma any_offending_spec (rows : list (gmap string value)) :
  (forall row, row ∈ rows -> rule_safe row) ->
  any_offending rows = Ok (existsb offends rows).
Proof.
  induction rows as [|row rows IH]; intros H; [reflexivity|]. simpl.
  rewrite offending_spec by (apply H; left). rewrite bind_Ok.
  destruct (offends row); [reflexivity|].
  apply IH. intros r Hr. apply H. right. exact Hr.
Qed.

Lemma offender_spec (row : gmap string value) : offender row = offender_evidence row.
Proof. reflexivity. Qed.

Lemma offenders_spec (rows : list (gmap string value)) :
  (forall row, row ∈ rows -> rule_safe row) ->
  offenders rows = Ok (map offender_evidence (List.filter offends rows)).
Proof.
  induction rows as [|row rows IH]; intros H; [reflexivity|]. simpl.
  rewrite offending_spec by (apply H; left). rewrite bind_Ok.
  rewrite IH by (intros r Hr; apply H; right; exact Hr). rewrite bind_Ok.
  destruct (offends row); reflexivity.
Qed.

(** The loop of [__call__] when no rule raises. *)
Lemma call_loop (ctx : RuleContext) (rules : list Rule.t) (insights : list Insight.t) :
  (forall rule, rule ∈ rules ->
     is_ok (Rule.applies rule ctx)
     /\ (fires rule ctx = true -> is_ok (Rule.build_insight rule ctx))) ->
  foldlM (RuleBasedInsightAgent.step ctx) rules insights =
  Ok (insights ++ findings rules ctx).
Proof.
  revert insights. induction rules as [|rule rules IH]; intros insights H.
  - simpl. rewrite app_nil_r. reflexivity.
  - destruct (H rule) as [[b Hb] Hbuild]; [left|].
    assert (IH' := fun ins => IH ins (fun r Hr => H r (list_elem_of_further _ _ _ Hr))).
    assert (Hf : findings (rule :: rules) ctx =
              (if b then option_list (finding rule ctx) else []) ++ findings rules ctx).
    { unfold findings. cbn [omap list_omap]. unfold fires at 1. rewrite Hb.
      destruct b; [|reflexivity]. destruct (finding rule ctx); reflexivity. }
    assert (Hstep : RuleBasedInsightAgent.step ctx insights rule =
              Ok (insights ++ (if b then option_list (finding rule ctx) else []))).
    { unfold RuleBasedInsightAgent.step. rewrite Hb, bind_Ok.
      unfold fires in Hbuild. rewrite Hb in Hbuild.
      destruct b; [|rewrite app_nil_r; reflexivity].
      destruct (Hbuild eq_refl) as [i Hi]. unfold finding. rewrite Hi. reflexivity. }
    cbn [foldlM]. rewrite Hstep, bind_Ok, IH', Hf, <- app_assoc. reflexivity.
Qed.

Lemma threshold_ctr : Prim2SF 0.015 = S754_finite false 8646911284551352 (-59).
Proof. vm_compute. reflexivity. Qed.

Lemma threshold_frequency : Prim2SF 3.5 = S754_finite false 7881299347898368 (-51).
Proof. vm_compute. reflexivity. Qed.

Lemma healthy_ctr_test (c : float) : negb (c =? 0) && (0.015 <=? c) = (0.015 <=? c).
Proof.
  destruct (0.015 <=? c) eqn:E; [|apply andb_false_r].
  rewrite (above_positive_nonzero _ _ _ _ threshold_ctr E). reflexivity.
Qed.

Lemma high_frequency_test (f : float) : negb (f =? 0) && (3.5 <=? f) = (3.5 <=? f).
Proof.
  destruct (3.5 <=? f) eqn:E; [|apply andb_false_r].
  rewrite (above_positive_nonzero _ _ _ _ threshold_frequency E). reflexivity.
Qed.

(** Each built-in rule applies exactly when its predicate holds, and builds a
    finding that bears its code. *)
Lemma builtin_rule_facts (s : MetricSummary) (rule : Rule.t) :
  (forall row, row ∈ per_row s -> rule_safe row) ->
  rule ∈ builtin_rules ->
  let ctx := {| summary := s |} in
  Rule.applies rule ctx = Ok (predicate_as_specified (Rule.code rule) s)
  /\ exists i,
       Rule.build_insight rule ctx = Ok i
       /\ Insight.code i = Rule.code rule
       /\ (Rule.code rule = "spend_no_purchases" ->
           Insight.severity i = critical /\ Insight.metrics i = offenders_evidence s)
       /\ (Rule.code rule = "roas_1_2" ->
           Insight.severity i = opportunity
           /\ Insight.metrics i =
                [("avg_roas", VFloat (default 0 (aggregates s !! "avg_roas")))]).
Proof.
  intros Hsafe Hin ctx. unfold builtin_rules in Hin.
  repeat (apply elem_of_cons in Hin as [->|Hin]); [| | | | | inversion Hin].
  - split; [reflexivity|]. eexists. split; [reflexivity|].
    repeat split; discriminate.
  - split.
    + cbn. destruct (aggregates s !! "avg_ctr") as [c|]; [|reflexivity].
      rewrite healthy_ctr_test. reflexivity.
    + eexists. split; [reflexivity|]. repeat split; discriminate.
  - split.
    + cbn. destruct (aggregates s !! "avg_frequency") as [f|]; [|reflexivity].
      rewrite high_frequency_test. reflexivity.
    + eexists. split; [reflexivity|]. repeat split; discriminate.
  - split; [reflexivity|]. eexists. split; [reflexivity|].
    repeat split; discriminate.
  - split.
    + cbn. apply any_offending_spec, Hsafe.
    + cbn. rewrite (offenders_spec _ Hsafe), bind_Ok.
      eexists. split; [reflexivity|]. repeat split; discriminate.
Qed.

Lemma call_builtin (s : MetricSummary) :
  (forall row, row ∈ per_row s -> rule_safe row) ->
  RuleBasedInsightAgent.call (RuleBasedInsightAgent.init None) s =
  Ok (findings builtin_rules {| summary := s |}).
Proof.
  intros Hsafe. unfold RuleBasedInsightAgent.call, RuleBasedInsightAgent.init.
  cbn [RuleBasedInsightAgent.rules default app].
  rewrite call_loop; [reflexivity|].
  intros rule Hrule.
  destruct (builtin_rule_facts s rule Hsafe Hrule) as (Ha & i & Hi & _).
  split; [eexists; exact Ha | intros _; eexists; exact Hi].
Qed.

Lemma fires_builtin (s : MetricSummary) (rule : Rule.t) :
  (forall row, row ∈ per_row s -> rule_safe row) ->
  rule ∈ builtin_rules ->
  fires rule {| summary := s |} = predicate_as_specified (Rule.code rule) s.
Proof.
  intros Hsafe Hrule. unfold fires.
  destruct (builtin_rule_facts s rule Hsafe Hrule) as (-> & _). reflexivity.
Qed.

Lemma findings_codes (ctx : RuleContext) (p : string -> bool) (rules : list Rule.t) :
  (forall rule, rule ∈ rules ->
     fires rule ctx = p (Rule.code rule)
     /\ exists i, finding rule ctx = Some i /\ Insight.code i = Rule.code rule) ->
  map Insight.code (findings rules ctx) = List.filter p (map Rule.code rules).
Proof.
  induction rules as [|rule rules IH]; intros H; [reflexivity|].
  destruct (H rule) as (Hf & i & Hi & Hc); [left|].
  unfold findings in *. cbn [omap list_omap map List.filter].
  rewrite Hf, Hi, <- Hc.
  rewrite <- IH by (intros r Hr; apply H; right; exact Hr).
  destruct (p (Insight.code i)); reflexivity.
Qed.

Lemma filter_by_code_length (c : string) (l : list Insight.t) :
  length (List.filter (fun i => String.eqb (Insight.code i) c) l) =
  length (List.filter (fun c' => String.eqb c' c) (map Insight.code l)).
Proof.
  induction l as [|i l IH]; [reflexivity|]. simpl.
  destruct (String.eqb (Insight.code i) c); simpl; rewrite IH; reflexivity.
Qed.

(** The evaluation by the built-in rules: it returns the findings of the
    rules that fire, whose codes are the codes whose predicate holds. *)
Lemma evaluation_codes (s : MetricSummary) :
  (forall row, row ∈ per_row s -> rule_safe row) ->
  exists insights,
    RuleBasedInsightAgent.call (RuleBasedInsightAgent.init None) s = Ok insights
    /\ insights = findings builtin_rules {| summary := s |}
    /\ map Insight.code insights =
         List.filter (fun c => predicate_as_specified c s) rule_codes.
Proof.
  intros Hsafe. exists (findings builtin_rules {| summary := s |}).
  split; [exact (call_builtin s Hsafe)|]. split; [reflexivity|].
  rewrite (findings_codes _ (fun c => predicate_as_specified c s)); [reflexivity|].
  intros rule Hrule. split; [apply fires_builtin; assumption|].
  destruct (builtin_rule_facts s rule Hsafe Hrule) as (_ & i & Hi & Hc & _).
  exists i. unfold finding. rewrite Hi. split; [reflexivity | exact Hc].
Qed.

(** C7: for every summary whose rows the spend rule can compare, the Rule
    Engine returns, and the codes of its findings are the codes of the
    built-in rules whose predicate holds, in the registration order
    [roas_1_2], [ctr_healthy_low_conversion], [frequency_fatigue],
    [ctr_drop_vs_prev7], [spend_no_purchases]: each rule whose predicate
    holds contributes exactly one finding and the others none; a second
    evaluation of the same summary gives the same list in the same order. *)
Theorem findings_follow_registration_order (s : MetricSummary) :
  (forall row, row ∈ per_row s -> rule_safe row) ->
  let agent := RuleBasedInsightAgent.init None in
  exists insights,
    RuleBasedInsightAgent.call agent s = Ok insights
    /\ map Rule.code (RuleBasedInsightAgent.rules agent) = rule_codes
    /\ map Insight.code insights =
         List.filter (fun c => predicate_as_specified c s) rule_codes
    /\ (forall c, c ∈ rule_codes ->
          length (List.filter (fun i => String.eqb (Insight.code i) c) insights) =
          if predicate_as_specified c s then 1%nat else 0%nat)
    /\ (first ← RuleBasedInsightAgent.call agent s;
        second ← RuleBasedInsightAgent.call agent s;
        Ok (first, second)) = Ok (insights, insights).
Proof.
  intros Hsafe agent.
  destruct (evaluation_codes s Hsafe) as (insights & Hcall & _ & Hcodes).
  fold agent in Hcall. exists insights.
  split; [exact Hcall|]. split; [reflexivity|]. split; [exact Hcodes|]. split.
  - intros c Hc. rewrite filter_by_code_length, Hcodes.
    unfold rule_codes in *.
    repeat (apply elem_of_cons in Hc as [->|Hc]); [| | | | | inversion Hc];
      cbn [List.filter];
      generalize (predicate_as_specified "roas_1_2" s)
                 (predicate_as_specified "ctr_healthy_low_conversion" s)
                 (predicate_as_specified "frequency_fatigue" s)
                 (predicate_as_specified "ctr_drop_vs_prev7" s)
                 (predicate_as_specified "spend_no_purchases" s);
      intros b1 b2 b3 b4 b5; destruct b1, b2, b3, b4, b5; reflexivity.
  - rewrite Hcall, !bind_Ok. reflexivity.
Qed.

Lemma sample_summary_safe : forall row, row ∈ per_row sample_summary -> rule_safe row.
Proof.
  intros row Hrow. unfold sample_summary, per_row, sample_rows in Hrow.
  repeat (apply elem_of_cons in Hrow as [->|Hrow]); [| | | inversion Hrow];
    split; unfold float_entry;
    first [ left; vm_compute; reflexivity | right; eexists; vm_compute; reflexivity ].
Qed.

Lemma findings_follow_registration_order_witness :
  (forall row, row ∈ per_row sample_summary -> rule_safe row)
  /\ exists insights,
       RuleBasedInsightAgent.call (RuleBasedInsightAgent.init None) sample_summary
         = Ok insights
       /\ map Insight.code insights = ["roas_1_2"; "spend_no_purchases"].
Proof.
  split; [exact sample_summary_safe|].
  destruct (findings_follow_registration_order sample_summary sample_summary_safe)
    as (insights & Hcall & _ & Hcodes & _).
  exists insights. split; [exact Hcall|]. rewrite Hcodes. vm_compute. reflexivity.
Defined.

(** A code is among those of the findings exactly when its predicate holds. *)
Lemma code_among_findings (s : MetricSummary) (insights : list Insight.t) (c : string) :
  map Insight.code insights = List.filter (fun c => predicate_as_specified c s) rule_codes ->
  c ∈ rule_codes ->
  (exists i, i ∈ insights /\ Insight.code i = c) <-> predicate_as_specified c s = true.
Proof.
  intros Hcodes Hc. split.
  - intros (i & Hi & <-).
    assert (Hin : Insight.code i ∈ map Insight.code insights).
    { apply list_elem_of_fmap. exists i. split; [reflexivity | exact Hi]. }
    rewrite Hcodes in Hin. apply list_elem_of_In, filter_In in Hin as [_ Hp]. exact Hp.
  - intros Hp.
    assert (Hin : c ∈ map Insight.code insights).
    { rewrite Hcodes. apply list_elem_of_In, filter_In. split; [|exact Hp].
      apply list_elem_of_In, Hc. }
    apply list_elem_of_fmap in Hin as (i & -> & Hi). exists i. split; [exact Hi | reflexivity].
Qed.

(** C6: the rule [roas_1_2] applies exactly when [avg_roas] is present with
    [1.0 <= avg_roas <= 2.0], and then, and only then, contributes its
    finding, to one turn of the loop as to the whole evaluation; when
    [avg_roas] is absent the predicate is false and the rule is evaluated
    without raising. *)
Theorem roas_rule_contributes_in_band (s : MetricSummary) (insights : list Insight.t) :
  let ctx := {| summary := s |} in
  Rule.applies _RoasOneToTwoRule ctx = Ok (roas_in_band s)
  /\ (roas_in_band s = true <->
      exists roas, aggregates s !! "avg_roas" = Some roas
                   /\ (1 <=? roas) = true /\ (roas <=? 2) = true)
  /\ (exists i,
        Rule.build_insight _RoasOneToTwoRule ctx = Ok i
        /\ Insight.code i = "roas_1_2"
        /\ RuleBasedInsightAgent.step ctx insights _RoasOneToTwoRule =
             Ok (if roas_in_band s then insights ++ [i] else insights))
  /\ (aggregates s !! "avg_roas" = None ->
      Rule.applies _RoasOneToTwoRule ctx = Ok false
      /\ RuleBasedInsightAgent.step ctx insights _RoasOneToTwoRule = Ok insights)
  /\ ((forall row, row ∈ per_row s -> rule_safe row) ->
      exists out,
        RuleBasedInsightAgent.call (RuleBasedInsightAgent.init None) s = Ok out
        /\ ((exists i, i ∈ out /\ Insight.code i = "roas_1_2") <-> roas_in_band s = true)).
Proof.
  intros ctx. split; [reflexivity|]. split.
  { unfold roas_in_band. destruct (aggregates s !! "avg_roas") as [roas|].
    - rewrite andb_true_iff. split.
      + intros [H1 H2]. exists roas. auto.
      + intros (r & [= <-] & H1 & H2). auto.
    - split; [discriminate | intros (r & Hr & _); discriminate Hr]. }
  split.
  { eexists. split; [reflexivity|]. split; [reflexivity|].
    unfold RuleBasedInsightAgent.step. cbn.
    fold (roas_in_band s). destruct (roas_in_band s); reflexivity. }
  split.
  { intros Hnone. unfold RuleBasedInsightAgent.step. cbn. rewrite Hnone. split; reflexivity. }
  intros Hsafe.
  destruct (evaluation_codes s Hsafe) as (out & Hcall & _ & Hcodes).
  exists out. split; [exact Hcall|].
  apply (code_among_findings s out "roas_1_2" Hcodes). left.
Qed.

Lemma roas_rule_contributes_in_band_witness :
  aggregates sample_summary !! "avg_roas" = Some 1.2
  /\ Rule.applies _RoasOneToTwoRule {| summary := sample_summary |} = Ok true
  /\ exists out,
       RuleBasedInsightAgent.call (RuleBasedInsightAgent.init None) sample_summary = Ok out
       /\ exists i, i ∈ out /\ Insight.code i = "roas_1_2".
Proof.
  destruct (roas_rule_contributes_in_band sample_summary [])
    as (Happ & _ & _ & _ & Hcall).
  split; [reflexivity|]. split; [exact Happ|].
  destruct (Hcall sample_summary_safe) as (out & Hout & Hiff).
  exists out. split; [exact Hout|]. apply Hiff. reflexivity.
Defined.

(** C1: for every summary whose rows the spend rule can compare, the Rule
    Engine returns, and it emits a finding with code [spend_no_purchases] and
    severity [critical] if and only if at least one row has a spend above 50
    together with purchases absent or equal to 0; the metrics of that finding
    carry, for every such row and in row order, its spend, its purchases
    ([0.0] standing for absent ones), its campaign name and its ad name. *)
Theorem spend_without_purchases_finding (s : MetricSummary) :
  (forall row, row ∈ per_row s -> rule_safe row) ->
  exists insights,
    RuleBasedInsightAgent.call (RuleBasedInsightAgent.init None) s = Ok insights
    /\ ((exists i, i ∈ insights /\ Insight.code i = "spend_no_purchases"
                   /\ Insight.severity i = critical)
        <-> exists row, row ∈ per_row s /\ offends row = true)
    /\ (forall i, i ∈ insights -> Insight.code i = "spend_no_purchases" ->
          Insight.severity i = critical
          /\ Insight.metrics i =
               [("offenders",
                 VList (map offender_evidence (List.filter offends (per_row s))))]).
Proof.
  intros Hsafe.
  destruct (evaluation_codes s Hsafe) as (out & Hcall & Hout & Hcodes).
  exists out. split; [exact Hcall|].
  assert (Hev : forall i, i ∈ out -> Insight.code i = "spend_no_purchases" ->
            Insight.severity i = critical /\ Insight.metrics i = offenders_evidence s).
  { intros i Hi Hc. rewrite Hout in Hi. unfold findings in Hi.
    apply list_elem_of_omap in Hi as (rule & Hrule & Hf).
    destruct (builtin_rule_facts s rule Hsafe Hrule) as (_ & i' & Hi' & Hc' & Hspend & _).
    destruct (fires rule _); [|discriminate Hf].
    unfold finding in Hf. rewrite Hi' in Hf. injection Hf as <-.
    apply Hspend. congruence. }
  split; [|exact Hev].
  pose proof (code_among_findings s out "spend_no_purchases" Hcodes) as Hiff.
  assert (Hp : predicate_as_specified "spend_no_purchases" s = existsb offends (per_row s))
    by reflexivity.
  rewrite Hp in Hiff. split.
  - intros (i & Hi & Hc & _).
    destruct Hiff as [Hiff _]; [unfold rule_codes; apply list_elem_of_In; simpl; tauto|].
    apply existsb_exists in Hiff as (row & Hrow & Hoff); [|exists i; auto].
    exists row. split; [apply list_elem_of_In, Hrow | exact Hoff].
  - intros (row & Hrow & Hoff).
    destruct Hiff as [_ Hiff]; [unfold rule_codes; apply list_elem_of_In; simpl; tauto|].
    destruct Hiff as (i & Hi & Hc).
    { apply existsb_exists. exists row. split; [apply list_elem_of_In, Hrow | exact Hoff]. }
    exists i. split; [exact Hi|]. split; [exact Hc|]. apply (Hev i Hi Hc).
Qed.

Lemma spend_without_purchases_finding_witness :
  (forall row, row ∈ per_row sample_summary -> rule_safe row)
  /\ exists insights i,
       RuleBasedInsightAgent.call (RuleBasedInsightAgent.init None) sample_summary
         = Ok insights
       /\ i ∈ insights
       /\ Insight.code i = "spend_no_purchases"
       /\ Insight.severity i = critical
       /\ Insight.metrics i =
            [("offenders",
              VList [ VDict [("spend", VFloat 80); ("purchases", VFloat 0);
                             ("campaign_name", VNone); ("ad_name", VStr "Creative B")];
                      VDict [("spend", VFloat 60); ("purchases", VFloat 0);
                             ("campaign_name", VNone); ("ad_name", VNone)] ])].
Proof.
  split; [exact sample_summary_safe|].
  destruct (spend_without_purchases_finding sample_summary sample_summary_safe)
    as (insights & Hcall & Hiff & Hev).
  destruct Hiff as [_ Hiff]. destruct Hiff as (i & Hi & Hc & Hs).
  { exists (<["spend" := VFloat 60]> (<["roas" := VFloat nan]> ∅)).
    split; [|vm_compute; reflexivity].
    unfold sample_summary, per_row, sample_rows. apply list_elem_of_In. simpl. tauto. }
  exists insights, i. split; [exact Hcall|]. split; [exact Hi|]. split; [exact Hc|].
  split; [exact Hs|]. destruct (Hev i Hi Hc) as [_ ->]. vm_compute. reflexivity.
Defined.

End Rules.

(** ** The Header Normalizer *)

Section Normalizer.

Import ColumnIdentifier.

Local Open Scope char_scope.

Lemma chars_of_chars (cs : list ascii) : Str.chars (Str.of_chars cs) = cs.
Proof. apply list_ascii_of_string_of_list_ascii. Qed.

Lemma of_chars_chars (s : string) : Str.of_chars (Str.chars s) = s.
Proof. apply string_of_list_ascii_of_string. Qed.

Lemma normalize_as_chars (label : string) :
  _normalize label = Str.of_chars (normalize_chars (Str.chars label)).
Proof.
  unfold _normalize, normalize_chars, Str.strip, sub_spaces, sub_non_alnum, Str.lower.
  rewrite !chars_of_chars. reflexivity.
Qed.

(** A lowercase letter or a digit is not whitespace, is its own lowercase,
    and is not replaced by either substitution. *)
Lemma alnum_facts (c : ascii) :
  Str.is_alnum_lower c = true ->
  Str.is_space c = false /\ Str.lower_char c = c /\ Ascii.eqb c " " = false
  /\ not_alnum c = false.
Proof.
  destruct c as [b0 b1 b2 b3 b4 b5 b6 b7].
  destruct b0, b1, b2, b3, b4, b5, b6, b7; vm_compute; intros H;
    try discriminate H; repeat split.
Qed.

Lemma sub_non_alnum_head (cs : list ascii) :
  head_alnum (Str.sub_runs_from not_alnum true cs) = true.
Proof.
  induction cs as [|c cs IH]; [reflexivity|]. simpl.
  unfold not_alnum at 1. destruct (Str.is_alnum_lower c) eqn:E; simpl; [exact E | exact IH].
Qed.

Lemma sub_non_alnum_single_spaced (cs : list ascii) (in_run : bool) :
  single_spaced (Str.sub_runs_from not_alnum in_run cs) = true.
Proof.
  revert in_run. induction cs as [|c cs IH]; intros in_run; [reflexivity|]. simpl.
  unfold not_alnum at 1. destruct (Str.is_alnum_lower c) eqn:E; simpl.
  - destruct (alnum_facts c E) as (_ & _ & -> & _). rewrite E, IH. reflexivity.
  - destruct in_run; [apply IH|].
    cbn [single_spaced]. rewrite IH, andb_true_r.
    change (Ascii.eqb " " " ") with true. cbv iota.
    apply (sub_non_alnum_head cs).
Qed.

Section Substitution.

(** A substitution by a class that holds the space and no lowercase letter
    or digit leaves a single-spaced text as it is. *)
Variable p : ascii -> bool.
Hypothesis p_space : p " " = true.
Hypothesis p_alnum : forall c, Str.is_alnum_lower c = true -> p c = false.

Lemma sub_runs_single_spaced (cs : list ascii) :
  single_spaced cs = true ->
  Str.sub_runs_from p false cs = cs
  /\ (head_alnum cs = true -> Str.sub_runs_from p true cs = cs).
Proof.
  induction cs as [|c cs IH]; intros H; [split; reflexivity|].
  cbn [single_spaced] in H. apply andb_true_iff in H as [Hc Hrest].
  destruct (IH Hrest) as [IH1 IH2]. split.
  - cbn [Str.sub_runs_from].
    destruct (Ascii.eqb_spec c " ") as [->|Hne].
    + rewrite p_space, IH2; [reflexivity|]. destruct cs; [reflexivity | exact Hc].
    + rewrite (p_alnum c Hc), IH1. reflexivity.
  - intros Hhead. cbn [head_alnum] in Hhead. cbn [Str.sub_runs_from].
    rewrite (p_alnum c Hhead), IH1. reflexivity.
Qed.

End Substitution.

Lemma single_spaced_lower (cs : list ascii) :
  single_spaced cs = true -> Str.lower_chars cs = cs.
Proof.
  induction cs as [|c cs IH]; intros H; [reflexivity|].
  cbn [single_spaced] in H. apply andb_true_iff in H as [Hc Hrest].
  unfold Str.lower_chars in *. cbn [map]. rewrite (IH Hrest). f_equal.
  destruct (Ascii.eqb_spec c " ") as [->|Hne]; [reflexivity|].
  apply (alnum_facts c Hc).
Qed.

Lemma single_spaced_chars (cs : list ascii) :
  single_spaced cs = true ->
  Forall (fun c => Str.is_alnum_lower c = true \/ c = " ") cs.
Proof.
  induction cs as [|c cs IH]; intros H; [constructor|].
  cbn [single_spaced] in H. apply andb_true_iff in H as [Hc Hrest].
  constructor; [|apply IH, Hrest].
  destruct (Ascii.eqb_spec c " ") as [->|Hne]; [right; reflexivity | left; exact Hc].
Qed.

Lemma single_spaced_tail (c : ascii) (cs : list ascii) :
  single_spaced (c :: cs) = true -> single_spaced cs = true.
Proof. cbn [single_spaced]. intros H. apply andb_true_iff in H as [_ H]. exact H. Qed.

Lemma single_spaced_prefix (a b : list ascii) :
  single_spaced (a ++ b) = true -> single_spaced a = true.
Proof.
  induction a as [|c a IH]; intros H; [reflexivity|].
  cbn [app single_spaced] in *. apply andb_true_iff in H as [Hc Hrest].
  rewrite (IH Hrest), andb_true_r.
  destruct (Ascii.eqb c " "); [|exact Hc]. destruct a; [reflexivity | exact Hc].
Qed.

Lemma drop_while_suffix (q : ascii -> bool) (cs : list ascii) :
  exists ws, cs = ws ++ Str.drop_while q cs.
Proof.
  induction cs as [|c cs [ws IH]]; [exists []; reflexivity|]. simpl.
  destruct (q c); [|exists []; reflexivity].
  exists (c :: ws). simpl. f_equal. exact IH.
Qed.

Lemma drop_while_clean (cs : list ascii) : starts_clean (Str.drop_while Str.is_space cs) = true.
Proof.
  induction cs as [|c cs IH]; [reflexivity|]. simpl.
  destruct (Str.is_space c) eqn:E; [exact IH|]. simpl. rewrite E. reflexivity.
Qed.

Lemma drop_while_single_spaced (cs : list ascii) :
  single_spaced cs = true -> single_spaced (Str.drop_while Str.is_space cs) = true.
Proof.
  induction cs as [|c cs IH]; intros H; [reflexivity|]. simpl.
  destruct (Str.is_space c); [|exact H]. apply IH, (single_spaced_tail c), H.
Qed.

Lemma rstrip_prefix (cs : list ascii) : exists ws, cs = Str.rstrip_chars cs ++ ws.
Proof.
  unfold Str.rstrip_chars.
  destruct (drop_while_suffix Str.is_space (rev cs)) as [ws H].
  exists (rev ws). rewrite <- rev_app_distr, <- H, rev_involutive. reflexivity.
Qed.

Lemma strip_normal_form (cs : list ascii) :
  single_spaced cs = true -> normal_form (Str.strip_chars cs).
Proof.
  intros H. unfold Str.strip_chars, Str.lstrip_chars.
  pose proof (drop_while_single_spaced cs H) as Hs.
  pose proof (drop_while_clean cs) as Hc.
  set (y := Str.drop_while Str.is_space cs) in *.
  destruct (rstrip_prefix y) as [ws Hy].
  repeat split.
  - apply (single_spaced_prefix _ ws). rewrite <- Hy. exact Hs.
  - destruct (Str.rstrip_chars y) as [|c r] eqn:E; [reflexivity|].
    rewrite Hy in Hc. exact Hc.
  - unfold ends_clean, Str.rstrip_chars. rewrite rev_involutive. apply drop_while_clean.
Qed.

Lemma strip_clean (cs : list ascii) :
  starts_clean cs = true -> ends_clean cs = true -> Str.strip_chars cs = cs.
Proof.
  intros Hs He.
  assert (L : forall l, starts_clean l = true -> Str.drop_while Str.is_space l = l).
  { intros [|c l] Hl; [reflexivity|]. simpl in *.
    destruct (Str.is_space c); [discriminate Hl | reflexivity]. }
  unfold Str.strip_chars, Str.lstrip_chars, Str.rstrip_chars.
  rewrite (L cs Hs), (L (rev cs) He). apply rev_involutive.
Qed.

Lemma normalize_chars_normal_form (cs : list ascii) : normal_form (normalize_chars cs).
Proof.
  unfold normalize_chars. apply strip_normal_form.
  set (x := Str.sub_runs not_alnum _).
  assert (Hx : single_spaced x = true) by apply sub_non_alnum_single_spaced.
  unfold Str.sub_runs.
  rewrite (proj1 (sub_runs_single_spaced Str.is_space eq_refl
                    (fun c Hc => proj1 (alnum_facts c Hc)) x Hx)).
  exact Hx.
Qed.

Lemma normalize_chars_fixed (cs : list ascii) : normal_form cs -> normalize_chars cs = cs.
Proof.
  intros (Hs & Hb & He). unfold normalize_chars, Str.sub_runs.
  rewrite (strip_clean cs Hb He), (single_spaced_lower cs Hs).
  rewrite (proj1 (sub_runs_single_spaced not_alnum eq_refl
                    (fun c Hc => proj2 (proj2 (proj2 (alnum_facts c Hc)))) cs Hs)).
  rewrite (proj1 (sub_runs_single_spaced Str.is_space eq_refl
                    (fun c Hc => proj1 (alnum_facts c Hc)) cs Hs)).
  apply (strip_clean cs Hb He).
Qed.

(** C10: the header normalization is a function of every input string (it
    is total), it is idempotent, and its output holds only lowercase letters,
    digits and spaces, each space following at once a letter or a digit and
    followed by one, with no whitespace at either end. *)
Theorem normalize_idempotent_and_clean (label : string) :
  _normalize (_normalize label) = _normalize label
  /\ Forall (fun c => Str.is_alnum_lower c = true \/ c = " ")
       (Str.chars (_normalize label))
  /\ normal_form (Str.chars (_normalize label)).
Proof.
  rewrite !normalize_as_chars, !chars_of_chars.
  pose proof (normalize_chars_normal_form (Str.chars label)) as Hnf.
  split; [rewrite (normalize_chars_fixed _ Hnf); reflexivity|].
  split; [apply single_spaced_chars, Hnf | exact Hnf].
Qed.

End Normalizer.

(** ** The Column Resolver *)

Section Resolver.

Import ColumnIdentifier.

(** A dictionary comprehension over the headers is searched like the list of
    the headers: a header met again changes nothing. *)
Lemma graph_of_dict_set {A : Type} (f : string -> A) (k : string) (d : list (string * A)) :
  graph_of f d -> graph_of f (dict_set k (f k) d).
Proof.
  unfold graph_of. induction d as [|[k' v'] d IH]; intros H; simpl.
  - constructor; [reflexivity | constructor].
  - inversion H as [|? ? Hkv Hd]; subst.
    destruct (String.eqb k k'); constructor; auto.
Qed.

Lemma find_dict_set {A : Type} (f : string -> A) (Q : string * A -> bool)
    (k : string) (d : list (string * A)) :
  graph_of f d ->
  List.find Q (dict_set k (f k) d) =
  match List.find Q d with
  | Some x => Some x
  | None => if Q (k, f k) then Some (k, f k) else None
  end.
Proof.
  unfold graph_of. induction d as [|[k' v'] d IH]; intros H; simpl; [reflexivity|].
  inversion H as [|? ? Hkv Hd]; subst. simpl in Hkv. subst v'.
  destruct (String.eqb_spec k k') as [->|Hne]; simpl.
  - destruct (Q (k', f k')) eqn:E; [reflexivity|].
    destruct (List.find Q d); reflexivity.
  - destruct (Q (k', f k')); [reflexivity | apply IH, Hd].
Qed.

Lemma find_dict_of_from {A : Type} (f : string -> A) (Q : string * A -> bool)
    (keys : list string) (d : list (string * A)) :
  graph_of f d ->
  List.find Q (fold_left (fun d k => dict_set k (f k) d) keys d) =
  match List.find Q d with
  | Some x => Some x
  | None => List.find Q (map (fun k => (k, f k)) keys)
  end.
Proof.
  revert d. induction keys as [|k keys IH]; intros d Hd; simpl.
  - destruct (List.find Q d); reflexivity.
  - rewrite (IH _ (graph_of_dict_set f k d Hd)), (find_dict_set f Q k d Hd).
    destruct (List.find Q d); [reflexivity|].
    destruct (Q (k, f k)); reflexivity.
Qed.

Lemma find_dict_of {A : Type} (f : string -> A) (Q : string * A -> bool)
    (keys : list string) :
  List.find Q (dict_of f keys) = List.find Q (map (fun k => (k, f k)) keys).
Proof. unfold dict_of. rewrite find_dict_of_from; [reflexivity | constructor]. Qed.

Lemma find_map_pair {A : Type} (f : string -> A) (Q : string * A -> bool)
    (keys : list string) :
  option_map fst (List.find Q (map (fun k => (k, f k)) keys)) =
  List.find (fun k => Q (k, f k)) keys.
Proof.
  induction keys as [|k keys IH]; [reflexivity|]. simpl.
  destruct (Q (k, f k)); [reflexivity | exact IH].
Qed.

Lemma first_match_find (targets : list string) (d : list (string * string)) :
  first_match targets d = option_map fst (List.find (fun kv => matches targets (snd kv)) d).
Proof.
  induction d as [|[name normalized] d IH]; [reflexivity|]. simpl.
  destruct (matches targets normalized); [reflexivity | exact IH].
Qed.

Lemma first_match_headers (targets columns : list string) :
  first_match targets (dict_of _normalize columns) =
  List.find (fun header => matches targets (_normalize header)) columns.
Proof.
  rewrite first_match_find, find_dict_of.
  apply (find_map_pair _normalize (fun kv => matches targets (snd kv))).
Qed.

Lemma first_prefixed_find (key token : string) (tokens : list string)
    (d : list (string * string)) :
  Str.split key = token :: tokens ->
  first_prefixed key d =
  Ok (option_map fst
        (List.find (fun kv => Str.startswith (snd kv) (_normalize token)) d)).
Proof.
  intros Hsplit. induction d as [|[name normalized] d IH]; [reflexivity|]. simpl.
  rewrite Hsplit. destruct (Str.startswith normalized (_normalize token)); [reflexivity|].
  exact IH.
Qed.

Lemma first_prefixed_headers (key token : string) (tokens columns : list string) :
  Str.split key = token :: tokens ->
  first_prefixed key (dict_of _normalize columns) =
  Ok (List.find (fun header => Str.startswith (_normalize header) (_normalize token))
        columns).
Proof.
  intros Hsplit. rewrite (first_prefixed_find key token tokens _ Hsplit), find_dict_of.
  f_equal.
  apply (find_map_pair _normalize (fun kv => Str.startswith (snd kv) (_normalize token))).
Qed.

Lemma assoc_find {A : Type} (k : string) (d : list (string * A)) :
  assoc k d = option_map snd (List.find (fun kv => String.eqb k (fst kv)) d).
Proof.
  induction d as [|[k' v] d IH]; [reflexivity|]. simpl.
  destruct (String.eqb k k'); [reflexivity | exact IH].
Qed.

Lemma assoc_headers_None (hinted : string) (columns : list string) :
  hinted ∉ columns -> assoc hinted (dict_of _normalize columns) = None.
Proof.
  intros Hnot. rewrite assoc_find, find_dict_of.
  destruct (List.find _ _) as [[k v]|] eqn:E; [|reflexivity].
  apply find_some in E as [Hin Heq]. simpl in Heq. apply String.eqb_eq in Heq. subst k.
  exfalso. apply Hnot. apply in_map_iff in Hin as (h & [= -> _] & Hh).
  apply list_elem_of_In, Hh.
Qed.

Lemma normalize_twice (label : string) : _normalize (_normalize label) = _normalize label.
Proof.
  rewrite !normalize_as_chars, !chars_of_chars.
  rewrite (normalize_chars_fixed _ (normalize_chars_normal_form (Str.chars label))).
  reflexivity.
Qed.

Lemma of_chars_inj (a b : list ascii) : Str.of_chars a = Str.of_chars b -> a = b.
Proof. intros H. rewrite <- (chars_of_chars a), <- (chars_of_chars b), H. reflexivity. Qed.

Lemma alnum_normal_form (t : list ascii) :
  Forall (fun c => Str.is_alnum_lower c = true) t -> normal_form t.
Proof.
  intros H.
  assert (Hclean : forall l, Forall (fun c => Str.is_alnum_lower c = true) l ->
                     starts_clean l = true).
  { intros [|c l] Hl; [reflexivity|]. inversion Hl as [|? ? Hc _]; subst. simpl.
    rewrite (proj1 (alnum_facts c Hc)). reflexivity. }
  repeat split.
  - induction H as [|c l Hc Hl IH]; [reflexivity|].
    cbn [single_spaced]. destruct (alnum_facts c Hc) as (_ & _ & -> & _).
    rewrite Hc, IH. reflexivity.
  - apply Hclean, H.
  - apply Hclean, Forall_rev, H.
Qed.

Lemma split_from_first (tok cs : list ascii) :
  Forall (fun c => Str.is_alnum_lower c = true) tok ->
  Forall (fun c => Str.is_alnum_lower c = true \/ c = " "%char) cs ->
  tok <> [] ->
  exists t ts, Str.split_from tok cs = t :: ts /\ t <> []
               /\ Forall (fun c => Str.is_alnum_lower c = true) t.
Proof.
  revert tok. induction cs as [|c cs IH]; intros tok Htok Hcs Hne.
  - exists (rev tok), []. destruct tok as [|a tok]; [contradiction|].
    split; [reflexivity|]. split; [|apply Forall_rev, Htok].
    simpl. intros E. apply app_eq_nil in E as [_ E]. discriminate E.
  - inversion Hcs as [|? ? Hc Hrest]; subst. cbn [Str.split_from].
    destruct (Str.is_space c) eqn:Es.
    + destruct tok as [|a tok]; [contradiction|].
      eexists _, _. split; [reflexivity|]. split; [|apply Forall_rev, Htok].
      simpl. intros E. apply app_eq_nil in E as [_ E]. discriminate E.
    + apply IH; [|exact Hrest|discriminate].
      constructor; [|exact Htok]. destruct Hc as [Hc | ->]; [exact Hc | discriminate Es].
Qed.

(** The first word of a normalized text that is not empty is itself
    normalized, and the text does not vanish when its spaces are removed. *)
Lemma normalized_first_word (label : string) :
  _normalize label <> "" ->
  exists token tokens,
    Str.split (_normalize label) = token :: tokens
    /\ _normalize token = token /\ token <> ""
    /\ no_spaces (_normalize label) <> "".
Proof.
  intros Hne. rewrite normalize_as_chars in *.
  pose proof (normalize_chars_normal_form (Str.chars label)) as (Hs & Hb & He).
  pose proof (single_spaced_chars _ Hs) as Hall.
  destruct (normalize_chars (Str.chars label)) as [|c cs] eqn:E; [contradiction Hne; reflexivity|].
  inversion Hall as [|? ? Hc Hrest]; subst.
  assert (Hc' : Str.is_alnum_lower c = true).
  { destruct Hc as [Hc | ->]; [exact Hc | discriminate Hb]. }
  simpl in Hb. apply negb_true_iff in Hb.
  destruct (split_from_first [c] cs) as (t & ts & Hsplit & Ht & Halnum).
  { constructor; [exact Hc' | constructor]. }
  { exact Hrest. }
  { discriminate. }
  exists (Str.of_chars t), (map Str.of_chars ts). split.
  { unfold Str.split. rewrite chars_of_chars. cbn [Str.split_from]. rewrite Hb, Hsplit.
    reflexivity. }
  split.
  { rewrite normalize_as_chars, chars_of_chars.
    rewrite (normalize_chars_fixed t (alnum_normal_form t Halnum)). reflexivity. }
  split.
  { intros Hempty. apply Ht. apply of_chars_inj. exact Hempty. }
  unfold no_spaces, Str.remove_char. rewrite chars_of_chars. cbn [List.filter].
  destruct (alnum_facts c Hc') as (_ & _ & -> & _). simpl. discriminate.
Qed.

(** The relaxed match of a hint that has a letter or a digit. *)
Lemma find_best_match_hint (hinted : string) (columns : list string) :
  _normalize hinted <> "" ->
  _find_best_match (_normalize hinted) (dict_of _normalize columns) None =
  Ok (relaxed_hint_match (_normalize hinted) columns).
Proof.
  intros Hne. destruct (normalized_first_word hinted Hne) as (token & tokens & Hsplit & Htok & _).
  unfold _find_best_match, relaxed_hint_match.
  rewrite normalize_twice, first_match_headers.
  fold (hint_equal (_normalize hinted)).
  change (fun header => matches [_normalize hinted] (_normalize header))
    with (hint_equal (_normalize hinted)).
  destruct (List.find (hint_equal (_normalize hinted)) columns); [reflexivity|].
  rewrite (first_prefixed_headers _ token tokens columns Hsplit), Htok.
  unfold hint_prefix, first_word. rewrite Hsplit. reflexivity.
Qed.

Lemma normalize_empty : _normalize "" = "".
Proof. vm_compute. reflexivity. Qed.

Lemma relaxed_hint_match_named (hinted header : string) (columns : list string) :
  _normalize hinted <> "" ->
  relaxed_hint_match (_normalize hinted) columns = Some header -> header <> "".
Proof.
  intros Hne Hm ->.
  destruct (normalized_first_word hinted Hne) as (token & tokens & Hsplit & _ & Htok & Hns).
  set (nh := _normalize hinted) in *.
  unfold relaxed_hint_match in Hm.
  destruct (List.find (hint_equal nh) columns) as [h|] eqn:E.
  - injection Hm as ->. apply find_some in E as [_ E].
    unfold hint_equal in E. rewrite normalize_empty in E.
    unfold matches, mem in E. cbn [existsb map] in E.
    change (no_spaces "") with "" in E.
    rewrite !orb_false_r in E. apply orb_true_iff in E as [E|E];
      apply String.eqb_eq in E; [apply Hne | apply Hns]; symmetry; exact E.
  - apply find_some in Hm as [_ Hm].
    unfold hint_prefix, first_word in Hm. rewrite Hsplit, normalize_empty in Hm.
    cbn [hd] in Hm. unfold Str.startswith in Hm.
    change (Str.chars "") with (@nil ascii) in Hm.
    destruct (Str.chars token) as [|c cs] eqn:Ec.
    + apply Htok. rewrite <- (of_chars_chars token), Ec. reflexivity.
    + discriminate Hm.
Qed.

(** The turn of the loop over the hints, for a hint that names no header
    verbatim. *)
Lemma apply_hint_relaxed (columns : list string) (c2s : gmap string (option string))
    (canonical hinted : string) :
  hinted ∉ columns -> _normalize hinted <> "" ->
  apply_hint (dict_of _normalize columns) c2s (canonical, hinted) =
  Ok match relaxed_hint_match (_normalize hinted) columns with
     | Some header => <[canonical := Some header]> c2s
     | None => c2s
     end.
Proof.
  intros Hnot Hne. unfold apply_hint.
  rewrite (assoc_headers_None _ _ Hnot), (find_best_match_hint _ _ Hne), bind_Ok.
  destruct (relaxed_hint_match _ columns) as [header|] eqn:E; [|reflexivity].
  pose proof (relaxed_hint_match_named _ _ _ Hne E) as Hh.
  unfold truthy_target, ColumnMapping.is_set.
  destruct (String.eqb_spec header ""); [contradiction | reflexivity].
Qed.

Ltac canonical_cases H :=
  unfold CANONICAL_COLUMNS in H; cbn [map fst] in H;
  repeat (apply elem_of_cons in H as [-> | H]); [.. | inversion H].

Lemma canonical_split (canonical : string) :
  canonical ∈ map fst CANONICAL_COLUMNS ->
  exists token tokens, Str.split canonical = token :: tokens.
Proof. intros H. canonical_cases H; eexists _, _; vm_compute; reflexivity. Qed.

Lemma canonical_is_key (canonical : string) :
  canonical ∈ map fst CANONICAL_COLUMNS ->
  bool_decide (is_Some (assoc canonical CANONICAL_COLUMNS)) = true.
Proof. intros H. canonical_cases H; vm_compute; reflexivity. Qed.

Lemma resolve_of_dict (d : gmap string (option string)) (canonical : string) :
  canonical ∈ map fst CANONICAL_COLUMNS ->
  ColumnMapping.resolve (ColumnMapping.of_dict d) canonical = default None (d !! canonical).
Proof. intros H. canonical_cases H; reflexivity. Qed.

Lemma initial_complete :
  complete (list_to_map (map (fun kv => (fst kv, None)) CANONICAL_COLUMNS)).
Proof. intros k H. canonical_cases H; exists None; vm_compute; reflexivity. Qed.

Lemma complete_insert (c2s : gmap string (option string)) (k : string) (v : option string) :
  complete c2s -> complete (<[k := v]> c2s).
Proof.
  intros H k' Hk'. destruct (decide (k = k')) as [->|Hne].
  - rewrite lookup_insert_eq. eauto.
  - rewrite lookup_insert_ne by exact Hne. apply H, Hk'.
Qed.

Lemma find_best_match_returns (key : string) (cols : list (string * string))
    (fallback : option (list string)) :
  (exists token tokens, Str.split key = token :: tokens) ->
  is_ok (_find_best_match key cols fallback).
Proof.
  intros (token & tokens & Hsplit). unfold _find_best_match.
  destruct (first_match _ cols); [eexists; reflexivity|].
  rewrite (first_prefixed_find key token tokens cols Hsplit). eexists. reflexivity.
Qed.

(** A turn of the automatic matching returns, writes at most the entry of
    its own metric, and leaves a metric that is already mapped as it is. *)
Lemma auto_match_spec (cols : list (string * string)) (c2s : gmap string (option string))
    (canonical : string) (synonyms : list string) :
  complete c2s -> canonical ∈ map fst CANONICAL_COLUMNS ->
  exists c2s',
    auto_match cols c2s (canonical, synonyms) = Ok c2s'
    /\ complete c2s'
    /\ (forall k, k <> canonical -> c2s' !! k = c2s !! k)
    /\ (truthy_target (default None (c2s !! canonical)) = true -> c2s' = c2s).
Proof.
  intros Hc Hk. unfold auto_match.
  destruct (truthy_target (default None (c2s !! canonical))) eqn:Et.
  { exists c2s. repeat split; auto. }
  set (c2s1 := match synonym_match _ cols with
               | Some column_name => <[canonical := Some column_name]> c2s
               | None => c2s
               end).
  assert (Hc1 : complete c2s1).
  { unfold c2s1. destruct (synonym_match _ cols); [apply complete_insert|]; exact Hc. }
  assert (Hother : forall k, k <> canonical -> c2s1 !! k = c2s !! k).
  { intros k Hne. unfold c2s1. destruct (synonym_match _ cols); [|reflexivity].
    apply lookup_insert_ne. congruence. }
  destruct (Hc1 canonical Hk) as [current Hcur]. rewrite Hcur.
  destruct (truthy_target current).
  { exists c2s1. repeat split; auto. discriminate. }
  destruct (find_best_match_returns canonical cols (Some (synonyms ++ [canonical]))
              (canonical_split canonical Hk)) as [target ->].
  rewrite bind_Ok. destruct (truthy_target target).
  - eexists. split; [reflexivity|]. split; [apply complete_insert, Hc1|].
    split; [|discriminate].
    intros k Hne. rewrite lookup_insert_ne by congruence. apply Hother, Hne.
  - exists c2s1. repeat split; auto. discriminate.
Qed.

Lemma auto_loop (cols : list (string * string)) (entries : list (string * list string))
    (c2s : gmap string (option string)) :
  (forall e, e ∈ entries -> fst e ∈ map fst CANONICAL_COLUMNS) ->
  complete c2s ->
  exists c2s',
    foldlM (auto_match cols) entries c2s = Ok c2s'
    /\ forall k header, c2s !! k = Some (Some header) -> header <> "" ->
                        c2s' !! k = Some (Some header).
Proof.
  revert c2s. induction entries as [|[canonical synonyms] entries IH]; intros c2s He Hc.
  - exists c2s. split; [reflexivity | auto].
  - destruct (auto_match_spec cols c2s canonical synonyms Hc) as (c2s1 & H1 & Hc1 & Hother & Hset).
    { apply (He (canonical, synonyms)). left. }
    destruct (IH c2s1) as (c2s' & H' & Hkeep).
    { intros e Hin. apply He. right. exact Hin. }
    { exact Hc1. }
    exists c2s'. split.
    + cbn [foldlM]. rewrite H1, bind_Ok. exact H'.
    + intros k header Hk Hne. apply Hkeep; [|exact Hne].
      destruct (decide (k = canonical)) as [->|Hneq].
      * rewrite Hset; [exact Hk|]. rewrite Hk. simpl.
        destruct (String.eqb_spec header ""); [contradiction | reflexivity].
      * rewrite Hother by exact Hneq. exact Hk.
Qed.

Lemma canonical_entries :
  forall e, e ∈ CANONICAL_COLUMNS -> fst e ∈ map fst CANONICAL_COLUMNS.
Proof. intros e He. apply list_elem_of_fmap. exists e. split; [reflexivity | exact He]. Qed.

(** The resolution with one hint and the one without, side by side. *)
Lemma identify_with_one_hint (columns : list string) (canonical hinted : string) :
  canonical ∈ map fst CANONICAL_COLUMNS ->
  hinted ∉ columns -> _normalize hinted <> "" ->
  exists with_hint without_hint,
    SemanticColumnIdentifier columns (Some [(canonical, hinted)]) = Ok with_hint
    /\ SemanticColumnIdentifier columns None = Ok without_hint
    /\ match relaxed_hint_match (_normalize hinted) columns with
       | Some header => ColumnMapping.resolve with_hint canonical = Some header
       | None => with_hint = without_hint
       end.
Proof.
  intros Hk Hnot Hne. unfold SemanticColumnIdentifier.
  cbv zeta. cbn [default from_option List.filter fst id].
  rewrite (canonical_is_key canonical Hk).
  set (c2s0 := list_to_map (map (fun kv => (fst kv, None)) CANONICAL_COLUMNS)
               : gmap string (option string)).
  assert (H0 : complete c2s0) by exact initial_complete.
  cbn [foldlM].
  rewrite (apply_hint_relaxed columns c2s0 canonical hinted Hnot Hne), !bind_Ok.
  set (cols := dict_of _normalize columns).
  destruct (auto_loop cols CANONICAL_COLUMNS c2s0 canonical_entries H0)
    as (plain & Hplain & _).
  destruct (relaxed_hint_match (_normalize hinted) columns) as [header|] eqn:E.
  - destruct (auto_loop cols CANONICAL_COLUMNS (<[canonical := Some header]> c2s0)
                canonical_entries (complete_insert _ _ _ H0))
      as (hinted_map & Hhinted & Hkeep).
    rewrite Hplain, Hhinted, !bind_Ok. eexists _, _.
    split; [reflexivity|]. split; [reflexivity|].
    rewrite (resolve_of_dict _ _ Hk).
    rewrite (Hkeep canonical header (lookup_insert_eq _ _ _)
               (relaxed_hint_match_named _ _ _ Hne E)).
    reflexivity.
  - rewrite Hplain, !bind_Ok. eexists _, _. split; [reflexivity|]. split; reflexivity.
Qed.

(** C8, as amended: for every canonical metric whose hint names no header
    verbatim and has a letter or a digit, the Column Resolver maps the metric
    through the hint if and only if some header matches the hint in the
    relaxed way: its normalized form is the normalized hint, or is the same
    once the spaces are removed from both, or, when no header matches so, its
    normalized form starts with the first word of the normalized hint; the
    metric is mapped to the first such header in the order of the caller.
    When no header matches, the hint changes nothing and the metric is
    resolved as without the hint, by synonym matching. *)
Theorem hint_resolution_relaxed (columns : list string) (canonical hinted : string) :
  canonical ∈ map fst CANONICAL_COLUMNS ->
  hinted ∉ columns -> _normalize hinted <> "" ->
  (forall c2s : gmap string (option string),
     apply_hint (dict_of _normalize columns) c2s (canonical, hinted) =
     Ok match relaxed_hint_match (_normalize hinted) columns with
        | Some header => <[canonical := Some header]> c2s
        | None => c2s
        end)
  /\ exists with_hint without_hint,
       SemanticColumnIdentifier columns (Some [(canonical, hinted)]) = Ok with_hint
       /\ SemanticColumnIdentifier columns None = Ok without_hint
       /\ match relaxed_hint_match (_normalize hinted) columns with
          | Some header => ColumnMapping.resolve with_hint canonical = Some header
          | None => with_hint = without_hint
          end.
Proof.
  intros Hk Hnot Hne. split.
  - intros c2s. apply apply_hint_relaxed; assumption.
  - apply identify_with_one_hint; assumption.
Qed.

Lemma hint_resolution_relaxed_witness :
  "spend" ∈ map fst CANONICAL_COLUMNS
  /\ ("Cost per" ∉ ["Campaign"; "costperclick"])
  /\ _normalize "Cost per" <> ""
  /\ exists with_hint,
       SemanticColumnIdentifier ["Campaign"; "costperclick"] (Some [("spend", "Cost per")]) = Ok with_hint
       /\ ColumnMapping.resolve with_hint "spend" = Some "costperclick".
Proof.
  assert (H1 : "spend" ∈ map fst CANONICAL_COLUMNS)
    by (apply list_elem_of_In; simpl; tauto).
  assert (H2 : "Cost per" ∉ ["Campaign"; "costperclick"]).
  { intros H. apply list_elem_of_In in H. simpl in H.
    destruct H as [H|[H|H]]; [discriminate H | discriminate H | exact H]. }
  assert (H3 : _normalize "Cost per" <> "") by (vm_compute; discriminate).
  destruct (hint_resolution_relaxed ["Campaign"; "costperclick"] "spend" "Cost per" H1 H2 H3)
    as (_ & with_hint & without_hint & Hw & _ & Hm).
  split; [exact H1|]. split; [exact H2|]. split; [exact H3|].
  exists with_hint. split; [exact Hw|].
  replace (relaxed_hint_match (_normalize "Cost per") ["Campaign"; "costperclick"])
    with (Some "costperclick") in Hm by (vm_compute; reflexivity).
  exact Hm.
Defined.

(** C8, as the specification words it, fails on a hint that no header equals
    once normalized but that a header begins with: the headers
    [costperclick] and the hint [Cost per] for [spend] map [spend] to
    [costperclick], where synonym matching leaves [spend] unresolved. *)
Lemma hint_resolution_as_specified_counterexample : ~ hint_resolution_as_specified.
Proof.
  intros Hclaim.
  assert (H1 : "spend" ∈ map fst CANONICAL_COLUMNS)
    by (apply list_elem_of_In; simpl; tauto).
  assert (H2 : "Cost per" ∉ ["costperclick"]).
  { intros H. apply list_elem_of_In in H. simpl in H.
    destruct H as [H|H]; [discriminate H | exact H]. }
  assert (H3 : _normalize "Cost per" <> "") by (vm_compute; discriminate).
  destruct (identify_with_one_hint ["costperclick"] "spend" "Cost per" H1 H2 H3)
    as (with_hint & without_hint & Hw & Hwo & Hm).
  pose proof (Hclaim ["costperclick"] "spend" "Cost per" with_hint without_hint
                H1 H2 Hw Hwo) as Hspec.
  replace (relaxed_hint_match (_normalize "Cost per") ["costperclick"])
    with (Some "costperclick") in Hm by (vm_compute; reflexivity).
  rewrite Hm in Hspec.
  replace (List.find _ ["costperclick"]) with (@None string) in Hspec
    by (vm_compute; reflexivity).
  assert (Hplain : SemanticColumnIdentifier ["costperclick"] None = Ok ColumnMapping.empty)
    by (vm_compute; reflexivity).
  rewrite Hplain in Hwo. injection Hwo as <-.
  vm_compute in Hspec. discriminate Hspec.
Qed.

End Resolver.

(** ** The request boundary *)

Section RequestBoundary.

Variable repr_float : float -> string.
Variable repr_str : string -> string.
Variable str_of_aggregates : gmap string float -> string.

(** A run on an instance without rows stops in the first stage, at the read
    of the first row. *)
Lemma run_instance_without_rows (engine : Engine.InsightEngine)
    (request : InsightRequest.t) :
  InsightRequest.data request = [] ->
  Engine.run repr_float repr_str str_of_aggregates engine (Engine.Instance request)
  = Raise IndexError.
Proof.
  intros H. unfold Engine.run. rewrite bind_Ok. cbv zeta. rewrite H. reflexivity.
Qed.

(** C9: for every engine, whatever its stages do, and every request given as
    a dictionary of fields, a request without rows is rejected by the
    validation of the request: [run] answers the validation failure, which no
    stage can have produced or changed; a request with at least one row
    passes this validation and runs as the validated request does.  A payload
    that is already an [InsightRequest] is not validated by [run]: without
    rows, it enters the pipeline and the first stage raises [IndexError]
    before the column identifier is called. *)
Theorem empty_dataset_rejected_by_validation
    (engine : Engine.InsightEngine) (fields : InsightRequest.t) :
  (InsightRequest.data fields = [] ->
   InsightRequest.model_validate fields = Raise empty_dataset_error
   /\ Engine.run repr_float repr_str str_of_aggregates engine (Engine.Mapping fields)
      = Raise empty_dataset_error
   /\ Engine.run repr_float repr_str str_of_aggregates engine (Engine.Instance fields)
      = Raise IndexError)
  /\ (InsightRequest.data fields <> [] ->
      InsightRequest.model_validate fields = Ok fields
      /\ Engine.run repr_float repr_str str_of_aggregates engine (Engine.Mapping fields)
         = Engine.run repr_float repr_str str_of_aggregates engine (Engine.Instance fields)).
Proof.
  split; intros H.
  - split; [|split].
    + unfold InsightRequest.model_validate, InsightRequest._ensure_data.
      rewrite H. reflexivity.
    + unfold Engine.run, InsightRequest.model_validate, InsightRequest._ensure_data.
      rewrite H. reflexivity.
    + apply run_instance_without_rows, H.
  - assert (Hv : InsightRequest.model_validate fields = Ok fields).
    { unfold InsightRequest.model_validate, InsightRequest._ensure_data.
      destruct (InsightRequest.data fields) as [|row rows]; [contradiction | reflexivity]. }
    split; [exact Hv|]. unfold Engine.run. rewrite Hv. reflexivity.
Qed.

End RequestBoundary.

Lemma empty_dataset_rejected_by_validation_witness :
  InsightRequest.data empty_request = []
  /\ Engine.run (fun _ => "") (fun _ => "") (fun _ => "") failing_engine
       (Engine.Mapping empty_request)
     = Raise empty_dataset_error
  /\ Engine.run (fun _ => "") (fun _ => "") (fun _ => "")
       (Engine.default_engine (fun _ => Ok [])) (Engine.Mapping empty_request)
     = Raise empty_dataset_error
  /\ Engine.run (fun _ => "") (fun _ => "") (fun _ => "")
       (Engine.default_engine (fun _ => Ok [])) (Engine.Instance empty_request)
     = Raise IndexError
  /\ InsightRequest.data one_row_request <> []
  /\ InsightRequest.model_validate one_row_request = Ok one_row_request
  /\ Engine.run (fun _ => "") (fun _ => "") (fun _ => "") failing_engine
       (Engine.Mapping one_row_request)
     = Raise TypeError.
Proof.
  destruct (empty_dataset_rejected_by_validation (fun _ => "") (fun _ => "") (fun _ => "")
              failing_engine empty_request) as [He _].
  destruct (empty_dataset_rejected_by_validation (fun _ => "") (fun _ => "") (fun _ => "")
              (Engine.default_engine (fun _ => Ok [])) empty_request) as [Hd _].
  destruct (empty_dataset_rejected_by_validation (fun _ => "") (fun _ => "") (fun _ => "")
              failing_engine one_row_request) as [_ Hn].
  assert (Hrows : InsightRequest.data one_row_request <> []) by discriminate.
  split; [reflexivity|]. split; [apply He; reflexivity|].
  split; [apply Hd; reflexivity|]. split; [apply Hd; reflexivity|].
  split; [exact Hrows|]. split; [apply (Hn Hrows) | reflexivity].
Defined.

(** C9, as the specification words it, fails on a payload that is already an
    [InsightRequest] and holds no row: [run] does not validate it, and the
    read of the first row raises [IndexError] in the first stage. *)
Lemma empty_dataset_as_specified_counterexample : ~ empty_dataset_as_specified.
Proof.
  intros Hclaim.
  pose proof (Hclaim (fun _ => "") (fun _ => "") (fun _ => "") failing_engine
                (Engine.Instance empty_request) eq_refl) as Hspec.
  rewrite (run_instance_without_rows _ _ _ failing_engine empty_request eq_refl) in Hspec.
  discriminate Hspec.
Qed.

(** ** The scenario of the test suite *)

Section Scenario.

Local Open Scope float_scope.

Example normalize_examples :
  map ColumnIdentifier._normalize
    ["Status (pause/fix/test/keep)"; "CTR 7d %"; "  Cost__per  Click!! "; "ad_set_name"; "%"]
  = ["status pause fix test keep"; "ctr 7d"; "cost per click"; "ad set name"; ""].
Proof. vm_compute. reflexivity. Qed.

Example float_of_str_examples :
  map PyFloat.float_of_str ["2.5"; " 1e3 "; "1_000"; "-0"; "inf"; "1__0"; "5%0"; ""]
  = [Some 2.5; Some 1000; Some 1000; Some (-0); Some infinity; None; None; None].
Proof. vm_compute. reflexivity. Qed.

Example to_float_examples :
  map Metrics._to_float [VFloat 2.5; VInt 3; VBool true; VStr "2.5%"; VStr "n/a"; VNone]
  = [Ok 2.5; Ok 3; Ok 1; Ok 2.5; Ok nan; Ok nan].
Proof. vm_compute. reflexivity. Qed.

Example to_float_overflow :
  Metrics._to_float (VInt (2 ^ 1024)) = Raise OverflowError.
Proof. vm_compute. reflexivity. Qed.

(** An empty hint names no word: the relaxed match raises on it. *)
Example empty_hint_raises :
  ColumnIdentifier.SemanticColumnIdentifier ["Spend"] (Some [("spend", "%")])
  = Raise IndexError.
Proof. vm_compute. reflexivity. Qed.

(** The run of [test_engine_produces_rule_based_insights]: the mapping of
    [campaign_name], the codes of the findings and the diagnostics. *)
Example test_engine_produces_rule_based_insights :
  exists response,
    Engine.run (fun _ => "") (fun _ => "") (fun _ => "")
      (Engine.default_engine (fun _ => Ok (Text.of_str "summary")))
      (Engine.Mapping test_request) = Ok response
    /\ ColumnMapping.campaign_name (Engine.column_mapping response) = Some "Campaign name"
    /\ map Insight.code (Engine.insights response) =
         [ "roas_1_2"; "ctr_healthy_low_conversion"; "frequency_fatigue";
           "ctr_drop_vs_prev7"; "spend_no_purchases" ]
    /\ Engine.narrative (Engine.diagnostics response) = Some (Text.of_str "summary")
    /\ Engine.insight_count (Engine.diagnostics response) =
         Some (Z.of_nat (length (Engine.insights response)))
    /\ Engine.aggregate_metrics (Engine.diagnostics response) ≫= (.!! "avg_roas")
         = Some 1.2.
Proof. eexists. split; [vm_compute; reflexivity|]. repeat split. Qed.

End Scenario.

(** * Edge behaviour, invariants and composition *)

(** ** The Metric Deriver *)

Section ValidNumbers.

Import Metrics.
Local Open Scope float_scope.

(** X1: The validity test answers [True] exactly on the values that [float()]
    converts to a finite float (strings that parse included), it answers
    [False] on [None] and wherever the conversion raises [TypeError] or
    [ValueError], and it raises in one case only: [OverflowError] on an
    integer beyond the range of the floats. *)
Theorem is_valid_number_edges (v : value) :
  (_is_valid_number v = Ok true <-> exists f, py_float v = Ok f /\ is_finite f = true)
  /\ (_is_valid_number v = Ok false <->
      v = VNone \/ py_float v = Raise TypeError \/ py_float v = Raise ValueError
      \/ exists f, py_float v = Ok f /\ is_finite f = false)
  /\ (forall e, _is_valid_number v = Raise e <->
        e = OverflowError
        /\ exists z, v = VInt z /\ (PyFloat.int_overflow_bound <= Z.abs z)%Z).
Proof.
  destruct v as [|b|z|f|s|l|d]; cbn [_is_valid_number py_float].
  - split; [|split].
    + split; [discriminate | intros (f & H & _); discriminate H].
    + split; [tauto | reflexivity].
    + intros e. split; [discriminate | intros (_ & z & H & _); discriminate H].
  - split; [|split].
    + split; [intros [= H]; eexists; split; [reflexivity | exact H]
             | intros (f & [= <-] & ->); reflexivity].
    + split.
      * intros [= H]. right. right. right. eexists. split; [reflexivity | exact H].
      * intros [H | [H | [H | (f & [= <-] & ->)]]]; try discriminate H. reflexivity.
    + intros e. split; [discriminate | intros (_ & z & H & _); discriminate H].
  - unfold PyFloat.float_of_int.
    destruct (Z.ltb_spec (Z.abs z) PyFloat.int_overflow_bound) as [Hlt | Hge].
    + split; [|split].
      * split; [intros [= H]; eexists; split; [reflexivity | exact H]
               | intros (f & [= <-] & ->); reflexivity].
      * split.
        -- intros [= H]. right. right. right. eexists. split; [reflexivity | exact H].
        -- intros [H | [H | [H | (f & [= <-] & ->)]]]; try discriminate H. reflexivity.
      * intros e. split; [discriminate | intros (_ & z' & [= <-] & H); lia].
    + split; [|split].
      * split; [discriminate | intros (f & H & _); discriminate H].
      * split; [discriminate|].
        intros [H | [H | [H | (f & H & _)]]]; discriminate H.
      * intros e. split.
        -- intros [= <-]. split; [reflexivity|]. exists z. split; [reflexivity | exact Hge].
        -- intros (-> & _). reflexivity.
  - split; [|split].
    + split; [intros [= H]; eexists; split; [reflexivity | exact H]
             | intros (f' & [= <-] & ->); reflexivity].
    + split.
      * intros [= H]. right. right. right. eexists. split; [reflexivity | exact H].
      * intros [H | [H | [H | (f' & [= <-] & ->)]]]; try discriminate H. reflexivity.
    + intros e. split; [discriminate | intros (_ & z & H & _); discriminate H].
  - destruct (PyFloat.float_of_str s) as [f|].
    + split; [|split].
      * split; [intros [= H]; eexists; split; [reflexivity | exact H]
               | intros (f' & [= <-] & ->); reflexivity].
      * split.
        -- intros [= H]. right. right. right. eexists. split; [reflexivity | exact H].
        -- intros [H | [H | [H | (f' & [= <-] & ->)]]]; try discriminate H. reflexivity.
      * intros e. split; [discriminate | intros (_ & z & H & _); discriminate H].
    + split; [|split].
      * split; [discriminate | intros (f & H & _); discriminate H].
      * split; [tauto | reflexivity].
      * intros e. split; [discriminate | intros (_ & z & H & _); discriminate H].
  - split; [|split].
    + split; [discriminate | intros (f & H & _); discriminate H].
    + split; [tauto | reflexivity].
    + intros e. split; [discriminate | intros (_ & z & H & _); discriminate H].
  - split; [|split].
    + split; [discriminate | intros (f & H & _); discriminate H].
    + split; [tauto | reflexivity].
    + intros e. split; [discriminate | intros (_ & z & H & _); discriminate H].
Qed.

End ValidNumbers.

Section DeriverEdges.

Import Metrics.
Local Open Scope float_scope.

Lemma to_float_raises (v : value) (e : exn) :
  _to_float v = Raise e ->
  e = OverflowError
  /\ exists z, v = VInt z /\ (PyFloat.int_overflow_bound <= Z.abs z)%Z.
Proof.
  destruct v as [|b|z|f|s|l|d]; cbn [_to_float py_float]; try discriminate.
  - unfold PyFloat.float_of_int.
    destruct (Z.ltb_spec (Z.abs z) PyFloat.int_overflow_bound) as [_ | Hge]; [discriminate|].
    intros [= <-]. split; [reflexivity|]. exists z. split; [reflexivity | exact Hge].
  - destruct (PyFloat.float_of_str _); discriminate.
Qed.

Lemma store_metric_raises (mapping : ColumnMapping.t) (rec : record)
    (metrics : gmap string value) (canonical : string) (e : exn) :
  store_metric mapping rec metrics canonical = Raise e ->
  e = OverflowError /\ overflowing mapping rec canonical.
Proof.
  unfold store_metric, overflowing. intros H.
  destruct (ColumnMapping.resolve mapping canonical) as [column|]; [|discriminate H].
  destruct (is_numeric_field canonical); [|discriminate H].
  destruct (_to_float (record_get rec column)) as [f|e'] eqn:E; [discriminate H|].
  injection H as <-. destruct (to_float_raises _ _ E) as (-> & z & Hz & Hge).
  split; [reflexivity|]. exists column, z. auto.
Qed.

Lemma store_loop_raises (mapping : ColumnMapping.t) (rec : record) (l : list string) :
  forall (m0 : gmap string value) (e : exn),
    foldlM (store_metric mapping rec) l m0 = Raise e ->
    e = OverflowError /\ exists canonical, canonical ∈ l /\ overflowing mapping rec canonical.
Proof.
  induction l as [|a l IH]; intros m0 e H; [discriminate H|].
  cbn [foldlM] in H.
  destruct (store_metric mapping rec m0 a) as [m1|e'] eqn:E.
  - rewrite bind_Ok in H. destruct (IH _ _ H) as (-> & c & Hc & Ho).
    split; [reflexivity|]. exists c. split; [right; exact Hc | exact Ho].
  - injection H as <-. destruct (store_metric_raises _ _ _ _ _ E) as (-> & Ho).
    split; [reflexivity|]. exists a. split; [left | exact Ho].
Qed.

(** X2: The derivation of a row returns exactly on the records whose mapped
    numeric fields hold no integer beyond the range of the floats; on the
    others it raises [OverflowError], and it raises nothing else: a
    text that does not parse, a missing cell or a value of another type
    becomes not-a-number. *)
Theorem derive_row_fails_on_overflow_only (mapping : ColumnMapping.t) (rec : record) :
  (is_ok (derive_row mapping rec) <-> mapped_in_float_range mapping rec)
  /\ (forall e, derive_row mapping rec = Raise e ->
        e = OverflowError
        /\ exists canonical column z,
             canonical ∈ ColumnMapping.available_metrics mapping
             /\ ColumnMapping.resolve mapping canonical = Some column
             /\ is_numeric_field canonical = true
             /\ record_get rec column = VInt z
             /\ (PyFloat.int_overflow_bound <= Z.abs z)%Z).
Proof.
  split.
  - split.
    + intros [row H]. apply (derive_row_returns _ _ _ H).
    + intros H. destruct (derive_row_spec _ _ H) as (metrics & _ & _ & Hrow).
      eexists. exact Hrow.
  - intros e H. unfold derive_row in H.
    destruct (foldlM (store_metric mapping rec) (ColumnMapping.available_metrics mapping) ∅)
      as [metrics | e'] eqn:E.
    + exfalso.
      assert (Hr : mapped_in_float_range mapping rec).
      { intros c Hc. apply (store_loop_returns _ _ _ _ _ E c Hc). }
      destruct (derive_row_spec _ _ Hr) as (metrics' & _ & _ & Hrow).
      unfold derive_row in Hrow. rewrite E in Hrow. rewrite Hrow in H. discriminate H.
    + injection H as <-.
      destruct (store_loop_raises _ _ _ _ _ E) as (-> & c & Hc & column & z & H1 & H2 & H3 & H4).
      split; [reflexivity|]. exists c, column, z. auto.
Qed.

Lemma derived_row_form (mapping : ColumnMapping.t) (rec : record) (row : gmap string value) :
  derive_row mapping rec = Ok row ->
  exists metrics,
    (forall c, metrics !! c = coerced_entry mapping rec c)
    /\ row = with_synthetic metrics.
Proof.
  intros H.
  destruct (derive_row_spec _ _ (derive_row_returns _ _ _ H)) as (metrics & _ & Hce & Hrow).
  exists metrics. split; [exact Hce|]. congruence.
Qed.

Lemma coerced_entry_is_Some (mapping : ColumnMapping.t) (rec : record) (c : string) :
  is_Some (coerced_entry mapping rec c) <-> c ∈ ColumnMapping.available_metrics mapping.
Proof.
  unfold coerced_entry, entry.
  destruct (decide (c ∈ ColumnMapping.available_metrics mapping)) as [Hc | Hc].
  - rewrite (bool_decide_eq_true_2 _ Hc).
    destruct (proj1 (available_metrics_resolve _ _) Hc) as (column & -> & _).
    split; [intros _; exact Hc | intros _; eexists; reflexivity].
  - rewrite (bool_decide_eq_false_2 _ Hc).
    split; [intros [x Hx]; discriminate Hx | intros H; contradiction].
Qed.

(** X3: The keys of a derived row are the mapped canonical metrics and the three
    synthetic metrics, nothing else; the synthetic metrics and the mapped
    numeric fields hold floats (the sentinel included). *)
Theorem derived_row_keys (mapping : ColumnMapping.t) (rec : record)
    (row : gmap string value) :
  derive_row mapping rec = Ok row ->
  (forall k, is_Some (row !! k) <->
     k ∈ ColumnMapping.available_metrics mapping ++ ["ctr"; "atc_to_purchase"; "ctr_delta"])
  /\ (forall k, k ∈ ["ctr"; "atc_to_purchase"; "ctr_delta"] ->
        exists f, row !! k = Some (VFloat f))
  /\ (forall k, k ∈ ColumnMapping.available_metrics mapping -> is_numeric_field k = true ->
        exists f, row !! k = Some (VFloat f)).
Proof.
  intros H. destruct (derived_row_form _ _ _ H) as (metrics & Hce & ->).
  assert (Hsyn : forall k, k ∈ ["ctr"; "atc_to_purchase"; "ctr_delta"] ->
            exists f, with_synthetic metrics !! k = Some (VFloat f)).
  { intros k Hk. unfold with_synthetic.
    repeat (apply elem_of_cons in Hk as [-> | Hk]); [| | | inversion Hk].
    - rewrite !lookup_insert_ne by discriminate. rewrite lookup_insert_eq. eauto.
    - rewrite lookup_insert_ne by discriminate. rewrite lookup_insert_eq. eauto.
    - rewrite lookup_insert_eq. eauto. }
  split; [|split].
  - intros k. rewrite elem_of_app.
    destruct (decide (k ∈ ["ctr"; "atc_to_purchase"; "ctr_delta"])) as [Hk | Hk].
    + destruct (Hsyn k Hk) as [f Hf]. rewrite Hf. split; [tauto | eauto].
    + assert (k <> "ctr" /\ k <> "atc_to_purchase" /\ k <> "ctr_delta") as (N1 & N2 & N3).
      { repeat split; intros ->; apply Hk; apply list_elem_of_In; simpl; tauto. }
      rewrite (with_synthetic_other _ _ N1 N2 N3), Hce, coerced_entry_is_Some. tauto.
  - exact Hsyn.
  - intros k Hk Hnum.
    destruct (decide (k = "ctr")) as [-> | N1].
    { apply Hsyn. left. }
    assert (k <> "atc_to_purchase" /\ k <> "ctr_delta") as (N2 & N3).
    { split; intros ->; discriminate Hnum. }
    rewrite (with_synthetic_other _ _ N1 N2 N3).
    destruct (coerced_entry_float _ _ _ k Hce Hnum) as [Hn | Hf]; [|exact Hf].
    exfalso. pose proof (proj2 (coerced_entry_is_Some mapping rec k) Hk) as [x Hx].
    rewrite <- Hce, Hn in Hx. discriminate Hx.
Qed.

(** X4: In every derived row the synthetic [atc_to_purchase] is purchases over
    adds to cart, and [ctr_delta] is the relative change against [ctr_prev7]
    of [ctr_7d], or of the [ctr] of the row (the synthetic one) when [ctr_7d]
    is not a valid number; each is the sentinel when an operand is not a
    valid number or the denominator is zero. *)
Theorem derived_row_synthetic_metrics (mapping : ColumnMapping.t) (rec : record)
    (row : gmap string value) :
  derive_row mapping rec = Ok row ->
  row !! "atc_to_purchase" =
    Some (VFloat (ratio_as_specified (number row "purchases") (number row "adds_to_cart")))
  /\ row !! "ctr_delta" =
       Some (VFloat (ctr_delta_as_specified (number row "ctr_7d") (number row "ctr")
                       (number row "ctr_prev7"))).
Proof.
  intros H. destruct (derived_row_form _ _ _ H) as (metrics & Hce & ->).
  assert (Hnum : forall k, k <> "ctr" -> k <> "atc_to_purchase" -> k <> "ctr_delta" ->
            number (with_synthetic metrics) k = number metrics k).
  { intros k N1 N2 N3. unfold number. rewrite with_synthetic_other by assumption. reflexivity. }
  rewrite (Hnum "purchases"), (Hnum "adds_to_cart"), (Hnum "ctr_7d"), (Hnum "ctr_prev7")
    by discriminate.
  assert (Hctr : number (with_synthetic metrics) "ctr" =
            let c := ctr_as_specified (number metrics "ctr") (number metrics "clicks")
                       (number metrics "impressions") in
            if is_finite c then Some c else None).
  { unfold with_synthetic. rewrite !number_insert_ne by discriminate.
    apply number_insert_eq. }
  rewrite Hctr. cbv zeta. unfold with_synthetic. split.
  - rewrite lookup_insert_ne by discriminate. apply lookup_insert_eq.
  - apply lookup_insert_eq.
Qed.

End DeriverEdges.

Section CalculatorSummaries.

Import Metrics.
Local Open Scope float_scope.

Lemma fold_add_opt_none (rows : list (gmap string value)) :
  fold_left (fun o (row : gmap string value) => add_opt o None) rows None = None.
Proof. induction rows as [|row rows IH]; [reflexivity | exact IH]. Qed.

Lemma aggregate_lookup (rows : list (gmap string value)) :
  (forall row, row ∈ rows -> aggregable row) ->
  (Z.of_nat (length rows) < PyFloat.int_overflow_bound)%Z ->
  exists agg,
    _aggregate rows = Ok agg /\ forall k, agg !! k = aggregate_entry k rows.
Proof.
  intros Hrows Hlen. unfold _aggregate.
  rewrite (rows_loop_spec rows _ Hrows), bind_Ok.
  set (a := fold_left bump_row rows (∅, ∅)).
  assert (Hsums : forall k, a.1 !! k =
            fold_left (fun o row => add_opt o (contribution k row)) rows None).
  { intros k. unfold a. rewrite rows_sums. reflexivity. }
  assert (Hcounts : forall k, a.2 !! k =
            match averaged k with
            | Some f => length_opt (valid_values f rows)
            | None => None
            end).
  { intros k. unfold a. rewrite rows_counts.
    destruct (averaged k); [apply fold_count_opt | reflexivity]. }
  assert (Havg : forall k f, averaged k = Some f ->
            a.1 !! k = sum_opt (valid_values f rows)).
  { intros k f Hk. rewrite Hsums. apply sum_opt_contribution.
    unfold contribution.
    destruct (totalled k) as [g|] eqn:Et.
    - rewrite (totalled_not_averaged _ _ Et) in Hk. discriminate Hk.
    - rewrite Hk. reflexivity. }
  destruct (divide_loop a.1 a.2) as (agg & Hagg & Hlk).
  { intros k c Hk. rewrite Hcounts in Hk.
    destruct (averaged k) as [f|] eqn:Ea; [|discriminate Hk].
    rewrite (Havg k f Ea). unfold valid_values in *.
    pose proof (omap_length_le (fun row => number row f) rows) as Hle.
    destruct (omap _ rows) as [|v vs]; [discriminate Hk|].
    injection Hk as <-. split; [|eexists; reflexivity].
    cbn [length] in *. lia. }
  exists agg. split; [exact Hagg|].
  intros k. rewrite Hlk, Hcounts. unfold aggregate_entry.
  destruct (totalled k) as [f|] eqn:Et.
  - rewrite (totalled_not_averaged _ _ Et), Hsums.
    apply sum_opt_contribution. unfold contribution. rewrite Et. reflexivity.
  - destruct (averaged k) as [f|] eqn:Ea.
    + rewrite (Havg _ f Ea). unfold length_opt, sum_opt, float_mean.
      destruct (valid_values f rows); reflexivity.
    + rewrite Hsums. unfold contribution. rewrite Et, Ea. apply fold_add_opt_none.
Qed.

Lemma mapM_result_Forall2 {A B : Type} (f : A -> result B) (l : list A) (bs : list B) :
  mapM_result f l = Ok bs <-> Forall2 (fun a b => f a = Ok b) l bs.
Proof.
  revert bs. induction l as [|a l IH]; intros bs.
  - split; [intros [= <-]; constructor | intros H; inversion H; reflexivity].
  - cbn [mapM_result]. split.
    + intros H. apply bind_Ok_inv in H as (b & Hb & H).
      apply bind_Ok_inv in H as (bs' & Hbs & [= <-]).
      constructor; [exact Hb | apply IH, Hbs].
    + intros H. inversion H as [|a' b l' bs' Hb Hbs]; subst.
      rewrite Hb, bind_Ok. rewrite (proj2 (IH bs') Hbs), bind_Ok. reflexivity.
Qed.

Lemma mapM_result_raises {A B : Type} (f : A -> result B) (l : list A) (e : exn) :
  mapM_result f l = Raise e -> exists a, a ∈ l /\ f a = Raise e.
Proof.
  induction l as [|a l IH]; [discriminate|]. cbn [mapM_result]. intros H.
  destruct (f a) as [b|e'] eqn:E.
  - rewrite bind_Ok in H. destruct (mapM_result f l) as [bs|e''].
    + discriminate H.
    + injection H as <-. destruct (IH eq_refl) as (a' & Ha & Hf).
      exists a'. split; [right; exact Ha | exact Hf].
  - injection H as <-. exists a. split; [left | exact E].
Qed.

Lemma mapM_result_returns {A B : Type} (f : A -> result B) (l : list A) :
  (forall a, a ∈ l -> is_ok (f a)) -> is_ok (mapM_result f l).
Proof.
  intros H. destruct (mapM_result f l) as [bs|e] eqn:E; [eexists; reflexivity|].
  destruct (mapM_result_raises _ _ _ E) as (a & Ha & Hf).
  destruct (H a Ha) as [b Hb]. congruence.
Qed.

Lemma mapM_result_each {A B : Type} (f : A -> result B) (l : list A) (bs : list B) :
  mapM_result f l = Ok bs -> forall a, a ∈ l -> is_ok (f a).
Proof.
  revert bs. induction l as [|a l IH]; intros bs H a' Ha; [inversion Ha|].
  cbn [mapM_result] in H. apply bind_Ok_inv in H as (b & Hb & H).
  apply bind_Ok_inv in H as (bs' & Hbs & _).
  apply elem_of_cons in Ha as [-> | Ha]; [eexists; exact Hb | apply (IH _ Hbs _ Ha)].
Qed.

Lemma derive_row_raises_overflow (mapping : ColumnMapping.t) (rec : record) (e : exn) :
  derive_row mapping rec = Raise e -> e = OverflowError.
Proof.
  intros H. unfold derive_row in H.
  destruct (foldlM (store_metric mapping rec) (ColumnMapping.available_metrics mapping) ∅)
    as [metrics | e'] eqn:E.
  - exfalso.
    assert (Hr : mapped_in_float_range mapping rec).
    { intros c Hc. apply (store_loop_returns _ _ _ _ _ E c Hc). }
    destruct (derive_row_spec _ _ Hr) as (metrics' & _ & _ & Hrow).
    unfold derive_row in Hrow. rewrite E in Hrow. rewrite Hrow in H. discriminate H.
  - injection H as <-. apply (store_loop_raises _ _ _ _ _ E).
Qed.

Lemma derive_rows_aggregable (records : list record) (mapping : ColumnMapping.t)
    (rows : list (gmap string value)) :
  _derive_row_metrics records mapping = Ok rows ->
  length rows = length records /\ forall row, row ∈ rows -> aggregable row /\ rule_safe row.
Proof.
  unfold _derive_row_metrics. intros H. split.
  - apply mapM_result_Forall2 in H. symmetry. apply (Forall2_length _ _ _ H).
  - intros row Hrow. destruct (mapM_result_elem _ _ _ _ H Hrow) as (rec & _ & Hrec).
    apply (derived_row_entries mapping rec row Hrec).
Qed.

(** X5: The Metric Deriver returns a summary exactly when every record can be
    derived, and otherwise raises [OverflowError]; the summary carries the
    mapping it was given, one derived row per record in the order of the
    records, and the aggregates of these rows. *)
Theorem calculator_summary (records : list record) (mapping : ColumnMapping.t) :
  (Z.of_nat (length records) < PyFloat.int_overflow_bound)%Z ->
  (is_ok (MetricCalculator records mapping) <->
   forall rec, rec ∈ records -> mapped_in_float_range mapping rec)
  /\ (forall s, MetricCalculator records mapping = Ok s ->
        column_mapping s = mapping
        /\ Forall2 (fun rec row => derive_row mapping rec = Ok row) records (per_row s)
        /\ _aggregate (per_row s) = Ok (aggregates s))
  /\ (forall e, MetricCalculator records mapping = Raise e -> e = OverflowError).
Proof.
  intros Hlen.
  assert (Hagg : forall rows, _derive_row_metrics records mapping = Ok rows ->
            is_ok (_aggregate rows)).
  { intros rows Hrows. destruct (derive_rows_aggregable _ _ _ Hrows) as [Hl Ha].
    destruct (aggregate_lookup rows) as (agg & Hagg & _).
    - intros row Hrow. apply (Ha row Hrow).
    - rewrite Hl. exact Hlen.
    - eexists. exact Hagg. }
  split; [|split].
  - split.
    + intros [s H] rec Hrec. unfold MetricCalculator in H.
      apply bind_Ok_inv in H as (rows & Hrows & _).
      destruct (mapM_result_each _ _ _ Hrows rec Hrec) as [row Hrow].
      apply (derive_row_returns _ _ _ Hrow).
    + intros H. unfold MetricCalculator.
      destruct (mapM_result_returns (derive_row mapping) records) as [rows Hrows].
      { intros rec Hrec. destruct (derive_row_spec _ _ (H rec Hrec)) as (m & _ & _ & Hm).
        eexists. exact Hm. }
      unfold _derive_row_metrics at 1. rewrite Hrows, bind_Ok.
      destruct (Hagg rows Hrows) as [agg ->]. rewrite bind_Ok. eexists. reflexivity.
  - intros s H. unfold MetricCalculator in H.
    apply bind_Ok_inv in H as (rows & Hrows & H).
    apply bind_Ok_inv in H as (agg & Ha & [= <-]). cbn [column_mapping per_row aggregates].
    split; [reflexivity|]. split; [|exact Ha]. apply mapM_result_Forall2, Hrows.
  - intros e H. unfold MetricCalculator in H.
    destruct (_derive_row_metrics records mapping) as [rows|e'] eqn:Hrows.
    + rewrite bind_Ok in H. destruct (Hagg rows eq_refl) as [agg Ha].
      rewrite Ha, bind_Ok in H. discriminate H.
    + injection H as <-. destruct (mapM_result_raises _ _ _ Hrows) as (rec & _ & Hrec).
      apply (derive_row_raises_overflow _ _ _ Hrec).
Qed.

End CalculatorSummaries.

Section MappedColumnsOnly.

Import Metrics.
Local Open Scope float_scope.

Lemma coerced_entry_agree (mapping : ColumnMapping.t) (rec1 rec2 : record) (c : string) :
  (forall canonical column,
     ColumnMapping.resolve mapping canonical = Some column ->
     record_get rec1 column = record_get rec2 column) ->
  coerced_entry mapping rec1 c = coerced_entry mapping rec2 c.
Proof.
  intros Hagree. unfold coerced_entry, entry, stored.
  destruct (bool_decide _); [|reflexivity].
  destruct (ColumnMapping.resolve mapping c) as [column|] eqn:E; [|reflexivity].
  rewrite (Hagree c column E). reflexivity.
Qed.

Lemma mapped_in_float_range_agree (mapping : ColumnMapping.t) (rec1 rec2 : record) :
  (forall canonical column,
     ColumnMapping.resolve mapping canonical = Some column ->
     record_get rec1 column = record_get rec2 column) ->
  mapped_in_float_range mapping rec1 -> mapped_in_float_range mapping rec2.
Proof.
  intros Hagree H canonical Hc column Hres Hnum.
  rewrite <- (Hagree canonical column Hres). apply (H canonical Hc column Hres Hnum).
Qed.

(** X6: The derivation of a row reads the cells of the mapped headers and
    nothing else: two records that agree on these cells have the same derived
    row, or both make the derivation raise [OverflowError]. *)
Theorem derive_row_reads_mapped_columns_only (mapping : ColumnMapping.t)
    (rec1 rec2 : record) :
  (forall canonical column,
     ColumnMapping.resolve mapping canonical = Some column ->
     record_get rec1 column = record_get rec2 column) ->
  derive_row mapping rec1 = derive_row mapping rec2.
Proof.
  intros Hagree.
  assert (Hback : forall canonical column,
            ColumnMapping.resolve mapping canonical = Some column ->
            record_get rec2 column = record_get rec1 column).
  { intros canonical column H. symmetry. apply (Hagree canonical column H). }
  destruct (derive_row mapping rec1) as [row1|e1] eqn:E1.
  - pose proof (derive_row_returns _ _ _ E1) as Hr1.
    pose proof (mapped_in_float_range_agree _ _ _ Hagree Hr1) as Hr2.
    destruct (derive_row_spec _ _ Hr1) as (m1 & _ & Hm1 & Hrow1).
    destruct (derive_row_spec _ _ Hr2) as (m2 & _ & Hm2 & Hrow2).
    rewrite Hrow2. rewrite Hrow1 in E1. rewrite <- E1. do 2 f_equal.
    apply map_eq. intros c. rewrite Hm1, Hm2.
    apply (coerced_entry_agree _ _ _ _ Hagree).
  - destruct (derive_row mapping rec2) as [row2|e2] eqn:E2.
    + exfalso. pose proof (derive_row_returns _ _ _ E2) as Hr2.
      pose proof (mapped_in_float_range_agree _ _ _ Hback Hr2) as Hr1.
      destruct (derive_row_spec _ _ Hr1) as (m1 & _ & _ & Hrow1). congruence.
    + rewrite (derive_row_raises_overflow _ _ _ E1), (derive_row_raises_overflow _ _ _ E2).
      reflexivity.
Qed.

Lemma derive_row_reads_mapped_columns_only_witness :
  derive_row overflow_mapping clicks_record
  = derive_row overflow_mapping (("Notes", VStr "draft") :: clicks_record ++ [("Spend", VInt 7)]).
Proof.
  apply derive_row_reads_mapped_columns_only.
  intros canonical column H.
  pose proof (resolve_canonical _ _ _ H) as Hkey.
  unfold CANONICAL_COLUMNS in Hkey. cbn [map fst] in Hkey.
  repeat (apply elem_of_cons in Hkey as [-> | Hkey]); [.. | inversion Hkey];
    vm_compute in H; try discriminate H; injection H as <-; reflexivity.
Defined.

End MappedColumnsOnly.

Section AggregateKeys.

Import Metrics.
Local Open Scope float_scope.

Lemma totalled_iff (k f : string) :
  totalled k = Some f <-> f ∈ total_fields /\ k = total_key f.
Proof.
  split.
  - intros H. apply find_some in H as [Hin Heq].
    split; [apply list_elem_of_In, Hin | apply String.eqb_eq, Heq].
  - intros [Hf ->]. apply (totalled_total_key f Hf).
Qed.

Lemma averaged_iff (k f : string) :
  averaged k = Some f <-> f ∈ average_fields /\ k = avg_key f.
Proof.
  split.
  - intros H. apply find_some in H as [Hin Heq].
    split; [apply list_elem_of_In, Hin | apply String.eqb_eq, Heq].
  - intros [Hf ->]. apply (averaged_avg_key f Hf).
Qed.

Lemma number_Some (row : gmap string value) (f : string) (x : float) :
  number row f = Some x <-> row !! f = Some (VFloat x) /\ is_finite x = true.
Proof.
  unfold number. destruct (row !! f) as [[|b|z|y|s|l|d]|]; try (split; [discriminate | intros [[=] _]]).
  - destruct (is_finite y) eqn:E.
    + split; [intros [= <-]; auto | intros [[= <-] _]; reflexivity].
    + split; [discriminate | intros [[= <-] H]; congruence].
Qed.

Lemma valid_values_nonempty (f : string) (rows : list (gmap string value)) :
  valid_values f rows <> [] <->
  exists row x, row ∈ rows /\ row !! f = Some (VFloat x) /\ is_finite x = true.
Proof.
  unfold valid_values. split.
  - intros H. destruct (omap _ rows) as [|x vs] eqn:E; [contradiction|].
    assert (Hx : x ∈ omap (fun row => number row f) rows) by (rewrite E; left).
    apply list_elem_of_omap in Hx as (row & Hrow & Hn).
    exists row, x. split; [exact Hrow | apply number_Some, Hn].
  - intros (row & x & Hrow & Hx) E.
    assert (Hin : x ∈ omap (fun row => number row f) rows).
    { apply list_elem_of_omap. exists row. split; [exact Hrow | apply number_Some, Hx]. }
    rewrite E in Hin. inversion Hin.
Qed.

Lemma aggregate_entry_is_Some (k : string) (rows : list (gmap string value)) :
  is_Some (aggregate_entry k rows) <->
  exists f, (f ∈ total_fields /\ k = total_key f \/ f ∈ average_fields /\ k = avg_key f)
            /\ valid_values f rows <> [].
Proof.
  unfold aggregate_entry. split.
  - destruct (totalled k) as [f|] eqn:Et.
    + intros [x Hx]. exists f. split; [left; apply totalled_iff, Et|].
      intros E. rewrite E in Hx. discriminate Hx.
    + destruct (averaged k) as [f|] eqn:Ea; [|intros [x Hx]; discriminate Hx].
      intros [x Hx]. exists f. split; [right; apply averaged_iff, Ea|].
      intros E. rewrite E in Hx. discriminate Hx.
  - intros (f & [Hf | Hf] & Hne).
    + apply totalled_iff in Hf. rewrite Hf. unfold sum_opt.
      destruct (valid_values f rows); [contradiction | eexists; reflexivity].
    + apply averaged_iff in Hf as Ha.
      destruct (totalled k) as [g|] eqn:Et.
      { rewrite (totalled_not_averaged _ _ Et) in Ha. discriminate Ha. }
      rewrite Ha. destruct (valid_values f rows); [contradiction | eexists; reflexivity].
Qed.

(** X7: The aggregates of a summary hold a key exactly when it is the total
    of one of the six totalled fields or the average of one of the seven
    averaged fields, as the specification lists them, and some derived row
    holds a finite value of the field: no other key is ever written, and a
    field without a valid value has no aggregate (not a zero). *)
Theorem aggregate_keys (records : list record) (mapping : ColumnMapping.t)
    (s : MetricSummary) :
  (Z.of_nat (length records) < PyFloat.int_overflow_bound)%Z ->
  MetricCalculator records mapping = Ok s ->
  forall k,
    is_Some (aggregates s !! k) <->
    exists f,
      (f ∈ total_fields_as_specified /\ k = total_key f
       \/ f ∈ average_fields_as_specified /\ k = avg_key f)
      /\ exists row x, row ∈ per_row s /\ row !! f = Some (VFloat x) /\ is_finite x = true.
Proof.
  intros Hlen H k. unfold MetricCalculator in H.
  apply bind_Ok_inv in H as (rows & Hrows & H).
  apply bind_Ok_inv in H as (agg & Ha & [= <-]). cbn [per_row aggregates].
  destruct (derive_rows_aggregable _ _ _ Hrows) as [Hl Hr].
  destruct (aggregate_lookup rows) as (agg' & Hagg & Hlk).
  { intros row Hrow. apply (Hr row Hrow). }
  { rewrite Hl. exact Hlen. }
  rewrite Hagg in Ha. injection Ha as <-.
  rewrite Hlk, aggregate_entry_is_Some.
  split; intros (f & Hf & Hv); exists f;
    (split; [rewrite ?total_fields_listed, ?average_fields_listed in *; exact Hf|]);
    apply valid_values_nonempty, Hv.
Qed.

End AggregateKeys.

Section DeriverWitnesses.

Import Metrics.
Local Open Scope float_scope.

Lemma derived_row_keys_witness :
  exists row,
    derive_row overflow_mapping clicks_record = Ok row
    /\ (forall k, is_Some (row !! k) <->
          k ∈ ColumnMapping.available_metrics overflow_mapping
              ++ ["ctr"; "atc_to_purchase"; "ctr_delta"])
    /\ ColumnMapping.available_metrics overflow_mapping = ["impressions"; "clicks"]
    /\ row !! "clicks" = Some (VFloat 250).
Proof.
  destruct (derive_row_spec overflow_mapping clicks_record
              (in_range_mapped _ _ clicks_record_in_float_range))
    as (metrics & _ & Hce & Hrow).
  exists (with_synthetic metrics). split; [exact Hrow|]. split.
  - apply (derived_row_keys _ _ _ Hrow).
  - split; [vm_compute; reflexivity|].
    rewrite with_synthetic_other, Hce by discriminate. vm_compute. reflexivity.
Defined.

Lemma derived_row_synthetic_metrics_witness :
  exists row,
    derive_row overflow_mapping clicks_record = Ok row
    /\ row !! "atc_to_purchase" =
         Some (VFloat (ratio_as_specified (number row "purchases") (number row "adds_to_cart")))
    /\ row !! "ctr_delta" =
         Some (VFloat (ctr_delta_as_specified (number row "ctr_7d") (number row "ctr")
                         (number row "ctr_prev7")))
    /\ number row "adds_to_cart" = None.
Proof.
  destruct (derive_row_spec overflow_mapping clicks_record
              (in_range_mapped _ _ clicks_record_in_float_range))
    as (metrics & _ & Hce & Hrow).
  exists (with_synthetic metrics). split; [exact Hrow|].
  destruct (derived_row_synthetic_metrics _ _ _ Hrow) as [H1 H2].
  split; [exact H1|]. split; [exact H2|].
  unfold number. rewrite with_synthetic_other, Hce by discriminate. vm_compute. reflexivity.
Defined.

Lemma derive_row_fails_on_overflow_only_witness :
  derive_row overflow_mapping [("Clicks", VInt (2 ^ 1024)); ("Impressions", VInt 10)]
    = Raise OverflowError
  /\ is_ok (derive_row overflow_mapping [("Clicks", VStr "n/a"); ("Impressions", VNone)]).
Proof.
  split.
  - destruct (derive_row overflow_mapping
                [("Clicks", VInt (2 ^ 1024)); ("Impressions", VInt 10)]) as [row|e] eqn:E.
    + vm_compute in E. discriminate E.
    + f_equal.
      apply (proj2 (derive_row_fails_on_overflow_only overflow_mapping
                      [("Clicks", VInt (2 ^ 1024)); ("Impressions", VInt 10)]) e E).
  - apply (proj1 (derive_row_fails_on_overflow_only overflow_mapping
                    [("Clicks", VStr "n/a"); ("Impressions", VNone)])).
    apply in_range_mapped. intros column z. unfold record_get. simpl.
    repeat (destruct (String.eqb column _); [discriminate|]). discriminate.
Defined.

Lemma calculator_summary_witness :
  (Z.of_nat (length [clicks_record; overflow_record]) < PyFloat.int_overflow_bound)%Z
  /\ exists s,
       MetricCalculator [clicks_record; overflow_record] overflow_mapping = Ok s
       /\ column_mapping s = overflow_mapping
       /\ length (per_row s) = 2%nat.
Proof.
  assert (Hlen : (Z.of_nat (length [clicks_record; overflow_record])
                  < PyFloat.int_overflow_bound)%Z) by reflexivity.
  split; [exact Hlen|].
  destruct (proj2 (proj1 (calculator_summary [clicks_record; overflow_record]
                            overflow_mapping Hlen))) as [s Hs].
  { intros rec Hrec. apply in_range_mapped.
    apply elem_of_cons in Hrec as [-> | Hrec];
      [exact clicks_record_in_float_range|].
    apply elem_of_cons in Hrec as [-> | Hrec];
      [exact overflow_record_in_float_range | inversion Hrec]. }
  exists s. split; [exact Hs|].
  destruct (proj1 (proj2 (calculator_summary [clicks_record; overflow_record]
                            overflow_mapping Hlen)) s Hs) as (Hm & Hrows & _).
  split; [exact Hm|]. symmetry. apply (Forall2_length _ _ _ Hrows).
Defined.

Lemma aggregate_keys_witness :
  (Z.of_nat (length [clicks_record]) < PyFloat.int_overflow_bound)%Z
  /\ exists s,
       MetricCalculator [clicks_record] overflow_mapping = Ok s
       /\ aggregates s !! "total_clicks" = Some 250
       /\ exists f,
            (f ∈ total_fields_as_specified /\ "total_clicks" = total_key f
             \/ f ∈ average_fields_as_specified /\ "total_clicks" = avg_key f)
            /\ exists row x,
                 row ∈ per_row s /\ row !! f = Some (VFloat x) /\ is_finite x = true.
Proof.
  assert (Hlen : (Z.of_nat (length [clicks_record]) < PyFloat.int_overflow_bound)%Z)
    by reflexivity.
  split; [exact Hlen|].
  destruct (MetricCalculator [clicks_record] overflow_mapping) as [s|e] eqn:E;
    [|vm_compute in E; discriminate E].
  exists s. split; [reflexivity|].
  assert (Hk : aggregates s !! "total_clicks" = Some 250).
  { clear Hlen. vm_compute in E. injection E as <-. vm_compute. reflexivity. }
  split; [exact Hk|].
  apply (proj1 (aggregate_keys _ _ _ Hlen E "total_clicks")).
  rewrite Hk. eexists. reflexivity.
Defined.

End DeriverWitnesses.

(** ** The Rule Engine *)

Section AverageRules.

Import Metrics InsightRules.
Local Open Scope float_scope.

Lemma builtin_code_contributed (s : MetricSummary) (rule : Rule.t) :
  (forall row, row ∈ per_row s -> rule_safe row) ->
  rule ∈ builtin_rules ->
  exists out,
    RuleBasedInsightAgent.call (RuleBasedInsightAgent.init None) s = Ok out
    /\ ((exists i, i ∈ out /\ Insight.code i = Rule.code rule)
        <-> Rule.applies rule {| summary := s |} = Ok true).
Proof.
  intros Hsafe Hrule.
  destruct (evaluation_codes s Hsafe) as (out & Hcall & _ & Hcodes).
  exists out. split; [exact Hcall|].
  assert (Hc : Rule.code rule ∈ rule_codes).
  { unfold builtin_rules in Hrule.
    repeat (apply elem_of_cons in Hrule as [-> | Hrule]); [.. | inversion Hrule];
      apply list_elem_of_In; simpl; tauto. }
  rewrite (code_among_findings s out _ Hcodes Hc).
  destruct (builtin_rule_facts s rule Hsafe Hrule) as [-> _].
  split; [intros -> | intros [= ->]]; reflexivity.
Qed.

(** X8: The rule [ctr_healthy_low_conversion] applies exactly when the average
    [ctr] is at least 0.015 and the average [atc_to_purchase] is absent or
    below 0.2; an absent or not-a-number average [ctr] never fires it.  Its
    finding is a warning that carries the two averages ([0.0] for an absent
    one), and the agent contributes it exactly when the rule applies. *)
Theorem healthy_ctr_rule_contributes (s : MetricSummary) :
  let ctx := {| summary := s |} in
  (Rule.applies _HealthyCtrWeakConversionRule ctx = Ok true <->
   exists ctr,
     aggregates s !! "avg_ctr" = Some ctr /\ (0.015 <=? ctr) = true
     /\ (aggregates s !! "avg_atc_to_purchase" = None
         \/ exists atc, aggregates s !! "avg_atc_to_purchase" = Some atc
                        /\ (atc <? 0.2) = true))
  /\ (exists i,
        Rule.build_insight _HealthyCtrWeakConversionRule ctx = Ok i
        /\ Insight.code i = "ctr_healthy_low_conversion"
        /\ Insight.severity i = warning
        /\ Insight.metrics i =
             [("avg_ctr", VFloat (default 0 (aggregates s !! "avg_ctr")));
              ("avg_atc_to_purchase",
               VFloat (default 0 (aggregates s !! "avg_atc_to_purchase")))])
  /\ ((forall row, row ∈ per_row s -> rule_safe row) ->
      exists out,
        RuleBasedInsightAgent.call (RuleBasedInsightAgent.init None) s = Ok out
        /\ ((exists i, i ∈ out /\ Insight.code i = "ctr_healthy_low_conversion")
            <-> Rule.applies _HealthyCtrWeakConversionRule ctx = Ok true)).
Proof.
  cbv zeta. split; [|split].
  - cbn [Rule.applies _HealthyCtrWeakConversionRule summary].
    destruct (aggregates s !! "avg_ctr") as [ctr|].
    + rewrite healthy_ctr_test.
      destruct (aggregates s !! "avg_atc_to_purchase") as [atc|].
      * split.
        -- intros [= H]. apply andb_true_iff in H as [H1 H2].
           exists ctr. split; [reflexivity|]. split; [exact H1|]. right. eauto.
        -- intros (c & [= <-] & H1 & [H2 | (a & [= <-] & H2)]); [discriminate H2|].
           rewrite H1, H2. reflexivity.
      * rewrite andb_true_r. split.
        -- intros [= H]. exists ctr. auto.
        -- intros (c & [= <-] & H1 & _). rewrite H1. reflexivity.
    + split; [discriminate | intros (c & H & _); discriminate H].
  - eexists. split; [reflexivity|]. repeat split.
  - intros Hsafe.
    apply (builtin_code_contributed s _HealthyCtrWeakConversionRule Hsafe).
    apply list_elem_of_In. simpl. tauto.
Qed.

Lemma healthy_ctr_rule_contributes_witness :
  Rule.applies _HealthyCtrWeakConversionRule {| summary := fatigued_summary |} = Ok true
  /\ exists out,
       RuleBasedInsightAgent.call (RuleBasedInsightAgent.init None) fatigued_summary = Ok out
       /\ exists i, i ∈ out /\ Insight.code i = "ctr_healthy_low_conversion".
Proof.
  destruct (healthy_ctr_rule_contributes fatigued_summary) as (Happ & _ & Hcall).
  assert (Ha : Rule.applies _HealthyCtrWeakConversionRule {| summary := fatigued_summary |}
               = Ok true) by reflexivity.
  split; [exact Ha|].
  destruct Hcall as (out & Hout & Hiff).
  { intros row Hrow. inversion Hrow. }
  exists out. split; [exact Hout|]. apply Hiff, Ha.
Defined.

(** X9: The rule [frequency_fatigue] applies exactly when the average frequency
    is at least 3.5; its finding is a warning that carries the average, and
    the agent contributes it exactly when the rule applies. *)
Theorem frequency_rule_contributes (s : MetricSummary) :
  let ctx := {| summary := s |} in
  (Rule.applies _HighFrequencyFatigueRule ctx = Ok true <->
   exists frequency,
     aggregates s !! "avg_frequency" = Some frequency /\ (3.5 <=? frequency) = true)
  /\ (exists i,
        Rule.build_insight _HighFrequencyFatigueRule ctx = Ok i
        /\ Insight.code i = "frequency_fatigue"
        /\ Insight.severity i = warning
        /\ Insight.metrics i =
             [("avg_frequency", VFloat (default 0 (aggregates s !! "avg_frequency")))])
  /\ ((forall row, row ∈ per_row s -> rule_safe row) ->
      exists out,
        RuleBasedInsightAgent.call (RuleBasedInsightAgent.init None) s = Ok out
        /\ ((exists i, i ∈ out /\ Insight.code i = "frequency_fatigue")
            <-> Rule.applies _HighFrequencyFatigueRule ctx = Ok true)).
Proof.
  cbv zeta. split; [|split].
  - cbn [Rule.applies _HighFrequencyFatigueRule summary].
    destruct (aggregates s !! "avg_frequency") as [f|].
    + rewrite high_frequency_test. split.
      * intros [= H]. exists f. auto.
      * intros (c & [= <-] & H1). rewrite H1. reflexivity.
    + split; [discriminate | intros (c & H & _); discriminate H].
  - eexists. split; [reflexivity|]. repeat split.
  - intros Hsafe.
    apply (builtin_code_contributed s _HighFrequencyFatigueRule Hsafe).
    apply list_elem_of_In. simpl. tauto.
Qed.

Lemma frequency_rule_contributes_witness :
  Rule.applies _HighFrequencyFatigueRule {| summary := fatigued_summary |} = Ok true
  /\ exists out,
       RuleBasedInsightAgent.call (RuleBasedInsightAgent.init None) fatigued_summary = Ok out
       /\ exists i, i ∈ out /\ Insight.code i = "frequency_fatigue".
Proof.
  destruct (frequency_rule_contributes fatigued_summary) as (Happ & _ & Hcall).
  assert (Ha : Rule.applies _HighFrequencyFatigueRule {| summary := fatigued_summary |}
               = Ok true) by reflexivity.
  split; [exact Ha|].
  destruct Hcall as (out & Hout & Hiff).
  { intros row Hrow. inversion Hrow. }
  exists out. split; [exact Hout|]. apply Hiff, Ha.
Defined.

(** X10: The rule [ctr_drop_vs_prev7] applies exactly when the average
    [ctr_delta] is below -0.1; its finding is critical and carries the
    average, and the agent contributes it exactly when the rule applies. *)
Theorem ctr_drop_rule_contributes (s : MetricSummary) :
  let ctx := {| summary := s |} in
  (Rule.applies _CtrDropRule ctx = Ok true <->
   exists delta,
     aggregates s !! "avg_ctr_delta" = Some delta /\ (delta <? -0.1) = true)
  /\ (exists i,
        Rule.build_insight _CtrDropRule ctx = Ok i
        /\ Insight.code i = "ctr_drop_vs_prev7"
        /\ Insight.severity i = critical
        /\ Insight.metrics i =
             [("avg_ctr_delta", VFloat (default 0 (aggregates s !! "avg_ctr_delta")))])
  /\ ((forall row, row ∈ per_row s -> rule_safe row) ->
      exists out,
        RuleBasedInsightAgent.call (RuleBasedInsightAgent.init None) s = Ok out
        /\ ((exists i, i ∈ out /\ Insight.code i = "ctr_drop_vs_prev7")
            <-> Rule.applies _CtrDropRule ctx = Ok true)).
Proof.
  cbv zeta. split; [|split].
  - cbn [Rule.applies _CtrDropRule summary].
    destruct (aggregates s !! "avg_ctr_delta") as [f|].
    + split.
      * intros [= H]. exists f. auto.
      * intros (c & [= <-] & H1). rewrite H1. reflexivity.
    + split; [discriminate | intros (c & H & _); discriminate H].
  - eexists. split; [reflexivity|]. repeat split.
  - intros Hsafe.
    apply (builtin_code_contributed s _CtrDropRule Hsafe).
    apply list_elem_of_In. simpl. tauto.
Qed.

Lemma ctr_drop_rule_contributes_witness :
  Rule.applies _CtrDropRule {| summary := fatigued_summary |} = Ok true
  /\ exists out,
       RuleBasedInsightAgent.call (RuleBasedInsightAgent.init None) fatigued_summary = Ok out
       /\ exists i, i ∈ out /\ Insight.code i = "ctr_drop_vs_prev7".
Proof.
  destruct (ctr_drop_rule_contributes fatigued_summary) as (Happ & _ & Hcall).
  assert (Ha : Rule.applies _CtrDropRule {| summary := fatigued_summary |}
               = Ok true) by reflexivity.
  split; [exact Ha|].
  destruct Hcall as (out & Hout & Hiff).
  { intros row Hrow. inversion Hrow. }
  exists out. split; [exact Hout|]. apply Hiff, Ha.
Defined.

End AverageRules.

Section AgentComposition.

Import Metrics InsightRules.
Local Open Scope float_scope.

Lemma findings_app (ctx : RuleContext) (a b : list Rule.t) :
  findings (a ++ b) ctx = findings a ctx ++ findings b ctx.
Proof. unfold findings. apply omap_app. Qed.

Lemma builtin_rules_return (s : MetricSummary) (rule : Rule.t) :
  (forall row, row ∈ per_row s -> rule_safe row) ->
  rule ∈ builtin_rules ->
  is_ok (Rule.applies rule {| summary := s |})
  /\ (fires rule {| summary := s |} = true ->
      is_ok (Rule.build_insight rule {| summary := s |})).
Proof.
  intros Hsafe Hrule.
  destruct (builtin_rule_facts s rule Hsafe Hrule) as (Ha & i & Hb & _).
  split; [eexists; exact Ha | intros _; eexists; exact Hb].
Qed.

(** X11: The rules of the caller are registered before the built-in ones: when
    they return, the findings of the agent are theirs, in their order,
    followed by the findings of the built-in rules; without rules of the
    caller, or with an empty list of them, the agent is the built-in one.  An
    exception of the first rule is not caught: it is the outcome of the
    evaluation. *)
Theorem extra_rules_evaluated_first (extra : list Rule.t) (s : MetricSummary) :
  let ctx := {| summary := s |} in
  (forall row, row ∈ per_row s -> rule_safe row) ->
  RuleBasedInsightAgent.rules (RuleBasedInsightAgent.init (Some extra))
    = extra ++ builtin_rules
  /\ RuleBasedInsightAgent.init (Some []) = RuleBasedInsightAgent.init None
  /\ ((forall rule, rule ∈ extra ->
         is_ok (Rule.applies rule ctx)
         /\ (fires rule ctx = true -> is_ok (Rule.build_insight rule ctx))) ->
      RuleBasedInsightAgent.call (RuleBasedInsightAgent.init (Some extra)) s
        = Ok (findings extra ctx ++ findings builtin_rules ctx))
  /\ (forall rule rest e,
        extra = rule :: rest -> Rule.applies rule ctx = Raise e ->
        RuleBasedInsightAgent.call (RuleBasedInsightAgent.init (Some extra)) s = Raise e).
Proof.
  cbv zeta. intros Hsafe. split; [reflexivity|]. split; [reflexivity|]. split.
  - intros Hextra. unfold RuleBasedInsightAgent.call, RuleBasedInsightAgent.init.
    cbn [RuleBasedInsightAgent.rules default].
    rewrite call_loop.
    + rewrite findings_app. reflexivity.
    + intros rule Hrule. apply elem_of_app in Hrule as [Hrule | Hrule].
      * apply Hextra, Hrule.
      * apply (builtin_rules_return s rule Hsafe Hrule).
  - intros rule rest e -> Hraise.
    unfold RuleBasedInsightAgent.call, RuleBasedInsightAgent.init.
    change (foldlM (RuleBasedInsightAgent.step {| summary := s |})
              (rule :: (rest ++ builtin_rules)) [] = Raise e).
    cbn [foldlM].
    assert (Hstep : RuleBasedInsightAgent.step {| summary := s |} [] rule = Raise e).
    { unfold RuleBasedInsightAgent.step. rewrite Hraise. reflexivity. }
    rewrite Hstep. reflexivity.
Qed.

Lemma extra_rules_evaluated_first_witness :
  (forall row, row ∈ per_row sample_summary -> rule_safe row)
  /\ map Insight.code
       (findings [always_rule] {| summary := sample_summary |}
        ++ findings builtin_rules {| summary := sample_summary |})
     = ["custom"; "roas_1_2"; "spend_no_purchases"]
  /\ RuleBasedInsightAgent.call (RuleBasedInsightAgent.init (Some [always_rule]))
       sample_summary
     = Ok (findings [always_rule] {| summary := sample_summary |}
           ++ findings builtin_rules {| summary := sample_summary |}).
Proof.
  split; [exact sample_summary_safe|]. split; [vm_compute; reflexivity|].
  apply (extra_rules_evaluated_first [always_rule] sample_summary sample_summary_safe).
  intros rule Hrule. apply list_elem_of_singleton in Hrule as ->.
  split; [eexists; reflexivity | intros _; eexists; reflexivity].
Defined.

Lemma NoDup_List_filter {A : Type} (p : A -> bool) (l : list A) :
  NoDup l -> NoDup (List.filter p l).
Proof.
  induction 1 as [|x l Hx Hl IH]; cbn [List.filter]; [constructor|].
  destruct (p x); [|exact IH]. constructor; [|exact IH].
  intros Hin. apply Hx. apply list_elem_of_In in Hin. apply filter_In in Hin as [Hin _].
  apply list_elem_of_In, Hin.
Qed.

(** X12: On every summary that the Metric Deriver returns, the built-in agent
    returns: no rule raises on derived rows.  Its findings are those of the
    rules whose predicate holds, in registration order, at most one per rule
    and so at most five. *)
Theorem rules_return_on_calculator_summaries (records : list record)
    (mapping : ColumnMapping.t) (s : MetricSummary) :
  MetricCalculator records mapping = Ok s ->
  exists insights,
    RuleBasedInsightAgent.call (RuleBasedInsightAgent.init None) s = Ok insights
    /\ map Insight.code insights =
         List.filter (fun c => predicate_as_specified c s) rule_codes
    /\ NoDup (map Insight.code insights)
    /\ (length insights <= 5)%nat.
Proof.
  intros H.
  assert (Hsafe : forall row, row ∈ per_row s -> rule_safe row).
  { intros row Hrow. apply (calculator_rows _ _ _ H row Hrow). }
  destruct (evaluation_codes s Hsafe) as (out & Hcall & _ & Hcodes).
  exists out. split; [exact Hcall|]. split; [exact Hcodes|]. split.
  - rewrite Hcodes. apply NoDup_List_filter.
    unfold rule_codes.
    repeat (constructor; [rewrite ?elem_of_cons, elem_of_nil; intuition discriminate|]).
    constructor.
  - rewrite <- (length_map Insight.code), Hcodes.
    etransitivity; [apply List.filter_length_le | reflexivity].
Qed.

Lemma rules_return_on_calculator_summaries_witness :
  exists s insights,
    MetricCalculator [clicks_record] overflow_mapping = Ok s
    /\ RuleBasedInsightAgent.call (RuleBasedInsightAgent.init None) s = Ok insights
    /\ map Insight.code insights = ["ctr_healthy_low_conversion"].
Proof.
  destruct (MetricCalculator [clicks_record] overflow_mapping) as [s|e] eqn:E;
    [|vm_compute in E; discriminate E].
  destruct (rules_return_on_calculator_summaries _ _ _ E) as (insights & Hcall & Hcodes & _).
  exists s, insights. split; [reflexivity|]. split; [exact Hcall|].
  rewrite Hcodes. vm_compute in E. injection E as <-. vm_compute. reflexivity.
Defined.

End AgentComposition.

(** ** The mapping and the Column Resolver *)

Section MappedMetrics.

Lemma map_fst_filter_sublist {A B : Type} (P : A * B -> bool) (l : list (A * B)) :
  sublist (map fst (List.filter P l)) (map fst l).
Proof.
  induction l as [|x l IH]; cbn [List.filter map]; [constructor|].
  destruct (P x); cbn [map]; [apply sublist_skip | apply sublist_cons]; exact IH.
Qed.

Lemma canonical_names_distinct : NoDup (map fst CANONICAL_COLUMNS).
Proof.
  unfold CANONICAL_COLUMNS. cbn [map fst].
  repeat (constructor; [rewrite ?elem_of_cons, elem_of_nil; intuition discriminate|]).
  constructor.
Qed.

(** X13: The mapped metrics of a mapping are listed in the order of the fields,
    which is the order of the table of canonical columns, each once; a metric
    is listed exactly when it resolves to a header that is not the empty
    string, so that a field set to the empty string counts as unmapped. *)
Theorem available_metrics_in_field_order (mapping : ColumnMapping.t) :
  sublist (ColumnMapping.available_metrics mapping) (map fst CANONICAL_COLUMNS)
  /\ NoDup (ColumnMapping.available_metrics mapping)
  /\ (forall canonical,
        canonical ∈ ColumnMapping.available_metrics mapping <->
        exists column,
          ColumnMapping.resolve mapping canonical = Some column /\ column <> "").
Proof.
  assert (Hsub : sublist (ColumnMapping.available_metrics mapping) (map fst CANONICAL_COLUMNS)).
  { unfold ColumnMapping.available_metrics.
    change (map fst CANONICAL_COLUMNS) with (map fst (ColumnMapping.model_dump mapping)).
    apply map_fst_filter_sublist. }
  split; [exact Hsub|]. split.
  - apply (sublist_NoDup _ _ canonical_names_distinct Hsub).
  - intros canonical. apply available_metrics_resolve.
Qed.

End MappedMetrics.

Section AutomaticResolution.

Import ColumnIdentifier.

Ltac entry_cases H :=
  unfold CANONICAL_COLUMNS in H;
  repeat (apply elem_of_cons in H as [[= -> ->] | H]); [.. | inversion H].

Lemma canonical_entry_facts (canonical : string) (synonyms : list string) :
  (canonical, synonyms) ∈ CANONICAL_COLUMNS ->
  Str.split canonical = [canonical]
  /\ _normalize canonical <> ""
  /\ matches (synonyms ++ [canonical]) "" = false
  /\ forallb (fun t => mem t (synonyms ++ [canonical]))
       (map _normalize (synonyms ++ [canonical])) = true
  /\ canonical ∈ map fst CANONICAL_COLUMNS.
Proof.
  intros H. entry_cases H;
    (split; [vm_compute; reflexivity|]; split; [vm_compute; discriminate|];
     split; [vm_compute; reflexivity|]; split; [vm_compute; reflexivity|];
     apply list_elem_of_In; simpl; tauto).
Qed.

Lemma mem_spec (s : string) (l : list string) : mem s l = true <-> s ∈ l.
Proof.
  unfold mem. rewrite existsb_exists. split.
  - intros (x & Hx & E). apply String.eqb_eq in E as ->. apply list_elem_of_In, Hx.
  - intros H. exists s. split; [apply list_elem_of_In, H | apply String.eqb_refl].
Qed.

Lemma matches_mono (narrow wide : list string) (normalized : string) :
  forallb (fun t => mem t wide) narrow = true ->
  matches narrow normalized = true -> matches wide normalized = true.
Proof.
  intros Hincl. rewrite forallb_forall in Hincl.
  assert (Hin : forall t, t ∈ narrow -> t ∈ wide).
  { intros t Ht. apply mem_spec, Hincl, list_elem_of_In, Ht. }
  unfold matches. rewrite !orb_true_iff, !mem_spec. intros [H | H].
  - left. apply Hin, H.
  - right. apply list_elem_of_fmap in H as (t & -> & Ht).
    apply list_elem_of_fmap. exists t. split; [reflexivity | apply Hin, Ht].
Qed.

Lemma find_none_weaker {A : Type} (P Q : A -> bool) (l : list A) :
  (forall x, Q x = true -> P x = true) ->
  List.find P l = None -> List.find Q l = None.
Proof.
  intros HPQ. induction l as [|x l IH]; [reflexivity|]. cbn [List.find].
  destruct (P x) eqn:EP; [discriminate|]. intros H.
  destruct (Q x) eqn:EQ; [|apply IH, H].
  rewrite (HPQ x EQ) in EP. discriminate EP.
Qed.

Lemma find_best_match_candidates (key : string) (cols : list (string * string))
    (candidates : list string) :
  candidates <> [] ->
  _find_best_match key cols (Some candidates) =
  match first_match (map _normalize candidates) cols with
  | Some column_name => Ok (Some column_name)
  | None => first_prefixed key cols
  end.
Proof. destruct candidates as [|c cs]; [contradiction | reflexivity]. Qed.

Lemma startswith_empty (pre : string) : pre <> "" -> Str.startswith "" pre = false.
Proof.
  intros H. unfold Str.startswith. change (Str.chars "") with (@nil ascii).
  destruct (Str.chars pre) as [|c cs] eqn:E; [|reflexivity].
  exfalso. apply H. rewrite <- (of_chars_chars pre), E. reflexivity.
Qed.

Lemma truthy_named (header : string) : header <> "" -> truthy_target (Some header) = true.
Proof.
  intros H. unfold truthy_target, ColumnMapping.is_set.
  destruct (String.eqb_spec header ""); [contradiction | reflexivity].
Qed.

(** A turn of the automatic matching on a metric that is not mapped yet. *)
Lemma auto_match_unmapped (columns : list string) (c2s : gmap string (option string))
    (canonical : string) (synonyms : list string) :
  (canonical, synonyms) ∈ CANONICAL_COLUMNS ->
  c2s !! canonical = Some None ->
  auto_match (dict_of _normalize columns) c2s (canonical, synonyms)
  = Ok (<[canonical := auto_resolution canonical synonyms columns]> c2s).
Proof.
  intros He Hc. destruct (canonical_entry_facts _ _ He) as (Hsplit & Hne & Hempty & Hincl & _).
  unfold auto_match. rewrite Hc. cbn [default from_option truthy_target ColumnMapping.is_set].
  unfold synonym_match. rewrite first_match_headers.
  unfold auto_resolution. fold (synonym_header canonical synonyms columns).
  change (List.find (fun header => matches (synonyms ++ [canonical]) (_normalize header)) columns)
    with (synonym_header canonical synonyms columns).
  destruct (synonym_header canonical synonyms columns) as [header|] eqn:E.
  - rewrite lookup_insert_eq.
    assert (Hh : header <> "").
    { intros ->. apply find_some in E as [_ E].
      rewrite normalize_empty, Hempty in E. discriminate E. }
    rewrite (truthy_named _ Hh). reflexivity.
  - rewrite Hc. cbn [truthy_target ColumnMapping.is_set].
    rewrite find_best_match_candidates by (destruct synonyms; discriminate).
    rewrite first_match_headers.
    rewrite (find_none_weaker _ _ _ (fun h => matches_mono _ _ (_normalize h) Hincl) E).
    rewrite (first_prefixed_headers canonical canonical [] columns Hsplit), bind_Ok.
    fold (prefix_header canonical columns).
    change (List.find _ columns) with (prefix_header canonical columns).
    destruct (prefix_header canonical columns) as [header|] eqn:Ep.
    + assert (Hh : header <> "").
      { intros ->. apply find_some in Ep as [_ Ep].
        rewrite normalize_empty, (startswith_empty _ Hne) in Ep. discriminate Ep. }
      rewrite (truthy_named _ Hh). reflexivity.
    + cbn [truthy_target ColumnMapping.is_set]. rewrite insert_id by exact Hc. reflexivity.
Qed.


Lemma auto_loop_unmapped (columns : list string) (entries : list (string * list string)) :
  forall c2s : gmap string (option string),
    NoDup (map fst entries) ->
    (forall e, e ∈ entries -> e ∈ CANONICAL_COLUMNS) ->
    complete c2s ->
    exists c2s',
      foldlM (auto_match (dict_of _normalize columns)) entries c2s = Ok c2s'
      /\ (forall canonical synonyms,
            (canonical, synonyms) ∈ entries -> c2s !! canonical = Some None ->
            c2s' !! canonical = Some (auto_resolution canonical synonyms columns))
      /\ (forall k, k ∉ map fst entries -> c2s' !! k = c2s !! k).
Proof.
  induction entries as [|[c syn] entries IH]; intros c2s Hnd He Hc.
  - exists c2s. split; [reflexivity|]. split; [|reflexivity].
    intros canonical synonyms H. inversion H.
  - cbn [map fst] in Hnd. apply NoDup_cons in Hnd as [Hfresh Hnd].
    assert (Hin : (c, syn) ∈ CANONICAL_COLUMNS) by (apply He; left).
    destruct (canonical_entry_facts _ _ Hin) as (_ & _ & _ & _ & Hkey).
    destruct (auto_match_spec (dict_of _normalize columns) c2s c syn Hc Hkey)
      as (c2s1 & H1 & Hc1 & Hother & _).
    destruct (IH c2s1 Hnd) as (c2s' & H' & Hauto & Hframe).
    { intros e Hin'. apply He. right. exact Hin'. }
    { exact Hc1. }
    exists c2s'. split; [cbn [foldlM]; rewrite H1, bind_Ok; exact H'|]. split.
    + intros canonical synonyms Hmem Hnone.
      apply elem_of_cons in Hmem as [[= -> ->] | Hmem].
      * rewrite (Hframe c Hfresh).
        rewrite (auto_match_unmapped columns c2s c syn Hin Hnone) in H1.
        injection H1 as <-. apply lookup_insert_eq.
      * apply (Hauto canonical synonyms Hmem).
        rewrite Hother; [exact Hnone|].
        intros ->. apply Hfresh. apply list_elem_of_fmap.
        exists (c, synonyms). split; [reflexivity | exact Hmem].
    + intros k Hk. cbn [map fst] in Hk. apply not_elem_of_cons in Hk as [Hne Hk].
      rewrite (Hframe k Hk). apply Hother, Hne.
Qed.

(** A turn of the loop over the hints writes the entry of its own metric, if
    any, and keeps every metric with an entry. *)
Lemma apply_hint_frame (cols : list (string * string)) (c2s c2s' : gmap string (option string))
    (canonical hinted : string) :
  apply_hint cols c2s (canonical, hinted) = Ok c2s' ->
  (forall k, k <> canonical -> c2s' !! k = c2s !! k)
  /\ (complete c2s -> complete c2s').
Proof.
  unfold apply_hint. intros H.
  assert (Hins : forall v, (forall k, k <> canonical ->
                   <[canonical := v]> c2s !! k = c2s !! k)
                 /\ (complete c2s -> complete (<[canonical := v]> c2s))).
  { intros v. split; [intros k Hk; apply lookup_insert_ne; congruence
                     | apply complete_insert]. }
  destruct (assoc hinted cols).
  - injection H as <-. apply Hins.
  - apply bind_Ok_inv in H as (target & _ & H).
    destruct (truthy_target target); injection H as <-; [apply Hins | auto].
Qed.

Lemma hint_loop_frame (cols : list (string * string)) (hints : list (string * string)) :
  forall c2s c2s' : gmap string (option string),
    foldlM (apply_hint cols) hints c2s = Ok c2s' ->
    (forall k, k ∉ map fst hints -> c2s' !! k = c2s !! k)
    /\ (complete c2s -> complete c2s').
Proof.
  induction hints as [|[c h] hints IH]; intros c2s c2s' H.
  - injection H as <-. auto.
  - cbn [foldlM] in H. apply bind_Ok_inv in H as (c2s1 & H1 & H).
    destruct (apply_hint_frame _ _ _ _ _ H1) as [Hf1 Hc1].
    destruct (IH _ _ H) as [Hf Hc]. split.
    + intros k Hk. cbn [map fst] in Hk. apply not_elem_of_cons in Hk as [Hne Hk].
      rewrite (Hf k Hk). apply Hf1, Hne.
    + auto.
Qed.

Lemma initial_unmapped (canonical : string) :
  canonical ∈ map fst CANONICAL_COLUMNS ->
  (list_to_map (map (fun kv => (fst kv, None)) CANONICAL_COLUMNS)
     : gmap string (option string)) !! canonical = Some None.
Proof.
  intros H. unfold CANONICAL_COLUMNS in H; cbn [map fst] in H;
    repeat (apply elem_of_cons in H as [-> | H]); [.. | inversion H];
    vm_compute; reflexivity.
Qed.

Lemma filter_keys_subset {A : Type} (P : string * A -> bool) (l : list (string * A))
    (k : string) :
  k ∈ map fst (List.filter P l) -> k ∈ map fst l.
Proof.
  intros H. apply list_elem_of_fmap in H as (x & -> & Hx).
  apply list_elem_of_In, filter_In in Hx as [Hx _].
  apply list_elem_of_fmap. exists x. split; [reflexivity | apply list_elem_of_In, Hx].
Qed.

Lemma resolution_of_unhinted_metric (columns : list string)
    (hints : option (list (string * string))) (mapping : ColumnMapping.t)
    (canonical : string) (synonyms : list string) :
  SemanticColumnIdentifier columns hints = Ok mapping ->
  (canonical, synonyms) ∈ CANONICAL_COLUMNS ->
  canonical ∉ map fst (default [] hints) ->
  ColumnMapping.resolve mapping canonical = auto_resolution canonical synonyms columns.
Proof.
  intros H He Hk.
  destruct (canonical_entry_facts _ _ He) as (_ & _ & _ & _ & Hkey).
  unfold SemanticColumnIdentifier in H. cbv zeta in H.
  apply bind_Ok_inv in H as (c2s1 & H1 & H).
  apply bind_Ok_inv in H as (c2s2 & H2 & [= <-]).
  destruct (hint_loop_frame _ _ _ _ H1) as [Hf Hc].
  destruct (auto_loop_unmapped columns CANONICAL_COLUMNS c2s1 canonical_names_distinct
              (fun e H => H) (Hc initial_complete)) as (c2s' & H' & Hauto & _).
  rewrite H' in H2. injection H2 as <-.
  rewrite (resolve_of_dict _ _ Hkey), (Hauto canonical synonyms He); [reflexivity|].
  rewrite Hf; [apply initial_unmapped, Hkey|].
  intros Hin. apply Hk. apply (filter_keys_subset _ _ _ Hin).
Qed.

(** X14: Without hints the Column Resolver always returns; with or without hints,
    every canonical metric that no hint names is resolved automatically: to
    the first header whose normalized form is a synonym or the canonical name
    (as it is, or once the spaces are removed from both), failing that to the
    first header whose normalized form starts with the normalized canonical
    name, and it stays unmapped when there is none. *)
Theorem unhinted_metrics_resolved_automatically (columns : list string) :
  (exists mapping, SemanticColumnIdentifier columns None = Ok mapping)
  /\ forall hints mapping canonical synonyms,
       SemanticColumnIdentifier columns hints = Ok mapping ->
       (canonical, synonyms) ∈ CANONICAL_COLUMNS ->
       canonical ∉ map fst (default [] hints) ->
       ColumnMapping.resolve mapping canonical = auto_resolution canonical synonyms columns.
Proof.
  split.
  - unfold SemanticColumnIdentifier. cbv zeta. cbn [default from_option List.filter foldlM].
    rewrite bind_Ok.
    destruct (auto_loop_unmapped columns CANONICAL_COLUMNS _ canonical_names_distinct
                (fun e H => H) initial_complete) as (c2s' & -> & _).
    rewrite bind_Ok. eexists. reflexivity.
  - intros hints mapping canonical synonyms. apply resolution_of_unhinted_metric.
Qed.

Lemma find_sole `{EqDecision A} (P : A -> bool) (l : list A) (x : A) :
  x ∈ l -> P x = true -> (forall y, y ∈ l -> y <> x -> P y = false) ->
  List.find P l = Some x.
Proof.
  intros Hin Hx Hothers. induction l as [|a l IH]; [inversion Hin|]. cbn [List.find].
  destruct (P a) eqn:Ea.
  - destruct (decide (a = x)) as [-> | Hne]; [reflexivity|].
    rewrite (Hothers a (list_elem_of_here _ _) Hne) in Ea. discriminate Ea.
  - apply IH.
    + apply elem_of_cons in Hin as [-> | Hin]; [congruence | exact Hin].
    + intros y Hy. apply Hothers. right. exact Hy.
Qed.

(** X15: A header whose normalized form is a synonym of a canonical metric, or the
    name of the metric, resolves the metric when no hint names the metric and
    no other header matches: where the header stands among the others does
    not matter. *)
Theorem sole_synonym_header_resolves (columns : list string)
    (hints : option (list (string * string))) (canonical header : string)
    (synonyms : list string) :
  (canonical, synonyms) ∈ CANONICAL_COLUMNS ->
  canonical ∉ map fst (default [] hints) ->
  header ∈ columns ->
  _normalize header ∈ synonyms ++ [canonical] ->
  (forall other, other ∈ columns -> other <> header ->
     matches (synonyms ++ [canonical]) (_normalize other) = false) ->
  forall columns' mapping,
    columns' ≡ₚ columns ->
    SemanticColumnIdentifier columns' hints = Ok mapping ->
    ColumnMapping.resolve mapping canonical = Some header.
Proof.
  intros He Hk Hin Hsyn Hothers columns' mapping Hperm H.
  rewrite (resolution_of_unhinted_metric _ _ _ _ _ H He Hk).
  unfold auto_resolution, synonym_header.
  rewrite (find_sole _ columns' header); [reflexivity | | |].
  - rewrite Hperm. exact Hin.
  - unfold matches. apply orb_true_iff. left. apply mem_spec, Hsyn.
  - intros other Hother. apply Hothers. rewrite <- Hperm. exact Hother.
Qed.

Lemma sole_synonym_header_resolves_witness :
  exists m1 m2,
    SemanticColumnIdentifier ["Impr"; "Cost"; "Notes"] None = Ok m1
    /\ SemanticColumnIdentifier ["Notes"; "Cost"; "Impr"] None = Ok m2
    /\ ColumnMapping.resolve m1 "spend" = Some "Cost"
    /\ ColumnMapping.resolve m2 "spend" = Some "Cost".
Proof.
  destruct (SemanticColumnIdentifier ["Impr"; "Cost"; "Notes"] None) as [m1|e] eqn:E1;
    [|vm_compute in E1; discriminate E1].
  destruct (SemanticColumnIdentifier ["Notes"; "Cost"; "Impr"] None) as [m2|e] eqn:E2;
    [|vm_compute in E2; discriminate E2].
  exists m1, m2. split; [reflexivity|]. split; [reflexivity|].
  assert (Hall : forall columns' mapping,
            columns' ≡ₚ ["Impr"; "Cost"; "Notes"] ->
            SemanticColumnIdentifier columns' None = Ok mapping ->
            ColumnMapping.resolve mapping "spend" = Some "Cost").
  { apply (sole_synonym_header_resolves ["Impr"; "Cost"; "Notes"] None "spend" "Cost"
             ["spend"; "cost"]).
    - apply list_elem_of_In. simpl. tauto.
    - intros H. inversion H.
    - right. left.
    - apply list_elem_of_In. vm_compute. tauto.
    - intros other Hother Hne.
      repeat (apply elem_of_cons in Hother as [-> | Hother]);
        [vm_compute; reflexivity | contradiction | vm_compute; reflexivity
        | inversion Hother]. }
  split.
  - apply (Hall _ _ (reflexivity _) E1).
  - apply (Hall ["Notes"; "Cost"; "Impr"] m2); [|exact E2].
    apply (Permutation_rev ["Notes"; "Cost"; "Impr"]).
Defined.

End AutomaticResolution.

Section SuppliedHeaders.

Import ColumnIdentifier.

Lemma dict_set_keys {A : Type} (k : string) (v : A) (d : list (string * A)) (x : string) :
  x ∈ map fst (dict_set k v d) -> x = k \/ x ∈ map fst d.
Proof.
  induction d as [|[k' v'] d IH]; cbn [dict_set map fst].
  - intros H. apply list_elem_of_singleton in H. left. exact H.
  - destruct (String.eqb_spec k k') as [-> | Hne]; cbn [map fst]; intros H.
    + right. exact H.
    + apply elem_of_cons in H as [-> | H]; [right; left|].
      destruct (IH H) as [-> | Hin]; [left; reflexivity | right; right; exact Hin].
Qed.

Lemma dict_of_keys {A : Type} (f : string -> A) (keys : list string) (x : string) :
  x ∈ map fst (dict_of f keys) -> x ∈ keys.
Proof.
  unfold dict_of.
  assert (G : forall d, x ∈ map fst (fold_left (fun d k => dict_set k (f k) d) keys d) ->
                x ∈ keys \/ x ∈ map fst d).
  { induction keys as [|k keys IH]; intros d H; [right; exact H|].
    cbn [fold_left] in H. destruct (IH _ H) as [Hin | Hin]; [left; right; exact Hin|].
    destruct (dict_set_keys _ _ _ _ Hin) as [-> | Hd]; [left; left | right; exact Hd]. }
  intros H. destruct (G [] H) as [Hin | Hin]; [exact Hin | inversion Hin].
Qed.

Lemma assoc_key {A : Type} (k : string) (d : list (string * A)) (v : A) :
  assoc k d = Some v -> k ∈ map fst d.
Proof.
  induction d as [|[k' v'] d IH]; [discriminate|]. cbn [assoc map fst].
  destruct (String.eqb_spec k k') as [-> | Hne]; [intros _; left | intros H; right; auto].
Qed.

Lemma first_match_key (targets : list string) (cols : list (string * string))
    (header : string) :
  first_match targets cols = Some header -> header ∈ map fst cols.
Proof.
  induction cols as [|[name normalized] cols IH]; [discriminate|].
  cbn [first_match map fst].
  destruct (matches targets normalized); [intros [= ->]; left | intros H; right; auto].
Qed.

Lemma first_prefixed_key (key : string) (cols : list (string * string)) (header : string) :
  first_prefixed key cols = Ok (Some header) -> header ∈ map fst cols.
Proof.
  induction cols as [|[name normalized] cols IH]; [discriminate|].
  cbn [first_prefixed map fst].
  destruct (Str.split key) as [|token tokens]; [discriminate|].
  destruct (Str.startswith normalized (_normalize token));
    [intros [= ->]; left | intros H; right; auto].
Qed.

Lemma find_best_match_key (key : string) (cols : list (string * string))
    (fallback : option (list string)) (header : string) :
  _find_best_match key cols fallback = Ok (Some header) -> header ∈ map fst cols.
Proof.
  unfold _find_best_match.
  destruct (first_match _ cols) as [h|] eqn:E.
  - intros [= <-]. apply (first_match_key _ _ _ E).
  - apply first_prefixed_key.
Qed.

Lemma sources_among_insert (columns : list string) (c2s : gmap string (option string))
    (k : string) (target : option string) :
  sources_among columns c2s ->
  (forall header, target = Some header -> header ∈ columns) ->
  sources_among columns (<[k := target]> c2s).
Proof.
  intros Hs Ht k' header. destruct (decide (k = k')) as [-> | Hne].
  - rewrite lookup_insert_eq. intros [= H]. apply Ht, H.
  - rewrite lookup_insert_ne by exact Hne. apply Hs.
Qed.

Lemma apply_hint_sources (columns : list string) (c2s c2s' : gmap string (option string))
    (hint : string * string) :
  apply_hint (dict_of _normalize columns) c2s hint = Ok c2s' ->
  sources_among columns c2s -> sources_among columns c2s'.
Proof.
  destruct hint as [canonical hinted]. unfold apply_hint. intros H Hs.
  destruct (assoc hinted (dict_of _normalize columns)) as [n|] eqn:E.
  - injection H as <-. apply sources_among_insert; [exact Hs|].
    intros header [= <-]. apply (dict_of_keys _normalize), (assoc_key _ _ _ E).
  - apply bind_Ok_inv in H as (target & Ht & H).
    destruct (truthy_target target); injection H as <-; [|exact Hs].
    apply sources_among_insert; [exact Hs|].
    intros header ->. apply (dict_of_keys _normalize), (find_best_match_key _ _ _ _ Ht).
Qed.

Lemma auto_match_sources (columns : list string) (c2s c2s' : gmap string (option string))
    (entry : string * list string) :
  auto_match (dict_of _normalize columns) c2s entry = Ok c2s' ->
  sources_among columns c2s -> sources_among columns c2s'.
Proof.
  destruct entry as [canonical synonyms]. unfold auto_match. intros H Hs.
  destruct (truthy_target (default None (c2s !! canonical))); [injection H as <-; exact Hs|].
  set (c2s1 := match synonym_match _ _ with
               | Some column_name => <[canonical := Some column_name]> c2s
               | None => c2s
               end) in H.
  assert (Hs1 : sources_among columns c2s1).
  { unfold c2s1, synonym_match.
    destruct (first_match _ _) as [h|] eqn:E; [|exact Hs].
    apply sources_among_insert; [exact Hs|].
    intros header [= <-]. apply (dict_of_keys _normalize), (first_match_key _ _ _ E). }
  destruct (c2s1 !! canonical) as [current|]; [|discriminate H].
  destruct (truthy_target current); [injection H as <-; exact Hs1|].
  apply bind_Ok_inv in H as (target & Ht & H).
  destruct (truthy_target target); injection H as <-; [|exact Hs1].
  apply sources_among_insert; [exact Hs1|].
  intros header ->. apply (dict_of_keys _normalize), (find_best_match_key _ _ _ _ Ht).
Qed.

Lemma foldlM_invariant {A B : Type} (P : B -> Prop) (f : B -> A -> result B) (l : list A) :
  (forall b a b', f b a = Ok b' -> P b -> P b') ->
  forall b b', foldlM f l b = Ok b' -> P b -> P b'.
Proof.
  intros Hf. induction l as [|a l IH]; intros b b' H Hb.
  - injection H as <-. exact Hb.
  - cbn [foldlM] in H. apply bind_Ok_inv in H as (b1 & H1 & H).
    apply (IH _ _ H), (Hf _ _ _ H1 Hb).
Qed.

(** X16: The Column Resolver never invents a header: whatever the hints, every
    canonical metric that it maps is mapped to one of the headers it was
    given (a hint that names no header is matched to one or dropped). *)
Theorem resolver_maps_to_supplied_headers (columns : list string)
    (hints : option (list (string * string))) (mapping : ColumnMapping.t) :
  SemanticColumnIdentifier columns hints = Ok mapping ->
  forall canonical column,
    ColumnMapping.resolve mapping canonical = Some column -> column ∈ columns.
Proof.
  intros H canonical column Hres.
  pose proof (resolve_canonical _ _ _ Hres) as Hkey.
  unfold SemanticColumnIdentifier in H. cbv zeta in H.
  apply bind_Ok_inv in H as (c2s1 & H1 & H).
  apply bind_Ok_inv in H as (c2s2 & H2 & [= <-]).
  rewrite (resolve_of_dict _ _ Hkey) in Hres.
  assert (Hs : sources_among columns c2s2).
  { apply (foldlM_invariant _ _ _ (fun b a b' => auto_match_sources columns b b' a) _ _ H2).
    apply (foldlM_invariant _ _ _ (fun b a b' => apply_hint_sources columns b b' a) _ _ H1).
    intros k header Hk. exfalso.
    apply elem_of_list_to_map_2, list_elem_of_fmap in Hk as (kv & [= _ E] & _). }
  destruct (c2s2 !! canonical) as [[h|]|] eqn:E; try discriminate Hres.
  injection Hres as ->. apply (Hs canonical column E).
Qed.

Lemma resolver_maps_to_supplied_headers_witness :
  exists mapping,
    SemanticColumnIdentifier ["Campaign"; "costperclick"] (Some [("spend", "Cost per")])
      = Ok mapping
    /\ ColumnMapping.resolve mapping "spend" = Some "costperclick"
    /\ "costperclick" ∈ ["Campaign"; "costperclick"].
Proof.
  destruct (SemanticColumnIdentifier ["Campaign"; "costperclick"]
              (Some [("spend", "Cost per")])) as [mapping|e] eqn:E;
    [|vm_compute in E; discriminate E].
  exists mapping. split; [reflexivity|].
  assert (Hr : ColumnMapping.resolve mapping "spend" = Some "costperclick").
  { vm_compute in E. injection E as <-. reflexivity. }
  split; [exact Hr|].
  apply (resolver_maps_to_supplied_headers _ _ _ E "spend" "costperclick" Hr).
Defined.

End SuppliedHeaders.

Section Hints.

Import ColumnIdentifier.

Lemma assoc_headers_Some (hinted : string) (columns : list string) :
  hinted ∈ columns -> assoc hinted (dict_of _normalize columns) = Some (_normalize hinted).
Proof.
  intros Hin. rewrite assoc_find, find_dict_of.
  induction columns as [|c columns IH]; [inversion Hin|]. cbn [map List.find fst].
  destruct (String.eqb_spec hinted c) as [-> | Hne]; [reflexivity|].
  apply IH. apply elem_of_cons in Hin as [-> | Hin]; [contradiction | exact Hin].
Qed.

Lemma hint_loop_verbatim (columns : list string) (canonical hinted : string)
    (hints : list (string * string)) :
  forall c2s c2s' : gmap string (option string),
    NoDup (map fst hints) ->
    (canonical, hinted) ∈ hints ->
    hinted ∈ columns ->
    foldlM (apply_hint (dict_of _normalize columns)) hints c2s = Ok c2s' ->
    c2s' !! canonical = Some (Some hinted).
Proof.
  induction hints as [|[c h] hints IH]; intros c2s c2s' Hnd Hin Hcol H; [inversion Hin|].
  cbn [map fst] in Hnd. apply NoDup_cons in Hnd as [Hfresh Hnd].
  cbn [foldlM] in H. apply bind_Ok_inv in H as (c2s1 & H1 & H).
  apply elem_of_cons in Hin as [[= <- <-] | Hin].
  - destruct (hint_loop_frame _ _ _ _ H) as [Hf _]. rewrite (Hf canonical Hfresh).
    unfold apply_hint in H1. rewrite (assoc_headers_Some _ _ Hcol) in H1.
    injection H1 as <-. apply lookup_insert_eq.
  - apply (IH c2s1 c2s' Hnd Hin Hcol H).
Qed.

(** X17: A hint that names a header verbatim decides the resolution of its
    metric: whatever the other hints and the other headers, the metric is
    mapped to the hinted header, the automatic matching leaving it as it is.
    (The header is not the empty string, which counts as no mapping.) *)
Theorem verbatim_hint_wins (columns : list string) (hints : list (string * string))
    (canonical hinted : string) (mapping : ColumnMapping.t) :
  NoDup (map fst hints) ->
  (canonical, hinted) ∈ hints ->
  canonical ∈ map fst CANONICAL_COLUMNS ->
  hinted ∈ columns -> hinted <> "" ->
  SemanticColumnIdentifier columns (Some hints) = Ok mapping ->
  ColumnMapping.resolve mapping canonical = Some hinted.
Proof.
  intros Hnd Hin Hkey Hcol Hne H.
  unfold SemanticColumnIdentifier in H. cbv zeta in H. cbn [default from_option] in H.
  apply bind_Ok_inv in H as (c2s1 & H1 & H).
  apply bind_Ok_inv in H as (c2s2 & H2 & [= <-]).
  set (P := fun kv : string * string =>
              bool_decide (is_Some (assoc (fst kv) CANONICAL_COLUMNS))) in *.
  assert (Hh : c2s1 !! canonical = Some (Some hinted)).
  { apply (hint_loop_verbatim columns canonical hinted (List.filter P hints) _ _) in H1;
      [exact H1 | | | exact Hcol].
    - apply (sublist_NoDup _ _ Hnd), map_fst_filter_sublist.
    - apply list_elem_of_In, filter_In. split; [apply list_elem_of_In, Hin|].
      unfold P. cbn [fst]. apply canonical_is_key, Hkey. }
  destruct (hint_loop_frame _ _ _ _ H1) as [_ Hc].
  destruct (auto_loop (dict_of _normalize columns) CANONICAL_COLUMNS c2s1 canonical_entries
              (Hc initial_complete)) as (c2s' & H' & Hkeep).
  rewrite H' in H2. injection H2 as <-.
  rewrite (resolve_of_dict _ _ Hkey), (Hkeep canonical hinted Hh Hne). reflexivity.
Qed.

Lemma verbatim_hint_wins_witness :
  exists mapping,
    SemanticColumnIdentifier ["Spend"; "Budget"] (Some [("spend", "Budget")]) = Ok mapping
    /\ ColumnMapping.resolve mapping "spend" = Some "Budget".
Proof.
  destruct (SemanticColumnIdentifier ["Spend"; "Budget"] (Some [("spend", "Budget")]))
    as [mapping|e] eqn:E; [|vm_compute in E; discriminate E].
  exists mapping. split; [reflexivity|].
  apply (verbatim_hint_wins ["Spend"; "Budget"] [("spend", "Budget")] "spend" "Budget").
  - cbn [map fst]. apply NoDup_singleton.
  - left.
  - apply list_elem_of_In. simpl. tauto.
  - right. left.
  - discriminate.
  - exact E.
Defined.

Lemma dict_of_nonempty {A : Type} (f : string -> A) (keys : list string) :
  keys <> [] -> dict_of f keys <> [].
Proof.
  unfold dict_of.
  assert (Hset : forall k v (d : list (string * A)), dict_set k v d <> []).
  { intros k v [|[k' v'] d]; cbn [dict_set]; [discriminate|].
    destruct (String.eqb k k'); discriminate. }
  assert (G : forall (l : list string) (d : list (string * A)), d <> [] ->
                fold_left (fun d k => dict_set k (f k) d) l d <> []).
  { induction l as [|k l IH]; intros d Hd; [exact Hd|].
    cbn [fold_left]. apply IH, Hset. }
  destruct keys as [|k keys]; [contradiction|]. intros _.
  cbn [fold_left]. apply G, Hset.
Qed.

Lemma first_prefixed_tokenless (key : string) (cols : list (string * string)) :
  Str.split key = [] -> cols <> [] -> first_prefixed key cols = Raise IndexError.
Proof.
  intros Hs Hc. destruct cols as [|[name normalized] cols]; [contradiction|].
  cbn [first_prefixed]. rewrite Hs. reflexivity.
Qed.

Lemma matches_empty_target (normalized : string) :
  matches [""] normalized = String.eqb normalized "" || String.eqb (no_spaces normalized) "".
Proof.
  unfold matches, mem. cbn [existsb map]. change (no_spaces "") with "".
  rewrite !orb_false_r. reflexivity.
Qed.

(** X18: A hint without a letter or a digit that names no header verbatim makes
    the Column Resolver raise [IndexError], as soon as there is a header and
    every header has a letter or a digit; it returns when there is no header,
    or when some header has none either. *)
Theorem tokenless_hint_raises (columns : list string) (canonical hinted : string) :
  canonical ∈ map fst CANONICAL_COLUMNS ->
  hinted ∉ columns -> _normalize hinted = "" ->
  (columns <> [] -> (forall header, header ∈ columns -> _normalize header <> "") ->
   SemanticColumnIdentifier columns (Some [(canonical, hinted)]) = Raise IndexError)
  /\ (columns = [] \/ (exists header, header ∈ columns /\ _normalize header = "") ->
      is_ok (SemanticColumnIdentifier columns (Some [(canonical, hinted)]))).
Proof.
  intros Hkey Hnot Hempty.
  assert (Hunfold : SemanticColumnIdentifier columns (Some [(canonical, hinted)]) =
            (c2s ← (target ← _find_best_match "" (dict_of _normalize columns) None;
                    let c2s0 := list_to_map (map (fun kv => (fst kv, None)) CANONICAL_COLUMNS)
                                : gmap string (option string) in
                    if truthy_target target then Ok (<[canonical := target]> c2s0)
                    else Ok c2s0);
             c2s' ← foldlM (auto_match (dict_of _normalize columns)) CANONICAL_COLUMNS c2s;
             Ok (ColumnMapping.of_dict c2s'))).
  { unfold SemanticColumnIdentifier. cbv zeta. cbn [default from_option List.filter fst id].
    rewrite (canonical_is_key canonical Hkey). cbn [foldlM].
    unfold apply_hint. rewrite (assoc_headers_None _ _ Hnot), Hempty.
    destruct (_find_best_match "" (dict_of _normalize columns) None) as [target|e];
      [|reflexivity].
    rewrite !bind_Ok. destruct (truthy_target target); reflexivity. }
  rewrite Hunfold. clear Hunfold.
  unfold _find_best_match. rewrite normalize_empty, first_match_headers.
  split.
  - intros Hcols Hall.
    assert (Hfind : List.find (fun header => matches [""] (_normalize header)) columns = None).
    { destruct (List.find _ columns) as [h|] eqn:E; [|reflexivity]. exfalso.
      apply find_some in E as [Hin E]. apply list_elem_of_In in Hin.
      pose proof (Hall h Hin) as Hne.
      destruct (normalized_first_word h Hne) as (_ & _ & _ & _ & _ & Hns).
      rewrite matches_empty_target in E. apply orb_true_iff in E as [E | E];
        apply String.eqb_eq in E; [apply Hne, E | apply Hns, E]. }
    rewrite Hfind.
    rewrite (first_prefixed_tokenless "" _ eq_refl (dict_of_nonempty _ _ Hcols)).
    reflexivity.
  - intros Hcase.
    assert (Hret : forall c2s, complete c2s ->
              is_ok (c2s' ← foldlM (auto_match (dict_of _normalize columns))
                              CANONICAL_COLUMNS c2s;
                     Ok (ColumnMapping.of_dict c2s'))).
    { intros c2s Hc.
      destruct (auto_loop (dict_of _normalize columns) CANONICAL_COLUMNS c2s
                  canonical_entries Hc) as (c2s' & -> & _).
      rewrite bind_Ok. eexists. reflexivity. }
    assert (Hafter : forall target : option string,
              is_ok (c2s ← (let c2s0 := list_to_map (map (fun kv => (fst kv, None))
                                                        CANONICAL_COLUMNS)
                                        : gmap string (option string) in
                            if truthy_target target then Ok (<[canonical := target]> c2s0)
                            else Ok c2s0);
                     c2s' ← foldlM (auto_match (dict_of _normalize columns))
                              CANONICAL_COLUMNS c2s;
                     Ok (ColumnMapping.of_dict c2s'))).
    { intros target. cbv zeta. destruct (truthy_target target); rewrite bind_Ok; apply Hret;
        [apply complete_insert|]; exact initial_complete. }
    destruct Hcase as [-> | (h & Hin & Hh)].
    + cbn [List.find]. unfold dict_of. cbn [fold_left first_prefixed].
      rewrite bind_Ok. apply (Hafter None).
    + destruct (List.find (fun header => matches [""] (_normalize header)) columns)
        as [h'|] eqn:E.
      * rewrite bind_Ok. apply (Hafter (Some h')).
      * exfalso. apply list_elem_of_In in Hin.
        pose proof (find_none _ _ E h Hin) as Hf. cbv beta in Hf.
        rewrite Hh in Hf. discriminate Hf.
Qed.

Lemma tokenless_hint_raises_witness :
  "spend" ∈ map fst CANONICAL_COLUMNS
  /\ ("%" ∉ ["Spend"])
  /\ _normalize "%" = ""
  /\ SemanticColumnIdentifier ["Spend"] (Some [("spend", "%")]) = Raise IndexError
  /\ is_ok (SemanticColumnIdentifier [] (Some [("spend", "%")])).
Proof.
  assert (H1 : "spend" ∈ map fst CANONICAL_COLUMNS)
    by (apply list_elem_of_In; simpl; tauto).
  assert (H2 : "%" ∉ ["Spend"]).
  { intros H. apply list_elem_of_singleton in H. discriminate H. }
  assert (H3 : _normalize "%" = "") by (vm_compute; reflexivity).
  split; [exact H1|]. split; [exact H2|]. split; [exact H3|]. split.
  - apply (proj1 (tokenless_hint_raises ["Spend"] "spend" "%" H1 H2 H3)); [discriminate|].
    intros header Hin. apply list_elem_of_singleton in Hin as ->. vm_compute. discriminate.
  - apply (proj2 (tokenless_hint_raises [] "spend" "%" H1
                    (fun H => match elem_of_nil _ with conj f _ => f H end) H3)).
    left. reflexivity.
Defined.

End Hints.

Section CaseFolding.

Import ColumnIdentifier.

Lemma unhinted_metrics_resolved_automatically_witness :
  exists mapping,
    SemanticColumnIdentifier ["CTR 7d %"; "Spend"] None = Ok mapping
    /\ ColumnMapping.resolve mapping "ctr_7d" = Some "CTR 7d %"
    /\ ColumnMapping.resolve mapping "ctr" = Some "CTR 7d %"
    /\ ColumnMapping.resolve mapping "spend" = Some "Spend"
    /\ ColumnMapping.resolve mapping "clicks" = None.
Proof.
  destruct (unhinted_metrics_resolved_automatically ["CTR 7d %"; "Spend"])
    as [[mapping H] Hauto].
  exists mapping. split; [exact H|].
  assert (Hno : forall c : string, c ∉ map fst (default [] (@None (list (string * string))))).
  { intros c Hc. inversion Hc. }
  repeat split.
  - rewrite (Hauto None mapping "ctr_7d" ["ctr 7d"; "ctr last 7"] H);
      [vm_compute; reflexivity | apply list_elem_of_In; simpl; tauto | apply Hno].
  - rewrite (Hauto None mapping "ctr" ["ctr"; "click through rate"; "ctr %"] H);
      [vm_compute; reflexivity | apply list_elem_of_In; simpl; tauto | apply Hno].
  - rewrite (Hauto None mapping "spend" ["spend"; "cost"] H);
      [vm_compute; reflexivity | apply list_elem_of_In; simpl; tauto | apply Hno].
  - rewrite (Hauto None mapping "clicks" ["clicks"; "link clicks"] H);
      [vm_compute; reflexivity | apply list_elem_of_In; simpl; tauto | apply Hno].
Defined.

Lemma lower_char_space (c : ascii) : Str.is_space (Str.lower_char c) = Str.is_space c.
Proof. destruct c as [[] [] [] [] [] [] [] []]; reflexivity. Qed.

Lemma drop_while_lower (cs : list ascii) :
  Str.drop_while Str.is_space (Str.lower_chars cs)
  = Str.lower_chars (Str.drop_while Str.is_space cs).
Proof.
  unfold Str.lower_chars. induction cs as [|c cs IH]; [reflexivity|].
  cbn [map Str.drop_while]. rewrite lower_char_space.
  destruct (Str.is_space c); [exact IH | reflexivity].
Qed.

Lemma rev_lower (cs : list ascii) : rev (Str.lower_chars cs) = Str.lower_chars (rev cs).
Proof. unfold Str.lower_chars. symmetry. apply map_rev. Qed.

Lemma strip_lower (cs : list ascii) :
  Str.strip_chars (Str.lower_chars cs) = Str.lower_chars (Str.strip_chars cs).
Proof.
  unfold Str.strip_chars, Str.rstrip_chars, Str.lstrip_chars.
  rewrite drop_while_lower, rev_lower, drop_while_lower, rev_lower. reflexivity.
Qed.

Lemma lower_char_idempotent (c : ascii) :
  Str.lower_char (Str.lower_char c) = Str.lower_char c.
Proof. destruct c as [[] [] [] [] [] [] [] []]; reflexivity. Qed.

(** X19: The normalization of a header does not see its case: two labels that are
    equal once lowercased have the same normalized form, and so do a label
    and its lowercased form. *)
Theorem normalize_ignores_case (a b : string) :
  (Str.lower a = Str.lower b -> _normalize a = _normalize b)
  /\ _normalize (Str.lower a) = _normalize a.
Proof.
  assert (H : forall s, _normalize s =
            Str.strip (sub_spaces (sub_non_alnum
              (Str.of_chars (Str.strip_chars (Str.chars (Str.lower s))))))).
  { intros s. unfold _normalize. do 3 f_equal.
    unfold Str.lower, Str.strip. rewrite !chars_of_chars, strip_lower. reflexivity. }
  split.
  - intros E. rewrite (H a), (H b), E. reflexivity.
  - rewrite (H (Str.lower a)), (H a). do 6 f_equal.
    unfold Str.lower. rewrite chars_of_chars. f_equal.
    unfold Str.lower_chars. rewrite map_map. apply map_ext. apply lower_char_idempotent.
Qed.

Lemma normalize_ignores_case_witness :
  Str.lower "Ad Set NAME" = Str.lower "ad set name"
  /\ _normalize "Ad Set NAME" = _normalize "ad set name".
Proof.
  assert (E : Str.lower "Ad Set NAME" = Str.lower "ad set name") by reflexivity.
  split; [exact E|]. apply (proj1 (normalize_ignores_case "Ad Set NAME" "ad set name") E).
Defined.

End CaseFolding.

Section EmptyForms.

Import ColumnIdentifier.

Lemma drop_while_keeps (p : ascii -> bool) (cs : list ascii) (c : ascii) :
  c ∈ cs -> p c = false -> c ∈ Str.drop_while p cs.
Proof.
  intros Hin Hp. induction cs as [|d cs IH]; [inversion Hin|]. cbn [Str.drop_while].
  destruct (p d) eqn:E; [|exact Hin].
  apply elem_of_cons in Hin as [-> | Hin]; [congruence | apply IH, Hin].
Qed.

Lemma elem_of_rev {A : Type} (l : list A) (x : A) : x ∈ rev l <-> x ∈ l.
Proof. rewrite !list_elem_of_In. symmetry. apply in_rev. Qed.

Lemma strip_keeps (cs : list ascii) (c : ascii) :
  c ∈ cs -> Str.is_space c = false -> c ∈ Str.strip_chars cs.
Proof.
  intros Hin Hs. unfold Str.strip_chars, Str.rstrip_chars, Str.lstrip_chars.
  apply elem_of_rev, drop_while_keeps; [|exact Hs].
  apply elem_of_rev, drop_while_keeps; assumption.
Qed.

Lemma sub_runs_keeps (p : ascii -> bool) (in_run : bool) (cs : list ascii) (c : ascii) :
  c ∈ cs -> p c = false -> c ∈ Str.sub_runs_from p in_run cs.
Proof.
  intros Hin Hp. revert in_run. induction cs as [|d cs IH]; intros in_run; [inversion Hin|].
  cbn [Str.sub_runs_from]. apply elem_of_cons in Hin as [<- | Hin].
  - rewrite Hp. left.
  - destruct (p d); [destruct in_run|]; [|right|right]; apply IH, Hin.
Qed.

Lemma sub_runs_all (p : ascii -> bool) (cs : list ascii) :
  Forall (fun c => p c = true) cs ->
  Str.sub_runs_from p true cs = []
  /\ (Str.sub_runs_from p false cs = [] \/ Str.sub_runs_from p false cs = [" "%char]).
Proof.
  induction 1 as [|c cs Hc Hcs [IH _]]; [split; [reflexivity | left; reflexivity]|].
  cbn [Str.sub_runs_from]. rewrite Hc, IH. split; [reflexivity | right; reflexivity].
Qed.

Lemma alnum_not_space (c : ascii) : Str.is_alnum_lower c = true -> Str.is_space c = false.
Proof. intros H. apply (alnum_facts c H). Qed.

(** X20: The normalized form of a label is empty exactly when the label has no
    character that lowercases to a letter [a-z] or a digit: whitespace,
    punctuation and letters outside [a-z] are all separators. *)
Theorem normalize_empty_iff (label : string) :
  _normalize label = "" <->
  Forall (fun c => Str.is_alnum_lower (Str.lower_char c) = false) (Str.chars label).
Proof.
  rewrite normalize_as_chars. set (cs := Str.chars label). clearbody cs. split.
  - intros H. apply of_chars_inj with (b := []) in H.
    apply Forall_forall. intros c Hc.
    destruct (Str.is_alnum_lower (Str.lower_char c)) eqn:E; [exfalso | reflexivity].
    assert (Hin : Str.lower_char c ∈ normalize_chars cs).
    { unfold normalize_chars.
      apply strip_keeps; [|apply alnum_not_space, E].
      apply sub_runs_keeps; [|apply alnum_not_space, E].
      apply sub_runs_keeps; [|unfold not_alnum; rewrite E; reflexivity].
      unfold Str.lower_chars. apply list_elem_of_fmap. exists c. split; [reflexivity|].
      apply strip_keeps; [exact Hc|].
      rewrite <- lower_char_space. apply alnum_not_space, E. }
    rewrite H in Hin. inversion Hin.
  - intros H. f_equal. unfold normalize_chars.
    assert (Hall : Forall (fun c => not_alnum c = true)
                     (Str.lower_chars (Str.strip_chars cs))).
    { unfold Str.lower_chars. apply Forall_fmap.
      assert (Hsub : forall l, Forall (fun c => Str.is_alnum_lower (Str.lower_char c) = false) l ->
                Forall (fun c => Str.is_alnum_lower (Str.lower_char c) = false)
                  (Str.drop_while Str.is_space l)).
      { intros l Hl. destruct (drop_while_suffix Str.is_space l) as [ws Hws].
        rewrite Hws in Hl. apply Forall_app in Hl as [_ Hl]. exact Hl. }
      unfold Str.strip_chars, Str.rstrip_chars, Str.lstrip_chars.
      apply Hsub, Forall_rev, Hsub, Forall_rev in H.
      eapply Forall_impl; [exact H|]. intros c Hc. cbn.
      unfold not_alnum. rewrite Hc. reflexivity. }
    destruct (sub_runs_all not_alnum _ Hall) as [_ [E | E]];
      unfold Str.sub_runs; rewrite E; reflexivity.
Qed.

End EmptyForms.

(** ** The text generator *)

Section OfflineClient.

Import LLM.

Lemma slice_to_length (n : nat) (text : Text.t) :
  (length (Text.slice_to n text) <= n)%nat.
Proof. apply firstn_le_length. Qed.

Lemma slice_to_short (n : nat) (text : Text.t) :
  (length text <= n)%nat -> Text.slice_to n text = text.
Proof. apply firstn_all2. Qed.

Lemma slice_to_app (n : nat) (a b : Text.t) :
  (length a <= n)%nat ->
  Text.slice_to n (a ++ b) = a ++ Text.slice_to (n - length a) b.
Proof.
  intros H. unfold Text.slice_to. rewrite firstn_app, (firstn_all2 a H). reflexivity.
Qed.

(** X21: The deterministic client answers a fixed line followed by the first 256
    characters of the prompt: at most 283 characters, the whole prompt when it
    has 256 characters or fewer, and otherwise the prompt cut off, whatever
    follows. *)
Theorem dummy_narrative_truncates_prompt (prompt : Text.t) :
  DummyLLM_generate prompt = narrative_opening ++ Text.slice_to 256 prompt
  /\ (length (DummyLLM_generate prompt) <= 283)%nat
  /\ ((length prompt <= 256)%nat ->
      DummyLLM_generate prompt = narrative_opening ++ prompt)
  /\ (forall a b, prompt = a ++ b -> (length a <= 256)%nat ->
        DummyLLM_generate prompt
        = narrative_opening ++ a ++ Text.slice_to (256 - length a) b)
  /\ (forall a b c, prompt = a ++ b -> (256 <= length a)%nat ->
        DummyLLM_generate prompt = DummyLLM_generate (a ++ c)).
Proof.
  assert (H : forall p, DummyLLM_generate p = narrative_opening ++ Text.slice_to 256 p).
  { intros p. unfold DummyLLM_generate, Text.join_lines, narrative_opening.
    cbn [Text.join]. rewrite <- app_assoc. reflexivity. }
  split; [apply H|]. split; [|split; [|split]].
  - rewrite H, List.length_app. pose proof (slice_to_length 256 prompt).
    change (length narrative_opening) with 27%nat. lia.
  - intros Hlen. rewrite H, (slice_to_short _ _ Hlen). reflexivity.
  - intros a b -> Hlen. rewrite H, (slice_to_app _ _ _ Hlen). reflexivity.
  - intros a b c -> Hlen.
    assert (Hcut : forall d, Text.slice_to 256 (a ++ d) = Text.slice_to 256 a).
    { intros d. unfold Text.slice_to. rewrite take_app_le by exact Hlen. reflexivity. }
    rewrite !H, !Hcut. reflexivity.
Qed.

(** X22: [build_llm_client] never raises the [RuntimeError] of
    [OpenAIClient.__init__]: it calls that constructor only with a key that
    is neither absent nor empty, whereas the constructor called directly
    raises [RuntimeError] exactly on settings without such a key.  Without
    such a key [build_llm_client] answers the deterministic client and does
    not call the library of the remote service.  It raises what the reading
    of the environment raises, when no settings are given, and what the
    constructor of the library raises on the key, and nothing else. *)
Theorem build_llm_client_outcomes
    (get_settings : library_error + InsightAgentSettings)
    (OpenAI : string -> option library_error)
    (settings : option InsightAgentSettings) :
  (forall msg, build_llm_client get_settings OpenAI settings <> inl (RuntimeError msg))
  /\ (forall e, settings = None -> get_settings = inl e ->
        build_llm_client get_settings OpenAI settings = inl (Library e)
        /\ OpenAIClient_init get_settings OpenAI settings = inl (Library e))
  /\ (forall effective,
        settings = Some effective \/ (settings = None /\ get_settings = inr effective) ->
        (openai_api_key effective = None \/ openai_api_key effective = Some "" ->
         build_llm_client get_settings OpenAI settings = inr DummyLLM
         /\ exists msg,
              OpenAIClient_init get_settings OpenAI settings = inl (RuntimeError msg))
        /\ (forall key, openai_api_key effective = Some key -> key <> "" ->
              build_llm_client get_settings OpenAI settings
              = match OpenAI key with
                | Some e => inl (Library e)
                | None => inr (OpenAIClient effective)
                end
              /\ OpenAIClient_init get_settings OpenAI settings
                 = build_llm_client get_settings OpenAI settings)).
Proof.
  assert (Heff : forall effective,
            settings = Some effective \/ (settings = None /\ get_settings = inr effective) ->
            settings_or_environment get_settings settings = inr effective).
  { intros effective [-> | [-> Hg]]; cbn [settings_or_environment];
      [reflexivity | rewrite Hg; reflexivity]. }
  assert (Hkey : forall effective key,
            openai_api_key effective = Some key -> key <> "" ->
            key_given effective = true).
  { intros effective key Hk Hne. unfold key_given. rewrite Hk.
    destruct (String.eqb_spec key ""); [contradiction | reflexivity]. }
  assert (Hnokey : forall effective,
            openai_api_key effective = None \/ openai_api_key effective = Some "" ->
            key_given effective = false).
  { intros effective [Hk | Hk]; unfold key_given; rewrite Hk; reflexivity. }
  split; [|split].
  - intros msg. unfold build_llm_client, OpenAIClient_init.
    destruct (settings_or_environment get_settings settings) as [e|effective] eqn:E.
    + destruct settings as [given|]; cbn [settings_or_environment] in E; [discriminate E|].
      destruct get_settings; [injection E as <-; discriminate | discriminate E].
    + destruct (key_given effective) eqn:Ek; [|discriminate].
      cbn [settings_or_environment]. rewrite Ek. cbn [negb].
      destruct (OpenAI _); discriminate.
  - intros e -> Hg. unfold build_llm_client, OpenAIClient_init.
    cbn [settings_or_environment]. rewrite Hg. split; reflexivity.
  - intros effective Hs. pose proof (Heff effective Hs) as E. split.
    + intros Hk. pose proof (Hnokey effective Hk) as Ek.
      unfold build_llm_client, OpenAIClient_init. rewrite E, Ek. cbn [negb].
      split; [reflexivity | eexists; reflexivity].
    + intros key Hk Hne. pose proof (Hkey effective key Hk Hne) as Ek.
      unfold build_llm_client, OpenAIClient_init. rewrite E, Ek.
      cbn [settings_or_environment negb]. rewrite Ek, Hk. cbn [negb default from_option id].
      split; reflexivity.
Qed.

End OfflineClient.

(** ** The prompt *)

Section Prompt.

Variable repr_float : float -> string.
Variable repr_str : string -> string.
Variable str_of_aggregates : gmap string float -> string.





Lemma join_lines_cons (a b : Text.t) (lines : list Text.t) :
  Text.join_lines (a :: b :: lines) = a ++ Text.newline ++ Text.join_lines (b :: lines).
Proof. reflexivity. Qed.



Lemma build_prompt_opening (insights : list Insight.t) (d : Engine.Diagnostics)
    (prompt : Text.t) :
  Engine._build_prompt repr_float repr_str str_of_aggregates insights d = Ok prompt ->
  exists body, prompt = prompt_opening ++ body.
Proof.
  unfold Engine._build_prompt. intros H.
  apply bind_Ok_inv in H as (lines & _ & [= <-]). cbv zeta. cbn [app].
  do 3 rewrite join_lines_cons. eexists.
  unfold prompt_opening. rewrite <- !app_assoc. reflexivity.
Qed.

End Prompt.

(** ** The engine *)

Section Pipeline.

Import Metrics.

Variable repr_float : float -> string.
Variable repr_str : string -> string.
Variable str_of_aggregates : gmap string float -> string.

(** A run on a payload with rows validates nothing more than a run on the
    request that the payload stands for. *)
Lemma run_of_fields (engine : Engine.InsightEngine) (payload : Engine.payload) :
  InsightRequest.data (fields_of payload) <> [] ->
  Engine.run repr_float repr_str str_of_aggregates engine payload
  = Engine.run repr_float repr_str str_of_aggregates engine
      (Engine.Instance (fields_of payload)).
Proof.
  intros H. destruct payload as [request|fields]; [reflexivity|]. cbn [fields_of] in *.
  unfold Engine.run, InsightRequest.model_validate, InsightRequest._ensure_data.
  destruct (InsightRequest.data fields); [contradiction | reflexivity].
Qed.

Lemma run_without_rows (engine : Engine.InsightEngine) (payload : Engine.payload) :
  InsightRequest.data (fields_of payload) = [] ->
  Engine.run repr_float repr_str str_of_aggregates engine payload
  = Raise match payload with
          | Engine.Instance _ => IndexError
          | Engine.Mapping _ => empty_dataset_error
          end.
Proof.
  intros H. destruct payload as [request|fields]; cbn [fields_of] in H.
  - apply run_instance_without_rows, H.
  - unfold Engine.run, InsightRequest.model_validate, InsightRequest._ensure_data.
    rewrite H. reflexivity.
Qed.

(** The pipeline, stage by stage, on a request that has a first row. *)
Lemma run_stage_by_stage (engine : Engine.InsightEngine)
    (payload : Engine.payload) (first : record) (rest : list record) :
  InsightRequest.data (fields_of payload) = first :: rest ->
  Engine.run repr_float repr_str str_of_aggregates engine payload =
  (let hints := Some (default [] (InsightRequest.column_hints (fields_of payload))) in
   mapping ← Engine.column_identifier engine (map fst first) hints;
   summary ← Engine.metric_calculator engine (first :: rest) mapping;
   insights ← Engine.insight_agent engine summary;
   let d :=
     {| Engine.column_hints := hints;
        Engine.column_mapping_confidence := Some (ColumnMapping.available_metrics mapping);
        Engine.aggregate_metrics := Some (aggregates summary);
        Engine.insight_count := Some (Z.of_nat (length insights));
        Engine.narrative := None |} in
   prompt ← Engine._build_prompt repr_float repr_str str_of_aggregates insights d;
   text ← Engine.llm_generate engine prompt;
   Ok {| Engine.column_mapping := mapping;
         Engine.insights := insights;
         Engine.diagnostics :=
           {| Engine.column_hints := hints;
              Engine.column_mapping_confidence :=
                Some (ColumnMapping.available_metrics mapping);
              Engine.aggregate_metrics := Some (aggregates summary);
              Engine.insight_count := Some (Z.of_nat (length insights));
              Engine.narrative := Some text |} |}).
Proof.
  intros Hdata. rewrite run_of_fields by (rewrite Hdata; discriminate).
  unfold Engine.run. rewrite bind_Ok. cbv zeta. rewrite Hdata.
  unfold Engine.invoke, Engine.stages. cbn [foldlM].
  unfold Engine._identify_columns at 1. cbn [Engine.st_records Engine.item].
  rewrite bind_Ok. cbn [Engine.st_diagnostics default from_option Engine.column_hints].
  destruct (Engine.column_identifier engine (map fst first) _) as [mapping|e]; [|reflexivity].
  rewrite !bind_Ok.
  unfold Engine._calculate_metrics at 1.
  cbn [Engine.update Engine.st_records Engine.st_column_mapping Engine.st_diagnostics
       Engine.st_summary Engine.st_insights Engine.item].
  rewrite !bind_Ok.
  destruct (Engine.metric_calculator engine (first :: rest) mapping) as [summary|e];
    [|reflexivity].
  rewrite !bind_Ok.
  unfold Engine._generate_insights at 1.
  cbn [Engine.update Engine.st_records Engine.st_column_mapping Engine.st_diagnostics
       Engine.st_summary Engine.st_insights Engine.item].
  rewrite !bind_Ok.
  destruct (Engine.insight_agent engine summary) as [insights|e]; [|reflexivity].
  rewrite !bind_Ok.
  unfold Engine._compose_narrative at 1.
  cbn [Engine.update Engine.st_records Engine.st_column_mapping Engine.st_diagnostics
       Engine.st_summary Engine.st_insights Engine.item default from_option
       Engine.column_hints Engine.column_mapping_confidence Engine.aggregate_metrics
       Engine.insight_count Engine.narrative].
  rewrite !bind_Ok.
  destruct (Engine._build_prompt _ _ _ insights _) as [prompt|e]; [|reflexivity].
  rewrite !bind_Ok.
  destruct (Engine.llm_generate engine _) as [text|e]; [|reflexivity].
  reflexivity.
Qed.

(** What a run that returns has gone through. *)
Lemma run_returns_stages (engine : Engine.InsightEngine) (payload : Engine.payload)
    (response : Engine.InsightResponse) :
  Engine.run repr_float repr_str str_of_aggregates engine payload = Ok response ->
  exists first rest summary prompt text,
    let hints := Some (default [] (InsightRequest.column_hints (fields_of payload))) in
    let mapping := Engine.column_mapping response in
    let insights := Engine.insights response in
    let d :=
      {| Engine.column_hints := hints;
         Engine.column_mapping_confidence := Some (ColumnMapping.available_metrics mapping);
         Engine.aggregate_metrics := Some (aggregates summary);
         Engine.insight_count := Some (Z.of_nat (length insights));
         Engine.narrative := None |} in
    InsightRequest.data (fields_of payload) = first :: rest
    /\ Engine.column_identifier engine (map fst first) hints = Ok mapping
    /\ Engine.metric_calculator engine (first :: rest) mapping = Ok summary
    /\ Engine.insight_agent engine summary = Ok insights
    /\ Engine._build_prompt repr_float repr_str str_of_aggregates insights d = Ok prompt
    /\ Engine.llm_generate engine prompt = Ok text
    /\ Engine.diagnostics response =
         {| Engine.column_hints := hints;
            Engine.column_mapping_confidence :=
              Some (ColumnMapping.available_metrics mapping);
            Engine.aggregate_metrics := Some (aggregates summary);
            Engine.insight_count := Some (Z.of_nat (length insights));
            Engine.narrative := Some text |}.
Proof.
  intros H.
  destruct (InsightRequest.data (fields_of payload)) as [|first rest] eqn:E.
  { rewrite (run_without_rows engine payload E) in H. discriminate H. }
  rewrite (run_stage_by_stage engine payload first rest E) in H. cbv zeta in H.
  apply bind_Ok_inv in H as (mapping & Hm & H).
  apply bind_Ok_inv in H as (summary & Hs & H).
  apply bind_Ok_inv in H as (insights & Hi & H).
  apply bind_Ok_inv in H as (prompt & Hp & H).
  apply bind_Ok_inv in H as (text & Ht & [= <-]).
  exists first, rest, summary, prompt, text. cbv zeta.
  cbn [Engine.column_mapping Engine.insights Engine.diagnostics].
  repeat split; assumption.
Qed.

(** X23: A response tells how it was made: the request has a first row; the
    mapping is the answer of the column identifier to the headers of that row
    and the hints of the request (none counting as an empty dictionary); the
    findings are the answer of the insight agent to the summary that the
    metric calculator made of all the rows under this mapping; the narrative
    is the answer of the text generator to the prompt built from the findings
    and the aggregates.  The diagnostics carry the hints, the mapped metrics,
    the aggregates, the number of findings and the narrative. *)
Theorem response_of_a_run (engine : Engine.InsightEngine) (payload : Engine.payload)
    (response : Engine.InsightResponse) :
  Engine.run repr_float repr_str str_of_aggregates engine payload = Ok response ->
  exists first rest summary prompt text,
    let hints := Some (default [] (InsightRequest.column_hints (fields_of payload))) in
    let mapping := Engine.column_mapping response in
    let insights := Engine.insights response in
    let d :=
      {| Engine.column_hints := hints;
         Engine.column_mapping_confidence := Some (ColumnMapping.available_metrics mapping);
         Engine.aggregate_metrics := Some (aggregates summary);
         Engine.insight_count := Some (Z.of_nat (length insights));
         Engine.narrative := None |} in
    InsightRequest.data (fields_of payload) = first :: rest
    /\ Engine.column_identifier engine (map fst first) hints = Ok mapping
    /\ Engine.metric_calculator engine (first :: rest) mapping = Ok summary
    /\ Engine.insight_agent engine summary = Ok insights
    /\ Engine._build_prompt repr_float repr_str str_of_aggregates insights d = Ok prompt
    /\ Engine.llm_generate engine prompt = Ok text
    /\ Engine.diagnostics response =
         {| Engine.column_hints := hints;
            Engine.column_mapping_confidence :=
              Some (ColumnMapping.available_metrics mapping);
            Engine.aggregate_metrics := Some (aggregates summary);
            Engine.insight_count := Some (Z.of_nat (length insights));
            Engine.narrative := Some text |}.
Proof.
  intros H.
  destruct (InsightRequest.data (fields_of payload)) as [|first rest] eqn:E.
  { destruct payload as [request|fields]; cbn [fields_of] in E.
    - rewrite (run_instance_without_rows _ _ _ engine request E) in H. discriminate H.
    - unfold Engine.run, InsightRequest.model_validate, InsightRequest._ensure_data in H.
      rewrite E in H. discriminate H. }
  rewrite (run_stage_by_stage engine payload first rest E) in H. cbv zeta in H.
  destruct (Engine.column_identifier engine (map fst first) _) as [mapping|e] eqn:Hm;
    [|discriminate H].
  rewrite bind_Ok in H.
  destruct (Engine.metric_calculator engine (first :: rest) mapping) as [summary|e] eqn:Hs;
    [|discriminate H].
  rewrite bind_Ok in H.
  destruct (Engine.insight_agent engine summary) as [insights|e] eqn:Hi;
    [|discriminate H].
  rewrite bind_Ok in H.
  destruct (Engine._build_prompt _ _ _ insights _) as [prompt|e] eqn:Hp;
    [|discriminate H].
  rewrite bind_Ok in H.
  destruct (Engine.llm_generate engine prompt) as [text|e] eqn:Ht; [|discriminate H].
  rewrite bind_Ok in H. injection H as <-.
  exists first, rest, summary, prompt, text. cbv zeta.
  cbn [Engine.column_mapping Engine.insights Engine.diagnostics].
  repeat split; assumption.
Qed.

(** X24: The column mapping of a response is read from the headers of the first
    row and from the hints alone: two requests that agree on these get the
    same mapping, whatever their other rows and whatever the values. *)
Theorem mapping_read_from_first_row (engine : Engine.InsightEngine)
    (p1 p2 : Engine.payload) (r1 r2 : Engine.InsightResponse) :
  map fst (hd [] (InsightRequest.data (fields_of p1)))
  = map fst (hd [] (InsightRequest.data (fields_of p2))) ->
  default [] (InsightRequest.column_hints (fields_of p1))
  = default [] (InsightRequest.column_hints (fields_of p2)) ->
  Engine.run repr_float repr_str str_of_aggregates engine p1 = Ok r1 ->
  Engine.run repr_float repr_str str_of_aggregates engine p2 = Ok r2 ->
  Engine.column_mapping r1 = Engine.column_mapping r2
  /\ Engine.column_mapping_confidence (Engine.diagnostics r1)
     = Engine.column_mapping_confidence (Engine.diagnostics r2).
Proof.
  intros Hcols Hhints H1 H2.
  destruct (run_returns_stages engine p1 r1 H1)
    as (f1 & rest1 & s1 & q1 & t1 & E1 & Hm1 & _ & _ & _ & _ & Hd1).
  destruct (run_returns_stages engine p2 r2 H2)
    as (f2 & rest2 & s2 & q2 & t2 & E2 & Hm2 & _ & _ & _ & _ & Hd2).
  cbv zeta in Hm1, Hm2, Hd1, Hd2. rewrite E1, E2 in Hcols. cbn [hd] in Hcols.
  rewrite Hcols, Hhints, Hm2 in Hm1. injection Hm1 as Hm.
  rewrite Hd1, Hd2, Hm. split; reflexivity.
Qed.










(** X26: A failure of the text generator is fatal to the run: when the three
    agents have returned and the generator raises on the prompt, the run
    raises that exception and the mapping and the findings are not returned;
    so it is when the prompt cannot be written.  Any text that the generator
    returns, the empty one included, completes the run. *)
Theorem narrative_failure_is_fatal (engine : Engine.InsightEngine)
    (payload : Engine.payload) (first : record) (rest : list record)
    (mapping : ColumnMapping.t) (summary : MetricSummary) (insights : list Insight.t) :
  let hints := Some (default [] (InsightRequest.column_hints (fields_of payload))) in
  let d :=
    {| Engine.column_hints := hints;
       Engine.column_mapping_confidence := Some (ColumnMapping.available_metrics mapping);
       Engine.aggregate_metrics := Some (aggregates summary);
       Engine.insight_count := Some (Z.of_nat (length insights));
       Engine.narrative := None |} in
  let written := Engine._build_prompt repr_float repr_str str_of_aggregates insights d in
  InsightRequest.data (fields_of payload) = first :: rest ->
  Engine.column_identifier engine (map fst first) hints = Ok mapping ->
  Engine.metric_calculator engine (first :: rest) mapping = Ok summary ->
  Engine.insight_agent engine summary = Ok insights ->
  (forall e, written = Raise e ->
     Engine.run repr_float repr_str str_of_aggregates engine payload = Raise e)
  /\ (forall prompt, written = Ok prompt ->
        (forall e, Engine.llm_generate engine prompt = Raise e ->
           Engine.run repr_float repr_str str_of_aggregates engine payload = Raise e)
        /\ (forall text, Engine.llm_generate engine prompt = Ok text ->
              exists response,
                Engine.run repr_float repr_str str_of_aggregates engine payload
                = Ok response
                /\ Engine.column_mapping response = mapping
                /\ Engine.insights response = insights
                /\ Engine.narrative (Engine.diagnostics response) = Some text)).
Proof.
  cbv zeta. intros Hdata Hm Hs Hi.
  rewrite (run_stage_by_stage engine payload first rest Hdata). cbv zeta.
  rewrite Hm, bind_Ok, Hs, bind_Ok, Hi, bind_Ok. split.
  - intros e ->. reflexivity.
  - intros prompt ->. rewrite bind_Ok. split.
    + intros e ->. reflexivity.
    + intros text ->. rewrite bind_Ok. eexists. split; [reflexivity|]. repeat split.
Qed.

(** X27: With the deterministic client, every narrative opens with the line of
    the client and the three fixed lines of the prompt, and holds at most 94
    characters after them: of the aggregates and the findings, the narrative
    shows no more. *)
Theorem offline_narrative_opening (payload : Engine.payload)
    (response : Engine.InsightResponse) :
  Engine.run repr_float repr_str str_of_aggregates offline_engine payload = Ok response ->
  exists shown,
    Engine.narrative (Engine.diagnostics response)
    = Some (narrative_opening ++ prompt_opening ++ shown)
    /\ (length shown <= 94)%nat.
Proof.
  intros H.
  destruct (run_returns_stages offline_engine payload response H)
    as (first & rest & summary & prompt & text & _ & _ & _ & _ & Hp & Ht & Hd).
  cbv zeta in Hp, Ht, Hd. rewrite Hd. cbn [Engine.narrative].
  cbn [offline_engine Engine.default_engine Engine.llm_generate] in Ht.
  injection Ht as <-.
  destruct (build_prompt_opening _ _ _ _ _ _ Hp) as [body ->].
  exists (Text.slice_to 94 body). split; [|apply slice_to_length].
  unfold LLM.DummyLLM_generate, Text.join_lines, narrative_opening. cbn [Text.join].
  rewrite (slice_to_app 256 prompt_opening body) by (vm_compute; lia).
  rewrite <- !app_assoc. reflexivity.
Qed.

End Pipeline.

Section PipelineWitnesses.

Import Metrics.

Lemma response_of_a_run_witness :
  exists response,
    Engine.run (fun _ => "") (fun _ => "") (fun _ => "")
      (Engine.default_engine (fun _ => Ok (Text.of_str "summary")))
      (Engine.Mapping one_row_request) = Ok response
    /\ Engine.insight_count (Engine.diagnostics response)
       = Some (Z.of_nat (length (Engine.insights response)))
    /\ Engine.narrative (Engine.diagnostics response) = Some (Text.of_str "summary").
Proof.
  destruct (Engine.run (fun _ => "") (fun _ => "") (fun _ => "")
              (Engine.default_engine (fun _ => Ok (Text.of_str "summary")))
              (Engine.Mapping one_row_request))
    as [response|e] eqn:E; [|vm_compute in E; discriminate E].
  exists response. split; [reflexivity|].
  destruct (response_of_a_run _ _ _ _ _ _ E)
    as (first & rest & summary & prompt & text & _ & _ & _ & _ & _ & Ht & Hd).
  cbv zeta in Ht, Hd. rewrite Hd. cbn [Engine.insight_count Engine.narrative].
  split; [reflexivity|].
  cbn [Engine.default_engine Engine.llm_generate] in Ht. injection Ht as <-. reflexivity.
Defined.

Lemma mapping_read_from_first_row_witness :
  exists r1 r2,
    Engine.run (fun _ => "") (fun _ => "") (fun _ => "")
      (Engine.default_engine (fun _ => Ok [])) (Engine.Mapping one_row_request) = Ok r1
    /\ Engine.run (fun _ => "") (fun _ => "") (fun _ => "")
         (Engine.default_engine (fun _ => Ok [])) (Engine.Instance two_row_request) = Ok r2
    /\ Engine.column_mapping r1 = Engine.column_mapping r2.
Proof.
  destruct (Engine.run (fun _ => "") (fun _ => "") (fun _ => "")
              (Engine.default_engine (fun _ => Ok [])) (Engine.Mapping one_row_request))
    as [r1|e] eqn:E1; [|vm_compute in E1; discriminate E1].
  destruct (Engine.run (fun _ => "") (fun _ => "") (fun _ => "")
              (Engine.default_engine (fun _ => Ok [])) (Engine.Instance two_row_request))
    as [r2|e] eqn:E2; [|vm_compute in E2; discriminate E2].
  exists r1, r2. split; [reflexivity|]. split; [reflexivity|].
  apply (mapping_read_from_first_row _ _ _ _ (Engine.Mapping one_row_request)
           (Engine.Instance two_row_request) r1 r2 eq_refl eq_refl E1 E2).
Defined.


Lemma narrative_failure_is_fatal_witness :
  Engine.run (fun _ => "") (fun _ => "") (fun _ => "")
    (Engine.default_engine (fun _ => Raise TypeError)) (Engine.Mapping one_row_request)
  = Raise TypeError.
Proof.
  destruct (Engine.run (fun _ => "") (fun _ => "") (fun _ => "")
              (Engine.default_engine (fun _ => Ok [])) (Engine.Mapping one_row_request))
    as [response|e] eqn:E; [|vm_compute in E; discriminate E].
  destruct (run_returns_stages _ _ _ _ _ _ E)
    as (first & rest & summary & prompt & text & Hdata & Hm & Hs & Hi & Hp & _ & _).
  cbv zeta in Hm, Hs, Hi, Hp.
  destruct (narrative_failure_is_fatal (fun _ => "") (fun _ => "") (fun _ => "")
              (Engine.default_engine (fun _ => Raise TypeError))
              (Engine.Mapping one_row_request) first rest _ summary _ Hdata Hm Hs Hi)
    as [_ Hw].
  apply (proj1 (Hw prompt Hp) TypeError). reflexivity.
Defined.

Lemma offline_narrative_opening_witness :
  exists response shown,
    Engine.run (fun _ => "") (fun _ => "") (fun _ => "") offline_engine
      (Engine.Mapping roas_request) = Ok response
    /\ Engine.narrative (Engine.diagnostics response)
       = Some (narrative_opening ++ prompt_opening ++ shown)
    /\ length shown = 94%nat
    /\ existsb (N.eqb 8211) shown = true.
Proof.
  destruct (Engine.run (fun _ => "") (fun _ => "") (fun _ => "") offline_engine
              (Engine.Mapping roas_request))
    as [response|e] eqn:E; [|vm_compute in E; discriminate E].
  destruct (offline_narrative_opening _ _ _ _ _ E) as (shown & Hn & _).
  exists response, shown. split; [reflexivity|]. split; [exact Hn|].
  assert (Hshown : shown
                   = drop (length (narrative_opening ++ prompt_opening))
                       (default [] (Engine.narrative (Engine.diagnostics response)))).
  { rewrite Hn. cbn [default from_option id]. rewrite app_assoc, drop_app_length.
    reflexivity. }
  clear Hn. vm_compute in E. injection E as <-. rewrite Hshown.
  split; vm_compute; reflexivity.
Defined.

End PipelineWitnesses.
